(** * OtterAI client (src/server.js, class [OtterAI]): a shallow embedding

    The client is a stateful wrapper around an HTTP session.  Every method
    is a sequential chain of remote calls; exceptions thrown half-way leave
    the mutations made so far in place.  The embedding therefore threads a
    world (client fields, log of requests sent, replies still to come, files
    written) through a state-and-exception monad in which a thrown error
    keeps the world reached so far.

    JavaScript values are modelled by [JValue].  Numbers are mathematical
    integers plus NaN.  Strings are sequences of UTF-16 code units over an
    alphabet of 256 of them: a character stands for the code unit of its
    own number, except the eight characters 0xD8 to 0xDF, which stand for
    surrogate code units (see [Str.code_unit]), so that a string can hold a
    character outside the Basic Multilingual Plane, where the number of
    code units and the number of code points differ.  Error messages of the
    engine's own TypeErrors follow V8's wording; no statement below depends
    on them. *)

From Stdlib Require Import String Ascii ZArith List Bool Lia.
From Stdlib Require Import DecimalString.
Import ListNotations.
Local Set Warnings "-register-all".
Local Open Scope string_scope.
Local Open Scope Z_scope.

(** ** Strings *)

Module Str.

(** [s.split(sep)] for a one-character separator: never empty. *)
Fixpoint split (sep : ascii) (s : string) : list string :=
  match s with
  | EmptyString => [EmptyString]
  | String c rest =>
      if Ascii.eqb c sep then EmptyString :: split sep rest
      else match split sep rest with
           | [] => [String c EmptyString]
           | piece :: pieces => String c piece :: pieces
           end
  end.

(** White space removed by [String.prototype.trim], among the code units
    of the alphabet: TAB, LF, VT, FF, CR, SPACE, NBSP. *)
Definition is_space (c : ascii) : bool :=
  let n := nat_of_ascii c in
  (Nat.leb 9 n && Nat.leb n 13) || Nat.eqb n 32 || Nat.eqb n 160.

Fixpoint trim_start (s : string) : string :=
  match s with
  | EmptyString => EmptyString
  | String c rest => if is_space c then trim_start rest else s
  end.

Fixpoint trim_end (s : string) : string :=
  match s with
  | EmptyString => EmptyString
  | String c rest =>
      match trim_end rest with
      | EmptyString => if is_space c then EmptyString else String c EmptyString
      | kept => String c kept
      end
  end.

Definition trim (s : string) : string := trim_end (trim_start s).

Definition is_empty (s : string) : bool :=
  match s with EmptyString => true | _ => false end.

(** [hay.includes(needle)] *)
Fixpoint includes (needle hay : string) : bool :=
  String.prefix needle hay ||
  match hay with
  | EmptyString => false
  | String _ rest => includes needle rest
  end.

(** [pieces.join(sep)] *)
Fixpoint join (sep : string) (pieces : list string) : string :=
  match pieces with
  | [] => EmptyString
  | [p] => p
  | p :: rest => p ++ sep ++ join sep rest
  end.

(** Decimal rendering of an integer, as a template literal prints it. *)
Definition of_Z (z : Z) : string := NilZero.string_of_int (Z.to_int z).

(** The code units of a string, one string each: [s[0]], [s[1]], ... *)
Definition chars (s : string) : list string :=
  map (fun c => String c EmptyString) (list_ascii_of_string s).

(** The code unit a character stands for: its own number, except that
    0xD8-0xDB stand for the high surrogates 0xD800-0xDB00 and 0xDC-0xDF for
    the low surrogates 0xDC00-0xDF00. *)
Definition is_high_surrogate (c : ascii) : bool :=
  let n := nat_of_ascii c in Nat.leb 216 n && Nat.leb n 219.

Definition is_low_surrogate (c : ascii) : bool :=
  let n := nat_of_ascii c in Nat.leb 220 n && Nat.leb n 223.

Definition code_unit (c : ascii) : N :=
  if is_high_surrogate c || is_low_surrogate c then (256 * N_of_ascii c)%N
  else N_of_ascii c.

(** What the string iterator yields ([for ... of], spread): the code
    points, a high surrogate followed by a low one being one of them. *)
Fixpoint code_points (s : string) : list string :=
  match s with
  | EmptyString => []
  | String c rest =>
      match rest with
      | String d rest' =>
          if is_high_surrogate c && is_low_surrogate d
          then String c (String d EmptyString) :: code_points rest'
          else String c EmptyString :: code_points rest
      | EmptyString => [String c EmptyString]
      end
  end.

(** The surrogate pairs of a string: its characters outside the Basic
    Multilingual Plane. *)
Fixpoint surrogate_pairs (s : string) : nat :=
  match s with
  | EmptyString => O
  | String c rest =>
      match rest with
      | String d rest' =>
          if is_high_surrogate c && is_low_surrogate d
          then S (surrogate_pairs rest')
          else surrogate_pairs rest
      | EmptyString => O
      end
  end.

End Str.

(** ** Plain objects: insertion-ordered property lists *)

Module Obj.

Section Props.
Context {V : Type}.

Definition t := list (string * V).

Fixpoint get (o : list (string * V)) (k : string) : option V :=
  match o with
  | [] => None
  | (k', v) :: rest => if String.eqb k' k then Some v else get rest k
  end.

Definition has (o : list (string * V)) (k : string) : bool :=
  match get o k with Some _ => true | None => false end.

Fixpoint replace (o : list (string * V)) (k : string) (v : V) : list (string * V) :=
  match o with
  | [] => []
  | (k', v') :: rest =>
      if String.eqb k' k then (k', v) :: rest else (k', v') :: replace rest k v
  end.

(** [o[k] = v]: an existing property keeps its place, a new one goes last. *)
Definition set (o : list (string * V)) (k : string) (v : V) : list (string * V) :=
  if has o k then replace o k v else o ++ [(k, v)].

(** [delete o[k]] *)
Definition delete (o : list (string * V)) (k : string) : list (string * V) :=
  filter (fun kv => negb (String.eqb (fst kv) k)) o.

End Props.

(** Array indices ("0", "1", ... below 2^32 - 1, no leading zero) are
    enumerated first, in ascending order; the other keys follow in
    insertion order. *)
Definition is_digit (c : ascii) : bool :=
  let n := nat_of_ascii c in Nat.leb 48 n && Nat.leb n 57.

Fixpoint all_digits (s : string) : bool :=
  match s with
  | EmptyString => true
  | String c rest => is_digit c && all_digits rest
  end.

Fixpoint digits_value (acc : N) (s : string) : N :=
  match s with
  | EmptyString => acc
  | String c rest => digits_value (10 * acc + (N_of_ascii c - 48))%N rest
  end.

Definition array_index (k : string) : option N :=
  match k with
  | EmptyString => None
  | String c rest =>
      if all_digits k && (negb (Ascii.eqb c "0") || Str.is_empty rest)
         && Nat.leb (String.length k) 10
      then let n := digits_value 0%N k in
           if (n <? 4294967295)%N then Some n else None
      else None
  end.

Fixpoint insert_index (n : N) (k : string) (l : list (N * string)) : list (N * string) :=
  match l with
  | [] => [(n, k)]
  | (m, k') :: rest =>
      if (n <=? m)%N then (n, k) :: l else (m, k') :: insert_index n k rest
  end.

Fixpoint index_keys (ks : list string) : list (N * string) :=
  match ks with
  | [] => []
  | k :: rest =>
      match array_index k with
      | Some n => insert_index n k (index_keys rest)
      | None => index_keys rest
      end
  end.

Definition named_keys (ks : list string) : list string :=
  filter (fun k => match array_index k with Some _ => false | None => true end) ks.

(** [Object.keys(o)].  An object binds a name once, and so do the
    property lists that stand for objects. *)
Definition keys {V} (o : list (string * V)) : list string :=
  map snd (index_keys (map fst o)) ++ named_keys (map fst o).

(** [Object.entries(o)] *)
Definition entries {V} (o : list (string * V)) : list (string * V) :=
  flat_map (fun k => match get o k with Some v => [(k, v)] | None => [] end)
           (keys o).

End Obj.


(** ** JavaScript values *)

Inductive JValue : Type :=
| JUndefined
| JNull
| JBool (b : bool)
| JNum (z : Z)
| JNaN
| JStr (s : string)
| JArr (items : list JValue)
| JObj (props : list (string * JValue)).

Module Js.

(** ToBoolean *)
Definition truthy (v : JValue) : bool :=
  match v with
  | JUndefined | JNull | JNaN => false
  | JBool b => b
  | JNum z => negb (z =? 0)
  | JStr s => negb (Str.is_empty s)
  | JArr _ | JObj _ => true
  end.

Definition nullish (v : JValue) : bool :=
  match v with JUndefined | JNull => true | _ => false end.

(** [a || b] *)
Definition or (a b : JValue) : JValue := if truthy a then a else b.

Fixpoint sequence (l : list (option string)) : option (list string) :=
  match l with
  | [] => Some []
  | None :: _ => None
  | Some x :: rest => option_map (cons x) (sequence rest)
  end.

(** ToString.  An array prints its items separated by commas, null and
    undefined items as nothing.  A plain object prints through the
    inherited [toString]; an own property of that name (never callable in
    parsed JSON) shadows it, and the conversion fails with a TypeError,
    rendered here as [None]. *)
Fixpoint to_string (v : JValue) : option string :=
  match v with
  | JUndefined => Some "undefined"
  | JNull => Some "null"
  | JBool true => Some "true"
  | JBool false => Some "false"
  | JNum z => Some (Str.of_Z z)
  | JNaN => Some "NaN"
  | JStr s => Some s
  | JArr items =>
      option_map (Str.join ",")
        (sequence (map (fun item => match item with
                                    | JUndefined | JNull => Some EmptyString
                                    | _ => to_string item
                                    end) items))
  | JObj props => if Obj.has props "toString" then None else Some "[object Object]"
  end.

(** ToPrimitive: arrays and plain objects end up printed. *)
Definition to_primitive (v : JValue) : option JValue :=
  match v with
  | JArr _ | JObj _ => option_map JStr (to_string v)
  | _ => Some v
  end.

(** ToNumber on primitives other than strings; [None] is NaN. *)
Definition to_number (v : JValue) : option Z :=
  match v with
  | JNull => Some 0
  | JBool true => Some 1
  | JBool false => Some 0
  | JNum z => Some z
  | _ => None
  end.

Definition is_string (v : JValue) : bool :=
  match v with JStr _ => true | _ => false end.

(** [a + b]: concatenation as soon as one side is (or prints as) a
    string, numeric addition otherwise; [None] when a conversion throws. *)
Definition plus (a b : JValue) : option JValue :=
  match to_primitive a, to_primitive b with
  | Some pa, Some pb =>
      if is_string pa || is_string pb then
        match to_string pa, to_string pb with
        | Some sa, Some sb => Some (JStr (sa ++ sb))
        | _, _ => None
        end
      else match to_number pa, to_number pb with
           | Some x, Some y => Some (JNum (x + y))
           | _, _ => Some JNaN
           end
  | _, _ => None
  end.

(** [a + s] for a string [s]: the left side printed, then [s]. *)
Definition concat (a : JValue) (s : string) : option string :=
  option_map (fun printed => printed ++ s) (to_string a).

(** [a === n] for a number [n]. *)
Definition strict_eq_num (a : JValue) (n : Z) : bool :=
  match a with JNum z => z =? n | _ => false end.

(** [v[k]] for [v] neither null nor undefined.  Inherited methods are
    not represented: the client reads data properties only. *)
Definition get (v : JValue) (k : string) : JValue :=
  match v with
  | JObj props => match Obj.get props k with
                  | Some x => x
                  | None => JUndefined
                  end
  | JArr items =>
      if String.eqb k "length" then JNum (Z.of_nat (List.length items))
      else match Obj.array_index k with
           | Some i => nth (N.to_nat i) items JUndefined
           | None => JUndefined
           end
  | JStr s =>
      if String.eqb k "length" then JNum (Z.of_nat (String.length s))
      else match Obj.array_index k with
           | Some i => match String.get (N.to_nat i) s with
                       | Some c => JStr (String c EmptyString)
                       | None => JUndefined
                       end
           | None => JUndefined
           end
  | _ => JUndefined
  end.

(** [v?.k] *)
Definition get_opt (v : JValue) (k : string) : JValue :=
  if nullish v then JUndefined else get v k.

(** [...v] inside an array literal: the items of an array, the code
    points of a string; nothing else is iterable. *)
Definition spread (v : JValue) : option (list JValue) :=
  match v with
  | JArr items => Some items
  | JStr s => Some (map JStr (Str.code_points s))
  | _ => None
  end.

(** By how much [v.length] exceeds the number of items [v] spreads into:
    the surrogate pairs of a string, nothing for an array. *)
Definition astral (v : JValue) : nat :=
  match v with
  | JStr s => Str.surrogate_pairs s
  | _ => O
  end.

(** A parameter declared with a default, [(v = d)]: the default stands in
    for a missing or undefined argument, and for nothing else. *)
Definition default (v d : JValue) : JValue :=
  match v with
  | JUndefined => d
  | _ => v
  end.

(** How V8 names null and undefined in its messages. *)
Definition type_of_nullish (v : JValue) : string :=
  match v with JNull => "null" | _ => "undefined" end.

(** [typeof v] *)
Definition type_of (v : JValue) : string :=
  match v with
  | JUndefined => "undefined"
  | JNull | JArr _ | JObj _ => "object"
  | JBool _ => "boolean"
  | JNum _ | JNaN => "number"
  | JStr _ => "string"
  end.

Fixpoint indexed (i : nat) (items : list JValue) : list (string * JValue) :=
  match items with
  | [] => []
  | x :: rest => (Str.of_Z (Z.of_nat i), x) :: indexed (S i) rest
  end.

(** The enumerable own properties of a value that can take new ones. *)
Definition own_props (v : JValue) : option (list (string * JValue)) :=
  match v with
  | JObj props => Some props
  | JArr items => Some (indexed 0 items)
  | _ => None
  end.

End Js.

(** ** Errors, envelopes and the wire *)

(** An [Error] object as the [catch] blocks see it. *)
Record JsError : Type := { err_name : string; err_message : string }.

(** [class OtterAIException extends Error] *)
Definition OtterAIException (message : string) : JsError :=
  {| err_name := "OtterAIException"; err_message := message |}.

Definition TypeError (message : string) : JsError :=
  {| err_name := "TypeError"; err_message := message |}.

(** What axios rejects with when the transport fails. *)
Definition AxiosError (message : string) : JsError :=
  {| err_name := "AxiosError"; err_message := message |}.

(** What [fs] throws. *)
Definition SystemError (message : string) : JsError :=
  {| err_name := "Error"; err_message := message |}.

(** What form-data throws. *)
Definition FormError (message : string) : JsError :=
  {| err_name := "Error"; err_message := message |}.

(** The [{ status, data }] object every method hands back. *)
Record Envelope : Type := { status : Z; data : JValue }.

Inductive Method : Type := GET | POST | OPTIONS.

Record FilePart : Type :=
  { file_source : string;        (* fs.createReadStream(fileName) *)
    file_name : string;          (* filename: path.basename(fileName) *)
    file_content_type : JValue }.

Inductive Body : Type :=
| NoBody
| JsonBody (payload : JValue)
| FormBody (fields : list (string * JValue)) (file : FilePart).

Record Request : Type :=
  { req_session : bool;                       (* this.session, or bare axios *)
    req_method : Method;
    req_url : string;
    req_params : list (string * JValue);
    req_headers : list (string * JValue);     (* headers given with the call *)
    req_cookie : option string;               (* the session's default Cookie header *)
    req_auth : option (JValue * JValue);
    req_body : Body;
    req_response_type : option string }.

Record Response : Type :=
  { res_status : Z;
    res_set_cookie : option (list string);    (* response.headers['set-cookie'] *)
    res_data : JValue }.

(** The remote answers, or the transport fails with a message. *)
Inductive Reply : Type :=
| Answer (response : Response)
| Failure (message : string).

(** The fields of an [OtterAI] instance; [session_cookie] is
    [session.defaults.headers.common['Cookie']]. *)
Record Client : Type :=
  { userid : JValue;
    cookies : list (string * string);
    session_cookie : option string }.

(** [constructor()] *)
Definition new_client : Client :=
  {| userid := JNull; cookies := []; session_cookie := None |}.

(** The world a method runs in: the instance, the exchanges made so far
    (oldest first), the replies the remote will give to the requests still
    to come, the console and the files written. *)
Record World : Type :=
  { client : Client;
    wire : list (Request * Reply);
    inbox : list Reply;
    console : list string;
    disk : list (string * JValue) }.

Definition fresh_world (replies : list Reply) : World :=
  {| client := new_client; wire := []; inbox := replies; console := []; disk := [] |}.

(** What lies outside the repository: the XML parser, [path.basename],
    the file system's verdict on a write (when [writeFileSync] throws: the
    message, and what the attempt left under that name, [None] when the
    file is as it was, [Some partial] when it was created or truncated
    and holds [partial]) and form-data's verdict on a field value other
    than an array ([Some message] when [append] throws). *)
Record Platform : Type :=
  { xml_parse : JValue -> JsError + JValue;
    path_basename : string -> string;
    write_fault : string -> option (string * option JValue);
    form_fault : JValue -> option string }.

(** ** The effect monad: state that survives a throw *)

Inductive Outcome (A : Type) : Type :=
| Returned (a : A)
| Thrown (e : JsError).
Arguments Returned {A} a.
Arguments Thrown {A} e.

Definition Eff (A : Type) : Type := World -> Outcome A * World.

Definition ret {A} (a : A) : Eff A := fun w => (Returned a, w).

Definition bind {A B} (m : Eff A) (k : A -> Eff B) : Eff B :=
  fun w => match m w with
           | (Returned a, w') => k a w'
           | (Thrown e, w') => (Thrown e, w')
           end.

Definition throw {A} (e : JsError) : Eff A := fun w => (Thrown e, w).

(** [try { m } catch (error) { handler error }] *)
Definition try_catch {A} (m : Eff A) (handler : JsError -> Eff A) : Eff A :=
  fun w => match m w with
           | (Returned a, w') => (Returned a, w')
           | (Thrown e, w') => handler e w'
           end.

Declare Scope eff_scope.
Delimit Scope eff_scope with eff.
Notation "x <- m ;; k" := (bind m (fun x => k))
  (at level 61, m at next level, right associativity) : eff_scope.
Notation "m ;; k" := (bind m (fun _ => k))
  (at level 61, right associativity) : eff_scope.
Local Open Scope eff_scope.

(** A conversion that may throw a TypeError. *)
Definition convert {A} (result : option A) (message : string) : Eff A :=
  match result with
  | Some a => ret a
  | None => throw (TypeError message)
  end.

(** [v.k]: reading a property of null or undefined throws. *)
Definition prop (v : JValue) (k : string) : Eff JValue :=
  if Js.nullish v
  then throw (TypeError ("Cannot read properties of " ++ Js.type_of_nullish v
                         ++ " (reading '" ++ k ++ "')"))
  else ret (Js.get v k).

Definition read_client : Eff Client := fun w => (Returned (client w), w).

Definition write_client (c : Client) : Eff unit :=
  fun w => (Returned tt,
            {| client := c; wire := wire w; inbox := inbox w;
               console := console w; disk := disk w |}).

(** [console.log(line)] *)
Definition console_log (line : string) : Eff unit :=
  fun w => (Returned tt,
            {| client := client w; wire := wire w; inbox := inbox w;
               console := console w ++ [line]; disk := disk w |}).

(** The session is created with [timeout: 30000]; a remote that stays
    silent (no reply left) surfaces as that transport failure. *)
Definition timeout_message : string := "timeout of 30000ms exceeded".

(** One exchange: the request goes out, the next reply comes back.
    [validateStatus: () => true]: no status makes axios reject. *)
Definition exchange (req : Request) : Eff Response :=
  fun w =>
    let reply := match inbox w with
                 | [] => Failure timeout_message
                 | r :: _ => r
                 end in
    let w' := {| client := client w; wire := wire w ++ [(req, reply)];
                 inbox := tl (inbox w); console := console w; disk := disk w |} in
    match reply with
    | Answer response => (Returned response, w')
    | Failure message => (Thrown (AxiosError message), w')
    end.

(** [fs.writeFileSync(filename, contents)]: the file is opened
    (created, truncated) and then written, so a write that fails may have
    changed it all the same. *)
Definition write_file (pf : Platform) (filename : string) (contents : JValue) : Eff unit :=
  fun w =>
    let written (held : JValue) :=
      {| client := client w; wire := wire w; inbox := inbox w;
         console := console w; disk := disk w ++ [(filename, held)] |} in
    match write_fault pf filename with
    | Some (message, None) => (Thrown (SystemError message), w)
    | Some (message, Some partial) => (Thrown (SystemError message), written partial)
    | None => (Returned tt, written contents)
    end.

(** ** The client *)

Definition API_BASE_URL : string := "https://otter.ai/forward/api/v1/".
Definition S3_BASE_URL : string := "https://s3.us-west-2.amazonaws.com/".

Definition not_primitive_message : string := "Cannot convert object to primitive value".

(** A template-literal slot: [`${v}`]. *)
Definition printed (v : JValue) : Eff string :=
  convert (Js.to_string v) not_primitive_message.

Definition _isUseridInvalid (c : Client) : bool := negb (Js.truthy (userid c)).

Definition _handleResponse (response : Response) (data : JValue) : Envelope :=
  if Js.truthy data
  then {| status := res_status response; data := data |}
  else {| status := res_status response; data := res_data response |}.

(** [cookies[name] = value] on a plain object: [__proto__] names the
    inherited accessor, which ignores a string. *)
Definition cookie_assign (jar : list (string * string)) (name value : string)
  : list (string * string) :=
  if String.eqb name "__proto__" then jar else Obj.set jar name value.

Definition _extractCookies (response : Response) : list (string * string) :=
  match res_set_cookie response with
  | Some setCookieHeader =>
      fold_left
        (fun jar cookie =>
           let nameValue := hd EmptyString (Str.split ";" cookie) in
           match Str.split "=" nameValue with
           | name :: value :: _ =>
               if negb (Str.is_empty name) && negb (Str.is_empty value)
               then cookie_assign jar (Str.trim name) (Str.trim value)
               else jar
           | _ => jar
           end)
        setCookieHeader []
  | None => []
  end.

Definition cookie_string (jar : list (string * string)) : string :=
  Str.join "; " (map (fun nv => fst nv ++ "=" ++ snd nv) (Obj.entries jar)).

Definition _setCookieHeader : Eff unit :=
  c <- read_client ;;
  if (0 <? Z.of_nat (List.length (Obj.keys (cookies c))))
  then write_client {| userid := userid c; cookies := cookies c;
                       session_cookie := Some (cookie_string (cookies c)) |}
  else ret tt.

(** A call through [this.session]: the default Cookie header of the
    moment travels with it. *)
Definition session_call (method : Method) (url : string)
    (params headers : list (string * JValue)) (auth : option (JValue * JValue))
    (body : Body) (response_type : option string) : Eff Response :=
  c <- read_client ;;
  exchange {| req_session := true; req_method := method; req_url := url;
              req_params := params; req_headers := headers;
              req_cookie := session_cookie c; req_auth := auth;
              req_body := body; req_response_type := response_type |}.

Definition session_get (url : string) (params : list (string * JValue)) : Eff Response :=
  session_call GET url params [] None NoBody None.

(** [if (this._isUseridInvalid()) throw new OtterAIException('userid is invalid')] *)
Definition require_userid : Eff JValue :=
  c <- read_client ;;
  if _isUseridInvalid c then throw (OtterAIException "userid is invalid")
  else ret (userid c).

(** [this.cookies.csrftoken] *)
Definition csrftoken (c : Client) : JValue :=
  match Obj.get (cookies c) "csrftoken" with
  | Some token => JStr token
  | None => JUndefined
  end.

(** [catch (error) { throw new OtterAIException(`<what> failed: ${error.message}`) }] *)
Definition rethrow {A} (what : string) (error : JsError) : Eff A :=
  throw (OtterAIException (what ++ " failed: " ++ err_message error)).

Definition login (username password : JValue) : Eff Envelope :=
  try_catch
    (response <- session_call GET (API_BASE_URL ++ "login")
                   [("username", username)] [] (Some (username, password)) NoBody None ;;
     if negb (res_status response =? 200) then ret (_handleResponse response JNull)
     else
       uid <- prop (res_data response) "userid" ;;
       c <- read_client ;;
       write_client {| userid := uid; cookies := cookies c;
                       session_cookie := session_cookie c |} ;;
       c <- read_client ;;
       write_client {| userid := userid c; cookies := _extractCookies response;
                       session_cookie := session_cookie c |} ;;
       _setCookieHeader ;;
       ret (_handleResponse response JNull))
    (rethrow "Login").

Definition getUser : Eff Envelope :=
  try_catch
    (response <- session_get (API_BASE_URL ++ "user") [] ;;
     ret (_handleResponse response JNull))
    (rethrow "Get user").

Definition getSpeakers : Eff Envelope :=
  uid <- require_userid ;;
  try_catch
    (response <- session_get (API_BASE_URL ++ "speakers") [("userid", uid)] ;;
     ret (_handleResponse response JNull))
    (rethrow "Get speakers").

Definition getSpeeches (folder pageSize source : JValue) : Eff Envelope :=
  let folder := Js.default folder (JNum 0) in
  let pageSize := Js.default pageSize (JNum 45) in
  let source := Js.default source (JStr "owned") in
  uid <- require_userid ;;
  try_catch
    (response <- session_get (API_BASE_URL ++ "speeches")
                   [("userid", uid); ("folder", folder);
                    ("page_size", pageSize); ("source", source)] ;;
     ret (_handleResponse response JNull))
    (rethrow "Get speeches").

(** The pictographs that open some console lines are left out.
    [maxSpeeches] is a number: its default, 1000, is the caller's to give. *)
Definition getAllSpeeches (folder source : JValue) (maxSpeeches : Z) : Eff Envelope :=
  let folder := Js.default folder (JNum 0) in
  let source := Js.default source (JStr "owned") in
  _ <- require_userid ;;
  try_catch
    (source_text <- printed source ;;
     folder_text <- printed folder ;;
     console_log ("Getting all " ++ source_text ++ " speeches from folder "
                  ++ folder_text ++ "...") ;;
     let largePageSize := Z.min maxSpeeches 200 in
     response <- getSpeeches folder (JNum largePageSize) source ;;
     if negb (status response =? 200)
        || negb (Js.truthy (Js.get_opt (data response) "speeches"))
     then throw (OtterAIException ("Failed to get speeches: " ++ Str.of_Z (status response)))
     else
       speeches <- prop (data response) "speeches" ;;
       count <- prop speeches "length" ;;
       count_text <- printed count ;;
       console_log ("Retrieved " ++ count_text ++ " speeches") ;;
       (if Js.strict_eq_num count largePageSize
        then console_log ("Retrieved maximum page size (" ++ Str.of_Z largePageSize
                          ++ "). There might be more speeches.") ;;
             console_log "   The Otter.ai API may have pagination limitations."
        else ret tt) ;;
       ret {| status := 200;
              data := JObj [("status", JStr "OK");
                            ("speeches", speeches);
                            ("total_count", count);
                            ("note", JStr (if Js.strict_eq_num count largePageSize
                                           then "Max page size reached - there may be more speeches"
                                           else "All available speeches retrieved"))] |})
    (rethrow "Get all speeches").

(** One turn of [for (const source of sources)].  [allSpeeches] is a
    local object that the [try] block mutates step by step, so the [catch]
    block receives it as it stood when the error was thrown.  (The console
    lines are kept without their leading newline and pictograph.) *)
Definition collect_source (folder : JValue) (maxPerSource : Z)
    (allSpeeches : list (string * JValue)) (source : string)
  : Eff (list (string * JValue)) :=
  let on_error (allSpeeches : list (string * JValue)) (error : JsError) :=
    console_log ("Failed to get " ++ source ++ " speeches: " ++ err_message error) ;;
    ret (Obj.set allSpeeches source (JArr [])) in
  console_log ("Getting all " ++ source ++ " speeches...") ;;
  try_catch
    (result <- getAllSpeeches folder (JStr source) maxPerSource ;;
     let speeches := Js.get_opt (data result) "speeches" in
     if Js.truthy speeches then
       let allSpeeches := Obj.set allSpeeches source speeches in
       try_catch
         (count <- prop speeches "length" ;;
          total <- convert (Js.plus (Js.get (JObj allSpeeches) "total") count)
                           not_primitive_message ;;
          let allSpeeches := Obj.set allSpeeches "total" total in
          try_catch
            (count_text <- printed count ;;
             console_log ("Retrieved " ++ count_text ++ " " ++ source ++ " speeches") ;;
             ret allSpeeches)
            (on_error allSpeeches))
         (on_error allSpeeches)
     else ret allSpeeches)
    (on_error allSpeeches).

Fixpoint for_each {S X} (body : S -> X -> Eff S) (xs : list X) (s : S) : Eff S :=
  match xs with
  | [] => ret s
  | x :: rest => s' <- body s x ;; for_each body rest s'
  end.

Definition not_iterable (what : string) : string := what ++ " is not iterable".

(** [const allSpeeches = { owned: [], shared: [], total: 0 }] *)
Definition no_speeches : list (string * JValue) :=
  [("owned", JArr []); ("shared", JArr []); ("total", JNum 0)].

(** The [return { status: 200, data: { ... } }] that closes the [try]
    block of [getAllSpeechesFromAllSources]. *)
Definition aggregate_result (allSpeeches : list (string * JValue)) : Eff Envelope :=
  let owned := Js.get (JObj allSpeeches) "owned" in
  let shared := Js.get (JObj allSpeeches) "shared" in
  owned_items <- convert (Js.spread owned) (not_iterable "allSpeeches.owned") ;;
  shared_items <- convert (Js.spread shared) (not_iterable "allSpeeches.shared") ;;
  owned_count <- prop owned "length" ;;
  shared_count <- prop shared "length" ;;
  ret {| status := 200;
         data := JObj [("status", JStr "OK");
                       ("speeches_by_source", JObj allSpeeches);
                       ("all_speeches", JArr (owned_items ++ shared_items));
                       ("summary",
                        JObj [("owned_count", owned_count);
                              ("shared_count", shared_count);
                              ("total_count", Js.get (JObj allSpeeches) "total")])] |}.

Definition getAllSpeechesFromAllSources (folder : JValue) (maxPerSource : Z) : Eff Envelope :=
  let folder := Js.default folder (JNum 0) in
  _ <- require_userid ;;
  let sources := ["owned"; "shared"] in
  try_catch
    (allSpeeches <- for_each (collect_source folder maxPerSource) sources no_speeches ;;
     aggregate_result allSpeeches)
    (rethrow "Get all speeches from all sources").

Definition getSpeech (speechId : JValue) : Eff Envelope :=
  uid <- require_userid ;;
  try_catch
    (response <- session_get (API_BASE_URL ++ "speech")
                   [("userid", uid); ("otid", speechId)] ;;
     ret (_handleResponse response JNull))
    (rethrow "Get speech").

Definition querySpeech (query speechId size : JValue) : Eff Envelope :=
  let size := Js.default size (JNum 500) in
  try_catch
    (response <- session_get (API_BASE_URL ++ "advanced_search")
                   [("query", query); ("size", size); ("otid", speechId)] ;;
     ret (_handleResponse response JNull))
    (rethrow "Query speech").

Definition preflight_headers : list (string * JValue) :=
  [("Accept", JStr "*/*");
   ("Connection", JStr "keep-alive");
   ("Origin", JStr "https://otter.ai");
   ("Referer", JStr "https://otter.ai/");
   ("Access-Control-Request-Method", JStr "POST")].

(** The fields [uploadSpeech] has for the form, from the parameters of
    step 1: [success_action_status] rewritten as [String(...)] of itself,
    [form_action] deleted, then one field per key.  In the strict code of a
    class body a primitive refuses the new property.  Whether the form
    takes them is [append_all]'s to say. *)
Definition form_fields (paramsData : JValue) : Eff (list (string * JValue)) :=
  current <- prop paramsData "success_action_status" ;;
  text <- printed current ;;
  match Js.own_props paramsData with
  | None =>
      throw (TypeError ("Cannot create property 'success_action_status' on "
                        ++ Js.type_of paramsData ++ " '"
                        ++ match Js.to_string paramsData with
                           | Some shown => shown
                           | None => EmptyString
                           end ++ "'"))
  | Some props =>
      let props := Obj.set props "success_action_status" (JStr text) in
      let props := Obj.delete props "form_action" in
      ret (map (fun key => (key, Js.get (JObj props) key)) (Obj.keys props))
  end.

Section WithPlatform.

Variable pf : Platform.

(** [formData.append(key, value)]: form-data refuses an array
    ('Arrays are not supported.', sent as an error event that nobody
    listens to, hence thrown); what it makes of the other values is the
    platform's to say. *)
Definition append_fault (value : JValue) : option string :=
  match value with
  | JArr _ => Some "Arrays are not supported."
  | _ => form_fault pf value
  end.

(** [Object.keys(paramsData).forEach(key => formData.append(key, paramsData[key]))]:
    the first value refused ends it. *)
Fixpoint append_all (fields : list (string * JValue)) : Eff unit :=
  match fields with
  | [] => ret tt
  | (_, value) :: rest =>
      match append_fault value with
      | Some message => throw (FormError message)
      | None => append_all rest
      end
  end.

(** [formData.getHeaders()] without the boundary parameter, which is
    drawn at random. *)
Definition form_headers : list (string * JValue) :=
  [("content-type", JStr "multipart/form-data")].

Definition uploadSpeech (fileName : string) (contentType : JValue) : Eff Envelope :=
  let contentType := Js.default contentType (JStr "audio/mp4") in
  let speechUploadParamsUrl := API_BASE_URL ++ "speech_upload_params" in
  let speechUploadProdUrl := S3_BASE_URL ++ "speech-upload-prod" in
  let finishSpeechUpload := API_BASE_URL ++ "finish_speech_upload" in
  uid <- require_userid ;;
  try_catch
    (response <- session_get speechUploadParamsUrl [("userid", uid)] ;;
     if negb (res_status response =? 200) then ret (_handleResponse response JNull)
     else
       paramsData <- prop (res_data response) "data" ;;
       optionsResponse <- session_call OPTIONS speechUploadProdUrl []
                            preflight_headers None NoBody None ;;
       if negb (res_status optionsResponse =? 200)
       then ret (_handleResponse optionsResponse JNull)
       else
         fields <- form_fields paramsData ;;
         append_all fields ;;
         let file := {| file_source := fileName;
                        file_name := path_basename pf fileName;
                        file_content_type := contentType |} in
         uploadResponse <-
           exchange {| req_session := false; req_method := POST;
                       req_url := speechUploadProdUrl; req_params := [];
                       req_headers := form_headers; req_cookie := None;
                       req_auth := None; req_body := FormBody fields file;
                       req_response_type := None |} ;;
         if negb (res_status uploadResponse =? 201)
         then ret (_handleResponse uploadResponse JNull)
         else
           xmlData <- match xml_parse pf (res_data uploadResponse) with
                      | inr parsed => ret parsed
                      | inl error => throw error
                      end ;;
           postResponse <- prop xmlData "PostResponse" ;;
           location <- prop postResponse "Location" ;;
           bucket <- prop postResponse "Bucket" ;;
           key <- prop postResponse "Key" ;;
           c <- read_client ;;
           finishResponse <-
             session_get finishSpeechUpload
               [("bucket", bucket); ("key", key); ("language", JStr "en");
                ("country", JStr "us"); ("userid", userid c)] ;;
           ret (_handleResponse finishResponse JNull))
    (rethrow "Upload speech").

Definition downloadSpeech (speechId name : JValue) (fileFormat : string) : Eff Envelope :=
  let name := Js.default name JNull in
  uid <- require_userid ;;
  c <- read_client ;;
  let data := JObj [("formats", JStr fileFormat);
                    ("speech_otid_list", JArr [speechId])] in
  let headers := [("x-csrftoken", csrftoken c);
                  ("referer", JStr "https://otter.ai/")] in
  try_catch
    (response <- session_call POST (API_BASE_URL ++ "bulk_export") [("userid", uid)]
                   headers None (JsonBody data) (Some "arraybuffer") ;;
     stem <- convert (Js.concat (Js.or name speechId) ".") not_primitive_message ;;
     let filename := stem ++ (if Str.includes "," fileFormat then "zip" else fileFormat) in
     if res_status response =? 200 then
       write_file pf filename (res_data response) ;;
       ret (_handleResponse response (JObj [("filename", JStr filename)]))
     else
       id_text <- printed speechId ;;
       throw (OtterAIException ("Got response status " ++ Str.of_Z (res_status response)
                                ++ " when attempting to download " ++ id_text)))
    (rethrow "Download speech").

End WithPlatform.

Definition moveToTrashBin (speechId : JValue) : Eff Envelope :=
  uid <- require_userid ;;
  c <- read_client ;;
  try_catch
    (response <- session_call POST (API_BASE_URL ++ "move_to_trash_bin") [("userid", uid)]
                   [("x-csrftoken", csrftoken c)] None
                   (JsonBody (JObj [("otid", speechId)])) None ;;
     ret (_handleResponse response JNull))
    (rethrow "Move to trash bin").

Definition createSpeaker (speakerName : JValue) : Eff Envelope :=
  uid <- require_userid ;;
  c <- read_client ;;
  try_catch
    (response <- session_call POST (API_BASE_URL ++ "create_speaker") [("userid", uid)]
                   [("x-csrftoken", csrftoken c)] None
                   (JsonBody (JObj [("speaker_name", speakerName)])) None ;;
     ret (_handleResponse response JNull))
    (rethrow "Create speaker").

Definition getNotificationSettings : Eff Envelope :=
  try_catch
    (response <- session_get (API_BASE_URL ++ "get_notification_settings") [] ;;
     ret (_handleResponse response JNull))
    (rethrow "Get notification settings").

Definition listGroups : Eff Envelope :=
  uid <- require_userid ;;
  try_catch
    (response <- session_get (API_BASE_URL ++ "list_groups") [("userid", uid)] ;;
     ret (_handleResponse response JNull))
    (rethrow "List groups").

Definition getFolders : Eff Envelope :=
  uid <- require_userid ;;
  try_catch
    (response <- session_get (API_BASE_URL ++ "folders") [("userid", uid)] ;;
     ret (_handleResponse response JNull))
    (rethrow "Get folders").

Definition speechStart : Eff Envelope :=
  throw (OtterAIException "Speech start not implemented yet").

Definition stopSpeech : Eff Envelope :=
  throw (OtterAIException "Stop speech not implemented yet").

(** ** The methods as one interface *)

Inductive Op : Type :=
| Login (username password : JValue)
| GetUser
| GetSpeakers
| GetSpeeches (folder pageSize source : JValue)
| GetAllSpeeches (folder source : JValue) (maxSpeeches : Z)
| GetAllSpeechesFromAllSources (folder : JValue) (maxPerSource : Z)
| GetSpeech (speechId : JValue)
| QuerySpeech (query speechId size : JValue)
| UploadSpeech (fileName : string) (contentType : JValue)
| DownloadSpeech (speechId name : JValue) (fileFormat : string)
| MoveToTrashBin (speechId : JValue)
| CreateSpeaker (speakerName : JValue)
| GetNotificationSettings
| ListGroups
| GetFolders
| SpeechStart
| StopSpeech.

Definition call (pf : Platform) (op : Op) : Eff Envelope :=
  match op with
  | Login username password => login username password
  | GetUser => getUser
  | GetSpeakers => getSpeakers
  | GetSpeeches folder pageSize source => getSpeeches folder pageSize source
  | GetAllSpeeches folder source maxSpeeches => getAllSpeeches folder source maxSpeeches
  | GetAllSpeechesFromAllSources folder maxPerSource =>
      getAllSpeechesFromAllSources folder maxPerSource
  | GetSpeech speechId => getSpeech speechId
  | QuerySpeech query speechId size => querySpeech query speechId size
  | UploadSpeech fileName contentType => uploadSpeech pf fileName contentType
  | DownloadSpeech speechId name fileFormat => downloadSpeech pf speechId name fileFormat
  | MoveToTrashBin speechId => moveToTrashBin speechId
  | CreateSpeaker speakerName => createSpeaker speakerName
  | GetNotificationSettings => getNotificationSettings
  | ListGroups => listGroups
  | GetFolders => getFolders
  | SpeechStart => speechStart
  | StopSpeech => stopSpeech
  end.

(** The methods that open with the [_isUseridInvalid] check. *)
Definition identity_gated (op : Op) : bool :=
  match op with
  | GetSpeakers | GetSpeeches _ _ _ | GetAllSpeeches _ _ _
  | GetAllSpeechesFromAllSources _ _ | GetSpeech _ | UploadSpeech _ _
  | DownloadSpeech _ _ _ | MoveToTrashBin _ | CreateSpeaker _
  | ListGroups | GetFolders => true
  | _ => false
  end.

(** ** Observing a run *)

(** The exchanges made between two worlds of one run. *)
Definition exchanges_since (w w' : World) : list (Request * Reply) :=
  skipn (List.length (wire w)) (wire w').

(** [sends P m]: [m] leaves the instance as it found it, only adds to the
    wire, and every exchange it adds satisfies [P] (which may look at the
    instance). *)
Definition sends {A} (P : Client -> Request * Reply -> Prop) (m : Eff A) : Prop :=
  forall w,
    client (snd (m w)) = client w /\
    exists new, wire (snd (m w)) = (wire w ++ new)%list /\ Forall (P (client w)) new.

(** The Cookie header on the wire is the session's default of the moment;
    the bare axios call of the upload carries none. *)
Definition attaches_cookie (c : Client) (x : Request * Reply) : Prop :=
  req_cookie (fst x) = if req_session (fst x) then session_cookie c else None.

(** A caller that issues methods one after the other, whatever each one
    returns or throws. *)
Fixpoint caller (pf : Platform) (ops : list Op) : Eff unit :=
  match ops with
  | [] => ret tt
  | op :: rest =>
      try_catch (call pf op ;; ret tt) (fun _ => ret tt) ;;
      caller pf rest
  end.

Definition is_login (op : Op) : bool :=
  match op with Login _ _ => true | _ => false end.

(** [wp m Q w]: running [m] from [w] ends in an outcome and a world that
    satisfy [Q]. *)
Definition wp {A} (m : Eff A) (Q : Outcome A -> World -> Prop) (w : World) : Prop :=
  Q (fst (m w)) (snd (m w)).

(** How a reply surfaces in the code. *)
Definition outcome_of (reply : Reply) : Outcome Response :=
  match reply with
  | Answer response => Returned response
  | Failure message => Thrown (AxiosError message)
  end.

(** The world once [req] went out and [reply] came back. *)
Definition after_exchange (w : World) (req : Request) (reply : Reply) : World :=
  {| client := client w; wire := wire w ++ [(req, reply)];
     inbox := tl (inbox w); console := console w; disk := disk w |}.

(** The request a session call puts on the wire. *)
Definition session_request (c : Client) (method : Method) (url : string)
    (params headers : list (string * JValue)) (auth : option (JValue * JValue))
    (body : Body) (response_type : option string) : Request :=
  {| req_session := true; req_method := method; req_url := url;
     req_params := params; req_headers := headers;
     req_cookie := session_cookie c; req_auth := auth;
     req_body := body; req_response_type := response_type |}.

(** The file name [downloadSpeech] builds once the stem [name || speechId]
    is printed. *)
Definition filename_of (stem fileFormat : string) : string :=
  (stem ++ ".") ++ (if Str.includes "," fileFormat then "zip" else fileFormat).

(** The name as the specification words it, with [name ?? speechId]: the
    given name unless it is null or undefined. *)
Definition spec_filename (speechId name : JValue) (fileFormat : string) : option string :=
  option_map (fun stem => filename_of stem fileFormat)
             (Js.to_string (if Js.nullish name then speechId else name)).

(** What C7 asks of the fields of the multipart form. *)
Definition well_formed_fields (fields : list (string * JValue)) : Prop :=
  (exists text, In ("success_action_status", JStr text) fields) /\
  (forall v, In ("success_action_status", v) fields -> exists text, v = JStr text) /\
  (forall v, ~ In ("form_action", v) fields).

(** The methods made of one remote call whose answer goes straight to
    [_handleResponse]. *)
Definition single_call (op : Op) : bool :=
  match op with
  | Login _ _ | GetUser | GetSpeakers | GetSpeeches _ _ _ | GetSpeech _
  | QuerySpeech _ _ _ | MoveToTrashBin _ | CreateSpeaker _
  | GetNotificationSettings | ListGroups | GetFolders => true
  | _ => false
  end.

Definition is_2xx (code : Z) : bool := (200 <=? code) && (code <? 300).

(** What one turn of the loop leaves in [allSpeeches], as a function of
    how the turn's fetch ended. *)
Definition tally_after (allSpeeches : list (string * JValue)) (source : string)
    (fetch : Outcome Envelope) : list (string * JValue) :=
  match fetch with
  | Thrown _ => Obj.set allSpeeches source (JArr [])
  | Returned result =>
      let speeches := Js.get_opt (data result) "speeches" in
      if Js.truthy speeches then
        let stored := Obj.set allSpeeches source speeches in
        match Js.plus (Js.get (JObj stored) "total") (Js.get speeches "length") with
        | Some total => Obj.set stored "total" total
        | None => Obj.set stored source (JArr [])
        end
      else allSpeeches
  end.

(** The fetch a turn makes, in the world where it makes it. *)
Definition fetch_of (folder : JValue) (maxPerSource : Z) (source : string) (w : World)
  : Outcome Envelope * World :=
  getAllSpeeches folder (JStr source) maxPerSource
    (snd (console_log ("Getting all " ++ source ++ " speeches...") w)).

(** The two fetches of [getAllSpeechesFromAllSources] started in [w]. *)
Definition owned_fetch (folder : JValue) (maxPerSource : Z) (w : World) : Outcome Envelope :=
  fst (fetch_of folder maxPerSource "owned" w).

Definition shared_fetch (folder : JValue) (maxPerSource : Z) (w : World) : Outcome Envelope :=
  fst (fetch_of folder maxPerSource "shared"
         (snd (collect_source folder maxPerSource no_speeches "owned" w))).

(** How the aggregate call ends once the loop has filled [allSpeeches]. *)
Definition closing (allSpeeches : list (string * JValue)) : Outcome Envelope :=
  match fst (aggregate_result allSpeeches (fresh_world [])) with
  | Returned envelope => Returned envelope
  | Thrown error =>
      Thrown (OtterAIException ("Get all speeches from all sources failed: "
                                ++ err_message error))
  end.



(** ** Vocabulary of the further properties *)

(** The name each one-call method gives its failures:
    [`<label> failed: ${error.message}`]. *)
Definition failure_label (op : Op) : string :=
  match op with
  | Login _ _ => "Login"
  | GetUser => "Get user"
  | GetSpeakers => "Get speakers"
  | GetSpeeches _ _ _ => "Get speeches"
  | GetAllSpeeches _ _ _ => "Get all speeches"
  | GetAllSpeechesFromAllSources _ _ => "Get all speeches from all sources"
  | GetSpeech _ => "Get speech"
  | QuerySpeech _ _ _ => "Query speech"
  | UploadSpeech _ _ => "Upload speech"
  | DownloadSpeech _ _ _ => "Download speech"
  | MoveToTrashBin _ => "Move to trash bin"
  | CreateSpeaker _ => "Create speaker"
  | GetNotificationSettings => "Get notification settings"
  | ListGroups => "List groups"
  | GetFolders => "Get folders"
  | SpeechStart => "Speech start"
  | StopSpeech => "Stop speech"
  end.

(** An outcome that, when it is an error, is an [OtterAIException]. *)
Definition domain_only {A} (out : Outcome A) : Prop :=
  forall e, out = Thrown e -> err_name e = "OtterAIException".

(** [emits c P m]: run on the instance [c], [m] leaves it as it is, only
    adds to the wire, and every exchange it adds satisfies [P]. *)
Definition emits {A} (c : Client) (P : Request * Reply -> Prop) (m : Eff A) : Prop :=
  forall w, client w = c ->
    client (snd (m w)) = c /\
    exists new, wire (snd (m w)) = (wire w ++ new)%list /\ Forall P new.

(** A request either goes to the object store or names the user. *)
Definition names_user (uid : JValue) (x : Request * Reply) : Prop :=
  req_url (fst x) = S3_BASE_URL ++ "speech-upload-prod" \/
  In ("userid", uid) (req_params (fst x)).

(** The methods that change something on the service and send the CSRF
    token along. *)
Definition sends_csrf (op : Op) : bool :=
  match op with
  | DownloadSpeech _ _ _ | MoveToTrashBin _ | CreateSpeaker _ => true
  | _ => false
  end.

(** The one request [getAllSpeeches] makes. *)
Definition speeches_request (c : Client) (folder source : JValue) (maxSpeeches : Z)
  : Request :=
  session_request c GET (API_BASE_URL ++ "speeches")
    [("userid", userid c); ("folder", folder);
     ("page_size", JNum (Z.min maxSpeeches 200)); ("source", source)]
    [] None NoBody None.

(** The four steps of an upload: method and URL of each request. *)
Definition upload_steps : list (Method * string) :=
  [(GET, API_BASE_URL ++ "speech_upload_params");
   (OPTIONS, S3_BASE_URL ++ "speech-upload-prod");
   (POST, S3_BASE_URL ++ "speech-upload-prod");
   (GET, API_BASE_URL ++ "finish_speech_upload")].

(** The status each step but the last must be answered with for the
    upload to go on. *)
Definition upload_go_ahead : list Z := [200; 200; 201].

Definition step_of (x : Request * Reply) : Method * string :=
  (req_method (fst x), req_url (fst x)).

(** An exchange answered with the given status. *)
Definition answered_with (x : Request * Reply) (code : Z) : Prop :=
  exists r, snd x = Answer r /\ res_status r = code.


(** [lacks c s]: the character [c] does not occur in [s]. *)
Fixpoint lacks (c : ascii) (s : string) : bool :=
  match s with
  | EmptyString => true
  | String c' rest => negb (Ascii.eqb c' c) && lacks c rest
  end.

(** A cookie name or value that the parsing of [_extractCookies] takes as
    it is: not empty, free of ';' and '=', no white space at either end. *)
Definition plain (s : string) : Prop :=
  Str.is_empty s = false /\ lacks ";" s = true /\ lacks "=" s = true /\ Str.trim s = s.

(** A cookie as a Set-Cookie line presents it: name, value, and
    attributes that are either absent or introduced by ';'. *)
Record CookieLine : Type :=
  { line_name : string; line_value : string; line_attributes : string }.

Definition line_text (l : CookieLine) : string :=
  line_name l ++ "=" ++ line_value l ++ line_attributes l.

Definition line_pair (l : CookieLine) : string * string := (line_name l, line_value l).

Definition well_formed_line (l : CookieLine) : Prop :=
  plain (line_name l) /\ plain (line_value l) /\
  (line_attributes l = EmptyString \/
   exists rest, line_attributes l = String ";" rest) /\
  line_name l <> "__proto__" /\
  Obj.array_index (line_name l) = None.




(** The requests of one turn of the aggregate call: none, or the one
    request [getAllSpeeches] sends for the source. *)
Definition one_page (c : Client) (folder source : JValue) (maxSpeeches : Z)
    (part : list (Request * Reply)) : Prop :=
  part = [] \/ exists reply, part = [(speeches_request c folder source maxSpeeches, reply)].

Definition asks_one_page (w : World) (folder source : JValue) (maxSpeeches : Z)
    (w' : World) : Prop :=
  client w' = client w /\
  exists part, wire w' = (wire w ++ part)%list /\
               one_page (client w) folder source maxSpeeches part.

(** ** The HTTP front (src/server.js, lines 93-344)

    The handlers are modelled from the parsed request on: rate limiting,
    CORS, security headers, request logging and body parsing run before
    them and are outside.  One request is handled at a time.  [OtterAI]
    instances are objects shared between the session store and the handler
    that uses them, so they live in a heap and are named by reference. *)

(** What the process takes from its runtime: the clock, the random
    source, Buffer's base64, JSON.stringify with indentation, the console's
    rendering of values and errors, the engine's [v > n] for operands that
    are not numbers, and whether NODE_ENV is 'production'. *)
Record Runtime : Type :=
  { now_at : nat -> Z;
    random_text : nat -> string;
    base64 : string -> string;
    stringify : JValue -> string;
    inspect : JValue -> string;
    inspect_error : JsError -> string;
    engine_greater : JValue -> Z -> bool;
    production : bool }.

(** A value of the [sessions] map. *)
Record Session : Type :=
  { otter : nat;                 (* reference to the OtterAI instance *)
    timestamp : Z;
    userId : JValue;
    username : JValue }.

Record Server : Type :=
  { sessions : list (string * Session);   (* new Map(), in insertion order *)
    heap : list Client;                   (* the OtterAI instances *)
    readings : nat;                       (* clock readings taken so far *)
    draws : nat;                          (* random numbers drawn so far *)
    remote_wire : list (Request * Reply);
    remote_inbox : list Reply;
    stdout : list string;
    stderr : list string;
    files : list (string * JValue) }.

Definition SESSION_TIMEOUT : Z := 24 * 60 * 60 * 1000.

Definition Srv (A : Type) : Type := Server -> Outcome A * Server.

Definition srv_ret {A} (a : A) : Srv A := fun s => (Returned a, s).

Definition srv_bind {A B} (m : Srv A) (k : A -> Srv B) : Srv B :=
  fun s => match m s with
           | (Returned a, s') => k a s'
           | (Thrown e, s') => (Thrown e, s')
           end.

Definition srv_throw {A} (e : JsError) : Srv A := fun s => (Thrown e, s).

Definition srv_try {A} (m : Srv A) (handler : JsError -> Srv A) : Srv A :=
  fun s => match m s with
           | (Returned a, s') => (Returned a, s')
           | (Thrown e, s') => handler e s'
           end.

Declare Scope srv_scope.
Delimit Scope srv_scope with srv.
Notation "x <- m ;; k" := (srv_bind m (fun x => k))
  (at level 61, m at next level, right associativity) : srv_scope.
Notation "m ;; k" := (srv_bind m (fun _ => k))
  (at level 61, right associativity) : srv_scope.
Local Open Scope srv_scope.

Definition with_sessions (s : Server) (store : list (string * Session)) : Server :=
  {| sessions := store; heap := heap s; readings := readings s; draws := draws s;
     remote_wire := remote_wire s; remote_inbox := remote_inbox s;
     stdout := stdout s; stderr := stderr s; files := files s |}.

Definition read_sessions : Srv (list (string * Session)) :=
  fun s => (Returned (sessions s), s).

Definition write_sessions (store : list (string * Session)) : Srv unit :=
  fun s => (Returned tt, with_sessions s store).

(** [Date.now()] *)
Definition Date_now (rt : Runtime) : Srv Z :=
  fun s => (Returned (now_at rt (readings s)),
            {| sessions := sessions s; heap := heap s; readings := S (readings s);
               draws := draws s; remote_wire := remote_wire s;
               remote_inbox := remote_inbox s; stdout := stdout s;
               stderr := stderr s; files := files s |}).

(** [Math.random().toString(36).substr(2, 9)] *)
Definition random_token (rt : Runtime) : Srv string :=
  fun s => (Returned (random_text rt (draws s)),
            {| sessions := sessions s; heap := heap s; readings := readings s;
               draws := S (draws s); remote_wire := remote_wire s;
               remote_inbox := remote_inbox s; stdout := stdout s;
               stderr := stderr s; files := files s |}).

(** [console.log(line)] *)
Definition srv_log (line : string) : Srv unit :=
  fun s => (Returned tt,
            {| sessions := sessions s; heap := heap s; readings := readings s;
               draws := draws s; remote_wire := remote_wire s;
               remote_inbox := remote_inbox s; stdout := stdout s ++ [line];
               stderr := stderr s; files := files s |}).

(** [console.error(line)] *)
Definition srv_error (line : string) : Srv unit :=
  fun s => (Returned tt,
            {| sessions := sessions s; heap := heap s; readings := readings s;
               draws := draws s; remote_wire := remote_wire s;
               remote_inbox := remote_inbox s; stdout := stdout s;
               stderr := stderr s ++ [line]; files := files s |}).

(** A conversion or property access that may throw, in a handler. *)
Definition srv_convert {A} (result : option A) (message : string) : Srv A :=
  match result with
  | Some a => srv_ret a
  | None => srv_throw (TypeError message)
  end.

Definition srv_printed (v : JValue) : Srv string :=
  srv_convert (Js.to_string v) not_primitive_message.

Definition srv_prop (v : JValue) (k : string) : Srv JValue :=
  if Js.nullish v
  then srv_throw (TypeError ("Cannot read properties of " ++ Js.type_of_nullish v
                             ++ " (reading '" ++ k ++ "')"))
  else srv_ret (Js.get v k).

(** [new OtterAI()]: a fresh instance on the heap. *)
Definition new_OtterAI : Srv nat :=
  fun s => (Returned (List.length (heap s)),
            {| sessions := sessions s; heap := heap s ++ [new_client];
               readings := readings s; draws := draws s;
               remote_wire := remote_wire s; remote_inbox := remote_inbox s;
               stdout := stdout s; stderr := stderr s; files := files s |}).

Fixpoint put {X} (i : nat) (x : X) (l : list X) : list X :=
  match l, i with
  | [], _ => []
  | _ :: rest, O => x :: rest
  | y :: rest, S j => y :: put j x rest
  end.

(** A method of the instance at [ref], run in the process: the instance
    keeps what the method did to it, also when the method throws; the
    method's console output is the process's. *)
Definition on_instance {A} (ref : nat) (method : Eff A) : Srv A :=
  fun s =>
    let w := {| client := nth ref (heap s) new_client; wire := remote_wire s;
                inbox := remote_inbox s; console := stdout s; disk := files s |} in
    let (out, w') := method w in
    (out,
     {| sessions := sessions s; heap := put ref (client w') (heap s);
        readings := readings s; draws := draws s;
        remote_wire := wire w'; remote_inbox := inbox w';
        stdout := console w'; stderr := stderr s; files := disk w' |}).

(** [instance.userid] *)
Definition instance_userid (ref : nat) : Srv JValue :=
  fun s => (Returned (userid (nth ref (heap s) new_client)), s).

Definition session_error (message : string) : JsError :=
  {| err_name := "Error"; err_message := message |}.

(** [now - sessionData.timestamp > SESSION_TIMEOUT] *)
Definition expired (now : Z) (data : Session) : bool :=
  SESSION_TIMEOUT <? now - timestamp data.

(** [for (const x of xs) body(x)] *)
Fixpoint srv_for_each {X} (body : X -> Srv unit) (xs : list X) : Srv unit :=
  match xs with
  | [] => srv_ret tt
  | x :: rest => body x ;; srv_for_each body rest
  end.

Definition cleanupExpiredSessions (rt : Runtime) : Srv unit :=
  now <- Date_now rt ;;
  entries <- read_sessions ;;
  srv_for_each
    (fun entry : string * Session =>
       let (sessionId, sessionData) := entry in
       if expired now sessionData then
         store <- read_sessions ;;
         write_sessions (Obj.delete store sessionId) ;;
         srv_log ("Cleaned up expired session: " ++ sessionId)
       else srv_ret tt)
    entries.

Definition getOtterInstance (rt : Runtime) (sessionId : string) : Srv nat :=
  store <- read_sessions ;;
  match Obj.get store sessionId with
  | None => srv_throw (session_error "Session not found or expired. Please login again.")
  | Some sessionData =>
      now <- Date_now rt ;;
      if expired now sessionData then
        write_sessions (Obj.delete store sessionId) ;;
        srv_throw (session_error "Session expired. Please login again.")
      else
        now <- Date_now rt ;;
        store <- read_sessions ;;
        write_sessions
          (Obj.set store sessionId
             {| otter := otter sessionData; timestamp := now;
                userId := userId sessionData; username := username sessionData |}) ;;
        srv_ret (otter sessionData)
  end.

Definition is_alphanumeric (c : ascii) : bool :=
  let n := nat_of_ascii c in
  (Nat.leb 48 n && Nat.leb n 57) || (Nat.leb 65 n && Nat.leb n 90)
  || (Nat.leb 97 n && Nat.leb n 122).

(** [s.replace(/[^a-zA-Z0-9]/g, '')] *)
Fixpoint keep_alphanumeric (s : string) : string :=
  match s with
  | EmptyString => EmptyString
  | String c rest =>
      if is_alphanumeric c then String c (keep_alphanumeric rest)
      else keep_alphanumeric rest
  end.

Definition generateSessionId (rt : Runtime) : Srv string :=
  timestamp <- Date_now rt ;;
  random <- random_token rt ;;
  let hash := keep_alphanumeric (base64 rt (Str.of_Z timestamp ++ "_" ++ random)) in
  srv_ret ("sess_" ++ hash).

(** What a handler answers: [res.status(code).json(body)]. *)
Record HttpResponse : Type := { code : Z; body : JValue }.

(** [res.json(body)] *)
Definition json (body : JValue) : HttpResponse := {| code := 200; body := body |}.

(** An envelope as the object it is. *)
Definition envelope_value (envelope : Envelope) : JValue :=
  JObj [("status", JNum (status envelope)); ("data", data envelope)].

(** [v > n] for a number [n]. *)
Definition greater (rt : Runtime) (v : JValue) (n : Z) : bool :=
  match v with
  | JNum z => n <? z
  | JUndefined | JNaN => false
  | JNull => n <? 0
  | JBool b => n <? (if b then 1 else 0)
  | _ => engine_greater rt v n
  end.

(** The own enumerable properties [{ ...v }] copies, in order. *)
Definition spread_props (v : JValue) : list (string * JValue) :=
  match v with
  | JObj props => Obj.entries props
  | JArr items => Js.indexed 0 items
  | JStr s => Js.indexed 0 (map JStr (Str.chars s))
  | _ => []
  end.

(** [error.message || fallback] *)
Definition message_or (error : JsError) (fallback : string) : string :=
  if Str.is_empty (err_message error) then fallback else err_message error.

(** [app.post('/api/auth/login', ...)], from [req.body] on. *)
Definition login_handler (rt : Runtime) (req_body : JValue) : Srv HttpResponse :=
  srv_try
    (username <- (if Js.nullish req_body
                  then srv_throw (TypeError ("Cannot destructure property 'username' of 'req.body' as it is "
                                             ++ Js.type_of_nullish req_body ++ "."))
                  else srv_ret (Js.get req_body "username")) ;;
     let password := Js.get req_body "password" in
     if negb (Js.truthy username) || negb (Js.truthy password) then
       srv_ret {| code := 400;
                  body := JObj [("error", JStr "Validation Error");
                                ("message", JStr "Username and password are required")] |}
     else if greater rt (Js.get username "length") 200
             || greater rt (Js.get password "length") 200 then
       srv_ret {| code := 400;
                  body := JObj [("error", JStr "Validation Error");
                                ("message", JStr "Username or password too long")] |}
     else
       user_text <- srv_printed username ;;
       srv_log ("Authentication attempt for user: " ++ user_text) ;;
       otter <- new_OtterAI ;;
       loginResponse <- on_instance otter (login username password) ;;
       if status loginResponse =? 200 then
         sessionId <- generateSessionId rt ;;
         now <- Date_now rt ;;
         uid <- instance_userid otter ;;
         store <- read_sessions ;;
         write_sessions
           (Obj.set store sessionId
              {| otter := otter; timestamp := now; userId := uid; username := username |}) ;;
         uid <- instance_userid otter ;;
         let user := fold_left (fun o kv => Obj.set o (fst kv) (snd kv))
                               (spread_props (data loginResponse))
                               [("userid", uid)] in
         let response := JObj [("success", JBool true);
                               ("sessionId", JStr sessionId);
                               ("user", JObj user);
                               ("expiresIn", JNum SESSION_TIMEOUT)] in
         user_text <- srv_printed username ;;
         srv_log ("Login successful for user: " ++ user_text ++ ", session: " ++ sessionId) ;;
         srv_ret (json response)
       else
         user_text <- srv_printed username ;;
         srv_log ("Login failed for user: " ++ user_text ++ ": "
                  ++ inspect rt (envelope_value loginResponse)) ;;
         srv_ret {| code := 401;
                    body := JObj [("error", JStr "Authentication Failed");
                                  ("message", JStr "Invalid username or password")] |})
    (fun error =>
       srv_error ("Authentication error: " ++ inspect_error rt error) ;;
       srv_ret {| code := 500;
                  body := JObj [("error", JStr "Authentication Error");
                                ("message",
                                 JStr (if production rt
                                       then "Authentication service unavailable"
                                       else err_message error))] |}).

Definition session_required : HttpResponse :=
  {| code := 401;
     body := JObj [("error", JStr "Session ID required");
                   ("message", JStr "Please provide session-id in headers")] |}.

(** [!sessionId] for the header, a string or undefined. *)
Definition header_given (header : option string) : option string :=
  match header with
  | Some sessionId => if Str.is_empty sessionId then None else Some sessionId
  | None => None
  end.

(** The entry of [speech_ids] made from one speech. *)
Definition speech_entry (speech : JValue) : Srv JValue :=
  id <- srv_prop speech "id" ;;
  srv_ret (JObj [("id", id);
                 ("title", Js.or (Js.get speech "title") (JStr "Untitled"));
                 ("created_at", Js.or (Js.get speech "created_at") JNull);
                 ("duration", Js.or (Js.get speech "duration") (JNum 0));
                 ("source", Js.or (Js.get speech "source") (JStr "owned"))]).

(** [items.map(f)] for a callback that may throw. *)
Fixpoint srv_map {X Y} (f : X -> Srv Y) (items : list X) : Srv (list Y) :=
  match items with
  | [] => srv_ret []
  | x :: rest => y <- f x ;; ys <- srv_map f rest ;; srv_ret (y :: ys)
  end.

(** [app.get('/api/speech-ids', ...)], from the session-id header on. *)
Definition speech_ids_handler (rt : Runtime) (header : option string) : Srv HttpResponse :=
  srv_try
    (match header_given header with
     | None => srv_ret session_required
     | Some sessionId =>
         otter <- getOtterInstance rt sessionId ;;
         srv_log "Fetching all speeches from all sources..." ;;
         allSpeeches <- on_instance otter (getAllSpeechesFromAllSources JUndefined 500) ;;
         srv_log ("Raw response: " ++ stringify rt (envelope_value allSpeeches)) ;;
         if negb (Js.truthy (data allSpeeches))
            || negb (Js.truthy (Js.get (data allSpeeches) "all_speeches")) then
           srv_ret {| code := 500;
                      body := JObj [("error", JStr "Invalid response from Otter.ai");
                                    ("message",
                                     JStr "Expected speeches array not found in response")] |}
         else
           match Js.get (data allSpeeches) "all_speeches" with
           | JArr items =>
               speechIds <- srv_map speech_entry items ;;
               let count := JNum (Z.of_nat (List.length speechIds)) in
               let response :=
                 JObj [("total_count",
                        Js.or (Js.get_opt (Js.get (data allSpeeches) "summary")
                                          "total_count") count);
                       ("speech_ids", JArr speechIds)] in
               srv_log ("Sending response: " ++ stringify rt response) ;;
               srv_ret (json response)
           | _ => srv_throw (TypeError "allSpeeches.data.all_speeches.map is not a function")
           end
     end)
    (fun error =>
       srv_error ("Error in /api/speech-ids: " ++ inspect_error rt error) ;;
       srv_ret {| code := 500;
                  body := JObj [("error", JStr "Failed to get speech IDs");
                                ("message",
                                 JStr (message_or error "Unknown error occurred"))] |}).

(** [app.get('/api/transcript/:speechId', ...)], from the session-id
    header and the route parameter on. *)
Definition transcript_handler (rt : Runtime) (header : option string) (speechId : string)
  : Srv HttpResponse :=
  srv_try
    (match header_given header with
     | None => srv_ret session_required
     | Some sessionId =>
         otter <- getOtterInstance rt sessionId ;;
         if Str.is_empty speechId then
           srv_ret {| code := 400; body := JObj [("error", JStr "Speech ID is required")] |}
         else
           srv_log ("Fetching transcript for speech ID: " ++ speechId) ;;
           envelope <- on_instance otter (getSpeech (JStr speechId)) ;;
           let speech := envelope_value envelope in
           srv_log ("Raw speech response: " ++ stringify rt speech) ;;
           let transcript :=
             JObj [("speech_id", JStr speechId);
                   ("title", Js.or (Js.get speech "title") (JStr "Untitled"));
                   ("duration", Js.or (Js.get speech "duration") (JNum 0));
                   ("created_at", Js.or (Js.get speech "created_at") JNull);
                   ("transcript_text", Js.or (Js.get speech "transcript") (JStr EmptyString));
                   ("speakers", Js.or (Js.get speech "speakers") (JArr []));
                   ("structured_transcript",
                    Js.or (Js.get speech "structured_transcript") JNull)] in
           srv_log ("Sending transcript response: " ++ stringify rt transcript) ;;
           srv_ret (json transcript)
     end)
    (fun error =>
       srv_error ("Error in /api/transcript/" ++ speechId ++ ": " ++ inspect_error rt error) ;;
       srv_ret {| code := 500;
                  body := JObj [("error", JStr "Failed to get transcript");
                                ("message",
                                 JStr (message_or error "Unknown error occurred"))] |}).

(** [app.post('/api/auth/logout', ...)], from the session-id header and
    [req.body] on.  The keys of [sessions] are strings: only a string can
    name a session. *)
Definition logout_handler (rt : Runtime) (header : option string) (req_body : JValue)
  : Srv HttpResponse :=
  srv_try
    (sessionId <- match header_given header with
                  | Some sessionId => srv_ret (JStr sessionId)
                  | None => srv_prop req_body "sessionId"
                  end ;;
     store <- read_sessions ;;
     match sessionId with
     | JStr id =>
         match (if Str.is_empty id then None else Obj.get store id) with
         | Some sessionData =>
             write_sessions (Obj.delete store id) ;;
             user_text <- srv_printed (username sessionData) ;;
             srv_log ("Session logged out: " ++ id ++ " for user: " ++ user_text)
         | None => srv_ret tt
         end
     | _ => srv_ret tt
     end ;;
     srv_ret (json (JObj [("success", JBool true);
                          ("message", JStr "Logged out successfully")])))
    (fun error =>
       srv_error ("Logout error: " ++ inspect_error rt error) ;;
       srv_ret {| code := 500;
                  body := JObj [("error", JStr "Logout Error");
                                ("message", JStr "Failed to logout properly")] |}).

(** ** Vocabulary of the properties of the HTTP front *)

(** The sweep, on the store alone. *)
Fixpoint swept (now : Z) (entries store : list (string * Session)) : list (string * Session) :=
  match entries with
  | [] => store
  | (sessionId, sessionData) :: rest =>
      swept now rest (if expired now sessionData then Obj.delete store sessionId else store)
  end.

(** The run ends with a response whose status code is one of [codes]. *)
Definition answers (codes : list Z) (run : Outcome HttpResponse * Server) : Prop :=
  exists response, fst run = Returned response /\ In (code response) codes.

(** The header names a session of the store that has not expired at the
    next clock reading. *)
Definition live (rt : Runtime) (s : Server) (header : option string) : bool :=
  match header_given header with
  | Some sessionId =>
      match Obj.get (sessions s) sessionId with
      | Some sessionData => negb (expired (now_at rt (readings s)) sessionData)
      | None => false
      end
  | None => false
  end.

Definition untouched_remote (s s' : Server) : Prop :=
  remote_wire s' = remote_wire s /\ remote_inbox s' = remote_inbox s /\
  heap s' = heap s /\ files s' = files s.


(** Between [s] and [s'], every session but [sessionId] and every
    instance but that session's are the same. *)
Definition same_elsewhere (sessionId : string) (s s' : Server) : Prop :=
  (forall other, other <> sessionId ->
                 Obj.get (sessions s') other = Obj.get (sessions s) other) /\
  (forall ref, option_map otter (Obj.get (sessions s) sessionId) <> Some ref ->
               nth ref (heap s') new_client = nth ref (heap s) new_client).

(** Letters and digits only. *)
Definition all_alphanumeric (s : string) : bool :=
  forallb is_alphanumeric (list_ascii_of_string s).

Local Close Scope srv_scope.

(** ** Sample platform and replies *)

(** A platform to run examples on: the parser answers with a fixed
    [PostResponse], every write succeeds. *)
Definition demo_platform : Platform :=
  {| xml_parse := fun _ =>
       inr (JObj [("PostResponse",
                   JObj [("Location", JStr "https://s3/loc");
                         ("Bucket", JStr "speech-upload-prod");
                         ("Key", JStr "k1")])]);
     path_basename := fun p => p;
     write_fault := fun _ => None;
     form_fault := fun _ => None |}.

Definition ok_json (props : list (string * JValue)) : Reply :=
  Answer {| res_status := 200; res_set_cookie := None; res_data := JObj props |}.


Definition unauthorized : Response :=
  {| res_status := 401; res_set_cookie := Some ["sid=zzz"];
     res_data := JObj [("error", JStr "bad credentials")] |}.

Definition first_login : Response :=
  {| res_status := 200; res_set_cookie := Some ["sid=abc; Path=/"];
     res_data := JObj [("userid", JStr "u1")] |}.

(** A second login that succeeds and sets no cookie. *)
Definition second_login : Response :=
  {| res_status := 200; res_set_cookie := None;
     res_data := JObj [("userid", JStr "u2")] |}.

(** A second login that succeeds and sets a cookie of its own. *)
Definition second_login_with_cookie : Response :=
  {| res_status := 200; res_set_cookie := Some ["csrftoken=t2"];
     res_data := JObj [("userid", JStr "u2")] |}.

(** A second login that succeeds and whose only Set-Cookie line clears a
    cookie: it has a name and no value. *)
Definition second_login_clearing : Response :=
  {| res_status := 200; res_set_cookie := Some ["sid=; Max-Age=0"];
     res_data := JObj [("userid", JStr "u2")] |}.

(** A 200 answer to a login whose body has no userid. *)
Definition login_without_userid : Response :=
  {| res_status := 200; res_set_cookie := Some ["sid=abc"];
     res_data := JObj [("email", JStr "a@b.c")] |}.

(** An instance that has logged in, facing the given replies. *)
Definition signed_in (replies : list Reply) : World :=
  {| client := {| userid := JStr "u1"; cookies := [("csrftoken", "tok")];
                  session_cookie := Some "csrftoken=tok" |};
     wire := []; inbox := replies; console := []; disk := [] |}.

Definition export_ok : Response :=
  {| res_status := 200; res_set_cookie := None; res_data := JStr "PK..." |}.

Definition not_found : Response :=
  {| res_status := 404; res_set_cookie := None;
     res_data := JObj [("message", JStr "no such speech")] |}.

Definition server_error : Response :=
  {| res_status := 500; res_set_cookie := None; res_data := JStr "oops" |}.

Definition upload_params : Response :=
  {| res_status := 200; res_set_cookie := None;
     res_data := JObj [("data", JObj [("key", JStr "uploads/k");
                                      ("policy", JStr "p0");
                                      ("success_action_status", JNum 201);
                                      ("form_action", JStr "https://s3/")])] |}.

(** Upload parameters one of which is an array. *)
Definition upload_params_with_array : Response :=
  {| res_status := 200; res_set_cookie := None;
     res_data := JObj [("data", JObj [("key", JArr [JStr "a"]);
                                      ("success_action_status", JNum 201)])] |}.

(** A platform on which every write fails once the file is open: the
    file is left empty. *)
Definition full_disk_platform : Platform :=
  {| xml_parse := xml_parse demo_platform;
     path_basename := path_basename demo_platform;
     write_fault := fun _ => Some ("ENOSPC: no space left on device, write",
                                   Some (JStr EmptyString));
     form_fault := fun _ => None |}.

Definition preflight_denied : Response :=
  {| res_status := 403; res_set_cookie := None; res_data := JStr "Forbidden" |}.

Definition preflight_ok : Response :=
  {| res_status := 200; res_set_cookie := None; res_data := JStr "" |}.

Definition stored : Response :=
  {| res_status := 201; res_set_cookie := None; res_data := JStr "<PostResponse/>" |}.

Definition two_speeches : Reply :=
  ok_json [("speeches", JArr [JObj [("otid", JStr "s1")]; JObj [("otid", JStr "s2")]])].

Definition one_speech : Reply :=
  ok_json [("speeches", JArr [JObj [("otid", JStr "s3")]])].

Definition no_speech : Reply := ok_json [("speeches", JArr [])].

(** A 200 answer to a login with a null body. *)
Definition login_null_body : Response :=
  {| res_status := 200; res_set_cookie := Some ["sid=abc"]; res_data := JNull |}.

(** A string of one character outside the Basic Multilingual Plane: a
    high surrogate followed by a low one. *)
Definition astral_sample : string :=
  String (ascii_of_nat 216) (String (ascii_of_nat 220) EmptyString).

(** An answer whose speeches are not a list. *)
Definition odd_speeches : Reply := ok_json [("speeches", JNum 5)].

Definition two_cookie_lines : list CookieLine :=
  [{| line_name := "sid"; line_value := "abc"; line_attributes := "; Path=/; HttpOnly" |};
   {| line_name := "csrftoken"; line_value := "tok"; line_attributes := EmptyString |}].

(** A runtime whose clock starts at 100 000 000 ms and advances by [step]
    at each reading; its encoder is a stand-in that pads with '='. *)
Definition demo_runtime (step : Z) : Runtime :=
  {| now_at := fun n => 100000000 + step * Z.of_nat n;
     random_text := fun _ => "k3j9x0q2m";
     base64 := fun text => text ++ "==";
     stringify := fun _ => "{}";
     inspect := fun _ => "{}";
     inspect_error := err_message;
     engine_greater := fun _ _ => false;
     production := false |}.

Definition old_session : Session :=
  {| otter := 0; timestamp := 0; userId := JStr "u1"; username := JStr "ann" |}.

Definition new_session : Session :=
  {| otter := 1; timestamp := 99999000; userId := JStr "u2"; username := JStr "bob" |}.

(** A server with two sessions, the first older than the timeout, facing
    the given replies. *)
Definition demo_server (replies : list Reply) : Server :=
  {| sessions := [("sess_old", old_session); ("sess_new", new_session)];
     heap := [client (signed_in []);
              {| userid := JStr "u2"; cookies := [("csrftoken", "tok2")];
                 session_cookie := Some "csrftoken=tok2" |}];
     readings := 0; draws := 0; remote_wire := []; remote_inbox := replies;
     stdout := []; stderr := []; files := [] |}.

Definition credentials : JValue :=
  JObj [("username", JStr "bob"); ("password", JStr "secret")].

(** * Properties *)

(** Unfolding the monad and the one-call plumbing. *)
Ltac run :=
  cbv [call login getUser getSpeakers getSpeeches getSpeech querySpeech
       moveToTrashBin createSpeaker getNotificationSettings listGroups getFolders
       speechStart stopSpeech session_get session_call require_userid rethrow
       read_client write_client exchange bind ret throw try_catch] in *.

(** [name = null] changes nothing for [name || speechId]. *)
Lemma or_default_null (name speechId : JValue) :
  Js.or (Js.default name JNull) speechId = Js.or name speechId.
Proof. destruct name; reflexivity. Qed.

(** What prints still prints once its default is applied. *)
Lemma default_printable (v d : JValue) (text shown : string) :
  Js.to_string v = Some text -> Js.to_string d = Some shown ->
  exists text', Js.to_string (Js.default v d) = Some text'.
Proof. intros Hv Hd. destruct v; simpl; eauto. Qed.

Lemma default_idem (v d : JValue) : Js.default (Js.default v d) d = Js.default v d.
Proof. destruct v; try reflexivity. destruct d; reflexivity. Qed.

(** Appending the fields to the form computes: it leaves the world
    alone. *)
Lemma append_all_pure (pf : Platform) (fields : list (string * JValue)) (w : World) :
  snd (append_all pf fields w) = w.
Proof.
  induction fields as [| [key value] rest IH]; simpl; [reflexivity |].
  destruct (append_fault pf value); [reflexivity | assumption].
Qed.

(** ** Property lists *)

Section ObjFacts.

Context {V : Type}.
Implicit Types (o : list (string * V)) (k : string) (v : V).

Lemma insert_index_in n key l x :
  In x (Obj.insert_index n key l) <-> x = (n, key) \/ In x l.
Proof.
  induction l as [| [m k'] rest IH]; simpl.
  - intuition.
  - destruct (n <=? m)%N; simpl; rewrite ?IH; intuition.
Qed.

Lemma index_keys_in ks key :
  In key (map snd (Obj.index_keys ks)) <->
  In key ks /\ Obj.array_index key <> None.
Proof.
  induction ks as [| k rest IH]; simpl.
  - intuition.
  - destruct (Obj.array_index k) as [n |] eqn:Hk.
    + rewrite in_map_iff. split.
      * intros [[m k'] [Hsnd Hin]]. simpl in Hsnd. subst k'.
        apply insert_index_in in Hin. destruct Hin as [Heq | Hin].
        -- inversion Heq; subst. split; [now left | congruence].
        -- assert (In key (map snd (Obj.index_keys rest))) as Hin'
             by (apply in_map_iff; exists (m, key); auto).
           apply IH in Hin'. intuition.
      * intros [[Heq | Hin] Hidx].
        -- subst k. exists (n, key). split; [reflexivity |].
           apply insert_index_in. now left.
        -- assert (In key (map snd (Obj.index_keys rest))) as Hin'
             by (apply IH; auto).
           apply in_map_iff in Hin'. destruct Hin' as [[m k'] [Hsnd Hin']].
           simpl in Hsnd; subst k'. exists (m, key). split; [reflexivity |].
           apply insert_index_in. now right.
    + rewrite IH. split.
      * intuition.
      * intros [[Heq | Hin] Hidx]; [subst; congruence | auto].
Qed.

(** [Object.keys] lists exactly the names the object binds. *)
Lemma keys_in o k : In k (Obj.keys o) <-> In k (map fst o).
Proof.
  unfold Obj.keys, Obj.named_keys.
  rewrite in_app_iff, index_keys_in, filter_In.
  destruct (Obj.array_index k); intuition congruence.
Qed.

Lemma keys_nil o : Obj.keys o = [] <-> o = [].
Proof.
  split; [| intros ->; reflexivity].
  destruct o as [| [k v] rest]; [reflexivity |]. intros Hkeys.
  assert (In k (Obj.keys ((k, v) :: rest))) as Hin
    by (apply keys_in; now left).
  rewrite Hkeys in Hin. destruct Hin.
Qed.

Lemma get_in o k : In k (map fst o) <-> Obj.get o k <> None.
Proof.
  induction o as [| [k' v'] rest IH]; simpl.
  - intuition.
  - destruct (String.eqb_spec k' k); [subst; intuition congruence |].
    rewrite <- IH. intuition.
Qed.

Lemma get_replace_same o k v :
  Obj.get o k <> None -> Obj.get (Obj.replace o k v) k = Some v.
Proof.
  induction o as [| [k' v'] rest IH]; simpl; [congruence |].
  destruct (String.eqb_spec k' k); simpl.
  - subst. rewrite String.eqb_refl. reflexivity.
  - destruct (String.eqb_spec k' k); [contradiction | assumption].
Qed.

Lemma get_app_miss o k v :
  Obj.get o k = None -> Obj.get (o ++ [(k, v)])%list k = Some v.
Proof.
  induction o as [| [k' v'] rest IH]; simpl.
  - rewrite String.eqb_refl. reflexivity.
  - destruct (String.eqb k' k); [congruence | assumption].
Qed.

(** Reading back what was just assigned. *)
Lemma get_set_same o k v : Obj.get (Obj.set o k v) k = Some v.
Proof.
  unfold Obj.set, Obj.has. destruct (Obj.get o k) eqn:Hget.
  - apply get_replace_same. congruence.
  - apply get_app_miss. assumption.
Qed.

Lemma get_delete_other o k k' :
  k' <> k -> Obj.get (Obj.delete o k) k' = Obj.get o k'.
Proof.
  intros Hneq. induction o as [| [k0 v0] rest IH]; simpl; [reflexivity |].
  destruct (String.eqb_spec k0 k); simpl.
  - subst. destruct (String.eqb_spec k k'); [congruence | assumption].
  - destruct (String.eqb k0 k'); [reflexivity | assumption].
Qed.

(** A deleted name is no longer bound. *)
Lemma delete_not_in o k : ~ In k (map fst (Obj.delete o k)).
Proof.
  unfold Obj.delete. rewrite in_map_iff. intros [[k' v'] [Hfst Hin]].
  simpl in Hfst; subst k'. apply filter_In in Hin. destruct Hin as [_ Hkeep].
  simpl in Hkeep. rewrite String.eqb_refl in Hkeep. discriminate.
Qed.

End ObjFacts.

(** ** What a computation puts on the wire *)

Lemma exchanges_since_app (w w' : World) (new : list (Request * Reply)) :
  wire w' = (wire w ++ new)%list -> exchanges_since w w' = new.
Proof.
  intros H. unfold exchanges_since. rewrite H.
  rewrite skipn_app, skipn_all, Nat.sub_diag. reflexivity.
Qed.

Section Sends.

Context {A B : Type}.
Variable P : Client -> Request * Reply -> Prop.

Lemma sends_ret (a : A) : sends P (ret a).
Proof.
  intros w; split; [reflexivity |].
  exists []; rewrite app_nil_r; split; [reflexivity | constructor].
Qed.

Lemma sends_throw (e : JsError) : sends P (@throw A e).
Proof.
  intros w; split; [reflexivity |].
  exists []; rewrite app_nil_r; split; [reflexivity | constructor].
Qed.

(** Sequencing, with what is known of the value handed over. *)
Lemma sends_bind_post (Q : A -> Prop) (m : Eff A) (k : A -> Eff B) :
  sends P m ->
  (forall w a w', m w = (Returned a, w') -> Q a) ->
  (forall a, Q a -> sends P (k a)) ->
  sends P (bind m k).
Proof.
  intros Hm Hpost Hk w. unfold bind.
  destruct (Hm w) as [Hclient [new [Hwire Hnew]]].
  destruct (m w) as [[a | e] w1] eqn:Hrun; simpl in *.
  - destruct (Hk a (Hpost _ _ _ Hrun) w1) as [Hclient' [new' [Hwire' Hnew']]].
    split; [congruence |].
    exists (new ++ new')%list. rewrite Hwire', Hwire, app_assoc. split; [reflexivity |].
    apply Forall_app; split; [assumption |]. rewrite <- Hclient. assumption.
  - split; [assumption |]. exists new; auto.
Qed.

Lemma sends_bind (m : Eff A) (k : A -> Eff B) :
  sends P m -> (forall a, sends P (k a)) -> sends P (bind m k).
Proof.
  intros Hm Hk. apply (sends_bind_post (fun _ => True)); auto.
Qed.

Lemma sends_try_catch (m : Eff A) (handler : JsError -> Eff A) :
  sends P m -> (forall e, sends P (handler e)) -> sends P (try_catch m handler).
Proof.
  intros Hm Hh w. unfold try_catch.
  destruct (Hm w) as [Hclient [new [Hwire Hnew]]].
  destruct (m w) as [[a | e] w1]; simpl in *.
  - split; [assumption |]. exists new; auto.
  - destruct (Hh e w1) as [Hclient' [new' [Hwire' Hnew']]].
    split; [congruence |].
    exists (new ++ new')%list. rewrite Hwire', Hwire, app_assoc. split; [reflexivity |].
    apply Forall_app; split; [assumption |]. rewrite <- Hclient. assumption.
Qed.

Lemma sends_convert (result : option A) (message : string) :
  sends P (convert result message).
Proof. destruct result; [apply sends_ret | apply sends_throw]. Qed.

End Sends.

Section SendsEffects.

Variable P : Client -> Request * Reply -> Prop.

Lemma sends_read_client : sends P read_client.
Proof.
  intros w; split; [reflexivity |].
  exists []; rewrite app_nil_r; split; [reflexivity | constructor].
Qed.

Lemma sends_console_log (line : string) : sends P (console_log line).
Proof.
  intros w; split; [reflexivity |].
  exists []; simpl; rewrite app_nil_r; split; [reflexivity | constructor].
Qed.

Lemma sends_write_file (pf : Platform) (filename : string) (contents : JValue) :
  sends P (write_file pf filename contents).
Proof.
  intros w; unfold write_file.
  destruct (write_fault pf filename) as [[message [partial |]] |]; simpl;
    (split; [reflexivity |]);
    exists []; rewrite app_nil_r; (split; [reflexivity | constructor]).
Qed.

Lemma sends_append_all (pf : Platform) (fields : list (string * JValue)) :
  sends P (append_all pf fields).
Proof.
  intros w. rewrite append_all_pure. split; [reflexivity |].
  exists []. rewrite app_nil_r. split; [reflexivity | constructor].
Qed.

Lemma sends_prop (v : JValue) (k : string) : sends P (prop v k).
Proof. unfold prop. destruct (Js.nullish v); [apply sends_throw | apply sends_ret]. Qed.

Lemma sends_printed (v : JValue) : sends P (printed v).
Proof. apply sends_convert. Qed.

Lemma sends_require_userid : sends P require_userid.
Proof.
  unfold require_userid. apply sends_bind; [apply sends_read_client |].
  intros c. destruct (_isUseridInvalid c); [apply sends_throw | apply sends_ret].
Qed.

Lemma sends_rethrow {A} (what : string) (error : JsError) :
  sends P (@rethrow A what error).
Proof. apply sends_throw. Qed.

Lemma sends_exchange (req : Request) :
  (forall c reply, P c (req, reply)) -> sends P (exchange req).
Proof.
  intros HP w. unfold exchange.
  destruct (inbox w) as [| [r | message] rest]; simpl;
    (split; [reflexivity |]); eexists; (split; [reflexivity |]);
    repeat constructor; apply HP.
Qed.

Lemma sends_session_call (method : Method) (url : string)
    (params headers : list (string * JValue)) (auth : option (JValue * JValue))
    (body : Body) (response_type : option string) :
  (forall c reply,
      P c ({| req_session := true; req_method := method; req_url := url;
              req_params := params; req_headers := headers;
              req_cookie := session_cookie c; req_auth := auth;
              req_body := body; req_response_type := response_type |}, reply)) ->
  sends P (session_call method url params headers auth body response_type).
Proof.
  intros HP w. unfold session_call, bind, read_client, exchange.
  destruct (inbox w) as [| [r | message] rest]; simpl;
    (split; [reflexivity |]); eexists; (split; [reflexivity |]);
    repeat constructor; apply HP.
Qed.

Lemma sends_for_each {S X} (body : S -> X -> Eff S) (xs : list X) :
  (forall s x, sends P (body s x)) -> forall s, sends P (for_each body xs s).
Proof.
  intros Hbody. induction xs as [| x rest IH]; intros s; simpl.
  - apply sends_ret.
  - apply sends_bind; [apply Hbody | assumption].
Qed.

End SendsEffects.

(** *** Every method but [login] leaves the instance alone *)

Ltac sends_step :=
  match goal with
  | |- sends _ (ret _) => apply sends_ret
  | |- sends _ (throw _) => apply sends_throw
  | |- sends _ (rethrow _ _) => apply sends_rethrow
  | |- sends _ (rethrow _) => intro
  | |- sends _ (convert _ _) => apply sends_convert
  | |- sends _ (printed _) => apply sends_printed
  | |- sends _ (prop _ _) => apply sends_prop
  | |- sends _ read_client => apply sends_read_client
  | |- sends _ require_userid => apply sends_require_userid
  | |- sends _ (console_log _) => apply sends_console_log
  | |- sends _ (write_file _ _ _) => apply sends_write_file
  | |- sends _ (append_all _ _) => apply sends_append_all
  | |- sends _ (session_get _ _) => unfold session_get
  | |- sends _ (session_call _ _ _ _ _ _ _) => apply sends_session_call
  | |- sends _ (exchange _) => apply sends_exchange
  | |- sends _ (for_each _ _ _) => apply sends_for_each
  | |- sends _ (bind _ _) => apply sends_bind
  | |- sends _ (try_catch _ _) => apply sends_try_catch
  | |- sends _ (if ?b then _ else _) => destruct b
  | |- sends _ (match ?x with _ => _ end) => destruct x
  | |- forall _, _ => intro
  end.

Section AttachesCookie.

Variable pf : Platform.

Local Ltac cookie_tac := repeat sends_step; try reflexivity.

Lemma getSpeeches_attaches folder pageSize source :
  sends attaches_cookie (getSpeeches folder pageSize source).
Proof. unfold getSpeeches. cookie_tac. Qed.

Lemma getAllSpeeches_attaches folder source maxSpeeches :
  sends attaches_cookie (getAllSpeeches folder source maxSpeeches).
Proof.
  unfold getAllSpeeches. cbv zeta.
  repeat first [apply getSpeeches_attaches | sends_step]; reflexivity.
Qed.

Lemma collect_source_attaches folder maxPerSource allSpeeches source :
  sends attaches_cookie (collect_source folder maxPerSource allSpeeches source).
Proof.
  unfold collect_source. cbv zeta.
  repeat first [apply getAllSpeeches_attaches | sends_step]; reflexivity.
Qed.

Lemma form_fields_attaches paramsData :
  sends attaches_cookie (form_fields paramsData).
Proof. unfold form_fields. cookie_tac. Qed.

(** Whatever the method, short of a login: the instance is unchanged and
    each request it sends carries the session's Cookie header. *)
Lemma call_attaches (op : Op) :
  is_login op = false ->
  sends attaches_cookie (call pf op).
Proof.
  intros Hop. destruct op; simpl; try discriminate Hop;
    cbv [getUser getSpeakers getAllSpeechesFromAllSources aggregate_result
         getSpeech querySpeech uploadSpeech downloadSpeech moveToTrashBin createSpeaker
         getNotificationSettings listGroups getFolders speechStart stopSpeech];
    cbv zeta;
    repeat first [apply getSpeeches_attaches | apply getAllSpeeches_attaches
                 | apply collect_source_attaches | apply form_fields_attaches
                 | sends_step];
    reflexivity.
Qed.

Lemma caller_attaches (ops : list Op) :
  existsb is_login ops = false ->
  sends attaches_cookie (caller pf ops).
Proof.
  induction ops as [| op rest IH]; simpl; intros Hops.
  - apply sends_ret.
  - apply orb_false_elim in Hops. destruct Hops as [Hop Hrest].
    apply sends_bind; [| intros _; auto].
    apply sends_try_catch; [| intros _; apply sends_ret].
    apply sends_bind; [apply call_attaches; assumption | intros _; apply sends_ret].
Qed.

End AttachesCookie.

(** ** Identity gate *)

Lemma gate_closed (pf : Platform) (op : Op) (w : World) :
  identity_gated op = true ->
  _isUseridInvalid (client w) = true ->
  call pf op w = (Thrown (OtterAIException "userid is invalid"), w).
Proof.
  intros Hgated Hinvalid.
  destruct op; simpl in Hgated; try discriminate; simpl;
    cbv [getSpeakers getSpeeches getAllSpeeches getAllSpeechesFromAllSources
         getSpeech uploadSpeech downloadSpeech moveToTrashBin createSpeaker
         listGroups getFolders];
    unfold bind at 1; unfold require_userid, bind, read_client;
    rewrite Hinvalid; reflexivity.
Qed.

(** C1.  On a client whose userid is null (or absent, or any other falsy
    value: no successful login has set it), each of the eleven
    identity-gated methods throws the domain error 'userid is invalid' and
    leaves the world as it was: nothing is sent, nothing is logged. *)
Theorem gated_call_without_userid (pf : Platform) (op : Op) (w : World) :
  identity_gated op = true ->
  _isUseridInvalid (client w) = true ->
  call pf op w = (Thrown (OtterAIException "userid is invalid"), w).
Proof. exact (gate_closed pf op w). Qed.

Lemma gated_call_without_userid_witness :
  identity_gated (UploadSpeech "a.mp4" (JStr "audio/mp4")) = true /\
  _isUseridInvalid (client (fresh_world [])) = true /\
  call demo_platform (UploadSpeech "a.mp4" (JStr "audio/mp4")) (fresh_world [])
  = (Thrown (OtterAIException "userid is invalid"), fresh_world []).
Proof.
  split; [reflexivity | split; [reflexivity |]].
  apply (gated_call_without_userid demo_platform
           (UploadSpeech "a.mp4" (JStr "audio/mp4")) (fresh_world []));
    reflexivity.
Defined.

(** ** Login *)

(** C8.  When the remote answers a login with a status other than 200,
    [login] returns that answer's envelope unchanged and the instance keeps
    the userid, the cookie store and the session's Cookie header it had. *)
Theorem login_rejected (username password : JValue) (w : World)
    (r : Response) (rest : list Reply) :
  inbox w = Answer r :: rest ->
  res_status r <> 200 ->
  fst (login username password w)
  = Returned {| status := res_status r; data := res_data r |} /\
  client (snd (login username password w)) = client w.
Proof.
  intros Hinbox Hstatus.
  apply Z.eqb_neq in Hstatus.
  run. rewrite Hinbox. simpl. rewrite Hstatus. simpl.
  split; reflexivity.
Qed.

Lemma login_rejected_witness :
  fst (login (JStr "u") (JStr "p") (fresh_world [Answer unauthorized]))
  = Returned {| status := 401; data := JObj [("error", JStr "bad credentials")] |} /\
  client (snd (login (JStr "u") (JStr "p") (fresh_world [Answer unauthorized])))
  = new_client.
Proof.
  apply (login_rejected (JStr "u") (JStr "p") (fresh_world [Answer unauthorized])
           unauthorized []).
  - reflexivity.
  - simpl. lia.
Defined.

(** What a login answered with 200 does to the instance, for a body that
    is neither null nor undefined. *)
Lemma login_accepted (username password : JValue) (w : World)
    (r : Response) (rest : list Reply) :
  inbox w = Answer r :: rest ->
  res_status r = 200 ->
  Js.nullish (res_data r) = false ->
  fst (login username password w)
  = Returned {| status := 200; data := res_data r |} /\
  userid (client (snd (login username password w))) = Js.get (res_data r) "userid" /\
  cookies (client (snd (login username password w))) = _extractCookies r /\
  session_cookie (client (snd (login username password w)))
  = match Obj.keys (_extractCookies r) with
    | [] => session_cookie (client w)
    | _ :: _ => Some (cookie_string (_extractCookies r))
    end.
Proof.
  intros Hinbox Hstatus Hbody.
  run. rewrite Hinbox. simpl. rewrite Hstatus. simpl.
  unfold prop. rewrite Hbody.
  cbv [ret _setCookieHeader bind read_client write_client]. simpl.
  destruct (Obj.keys (_extractCookies r)) eqn:Hkeys; simpl.
  - unfold _handleResponse; simpl. rewrite Hstatus. auto.
  - unfold _handleResponse; simpl. rewrite Hstatus. auto.
Qed.

(** C3, as stated, fails.  The first login sets the cookie sid=abc; the
    second login succeeds and sets none; the request sent afterwards still
    carries sid=abc, because [_setCookieHeader] rewrites the session's
    Cookie header only when the new store is not empty. *)
Lemma second_login_without_cookies_keeps_header :
  let w0 := fresh_world [Answer first_login; Answer second_login; ok_json []] in
  let w1 := snd (login (JStr "a") (JStr "pw") w0) in
  let w2 := snd (login (JStr "a") (JStr "pw") w1) in
  fst (login (JStr "a") (JStr "pw") w0)
  = Returned {| status := 200; data := JObj [("userid", JStr "u1")] |} /\
  fst (login (JStr "a") (JStr "pw") w1)
  = Returned {| status := 200; data := JObj [("userid", JStr "u2")] |} /\
  _extractCookies first_login = [("sid", "abc")] /\
  _extractCookies second_login = [] /\
  userid (client w2) = JStr "u2" /\
  cookies (client w2) = [] /\
  map (fun x => req_cookie (fst x)) (exchanges_since w2 (snd (getUser w2)))
  = [Some "sid=abc"].
Proof. vm_compute. repeat split. Qed.

(** The same happens when the second login does send a Set-Cookie line,
    but one from which no cookie is parsed: 'sid=; Max-Age=0' has a name
    and an empty value, and [_extractCookies] keeps a line only when both
    are non-empty. *)
Example second_login_clearing_cookie_keeps_header :
  let w0 := fresh_world [Answer first_login; Answer second_login_clearing; ok_json []] in
  let w1 := snd (login (JStr "a") (JStr "pw") w0) in
  let w2 := snd (login (JStr "a") (JStr "pw") w1) in
  _extractCookies second_login_clearing = [] /\
  cookies (client w2) = [] /\
  map (fun x => req_cookie (fst x)) (exchanges_since w2 (snd (getUser w2)))
  = [Some "sid=abc"].
Proof. vm_compute. repeat split. Qed.

(** C3, amended.  A second login answered with 200 (and a body that is
    not null) replaces the userid and the cookie store by what its own
    answer carries, whatever the first login left: the store becomes the
    one [_extractCookies] builds from the answer.  When that store is not
    empty, every request the session sends afterwards (until another
    login) carries the Cookie header built from the second login's
    cookies alone.  When it is empty (no Set-Cookie header, or no line
    that yields a cookie), the session's Cookie header stays as the first
    login left it. *)
Theorem second_login_replaces (pf : Platform) (u1 p1 u2 p2 : JValue) (w0 : World)
    (r2 : Response) (rest : list Reply) :
  let w1 := snd (login u1 p1 w0) in
  let w2 := snd (login u2 p2 w1) in
  inbox w1 = Answer r2 :: rest ->
  res_status r2 = 200 ->
  Js.nullish (res_data r2) = false ->
  userid (client w2) = Js.get (res_data r2) "userid" /\
  cookies (client w2) = _extractCookies r2 /\
  (_extractCookies r2 <> [] ->
   forall ops x,
     existsb is_login ops = false ->
     In x (exchanges_since w2 (snd (caller pf ops w2))) ->
     req_session (fst x) = true ->
     req_cookie (fst x) = Some (cookie_string (_extractCookies r2))) /\
  (_extractCookies r2 = [] ->
   session_cookie (client w2) = session_cookie (client w1)).
Proof.
  intros w1 w2 Hinbox Hstatus Hbody.
  destruct (login_accepted u2 p2 w1 r2 rest Hinbox Hstatus Hbody)
    as [_ [Huserid [Hjar Hheader]]].
  fold w2 in Huserid, Hjar, Hheader.
  split; [assumption |]. split; [assumption |]. split.
  - intros Hsome ops x Hops Hin Hsession.
    destruct (Obj.keys (_extractCookies r2)) eqn:Hkeys;
      [apply keys_nil in Hkeys; contradiction |].
    destruct (caller_attaches pf ops Hops w2) as [_ [new [Hwire Hnew]]].
    rewrite (exchanges_since_app _ _ _ Hwire) in Hin.
    rewrite Forall_forall in Hnew. specialize (Hnew x Hin).
    unfold attaches_cookie in Hnew. rewrite Hsession in Hnew. congruence.
  - intros Hnone. rewrite Hnone in Hheader. exact Hheader.
Qed.

Lemma second_login_replaces_witness :
  let w0 := fresh_world [Answer first_login; Answer second_login_with_cookie; ok_json []] in
  let w1 := snd (login (JStr "a") (JStr "pw") w0) in
  let w2 := snd (login (JStr "a") (JStr "pw") w1) in
  userid (client w2) = JStr "u2" /\
  cookies (client w2) = [("csrftoken", "t2")] /\
  map (fun x => req_cookie (fst x))
      (exchanges_since w2 (snd (caller demo_platform [GetUser] w2)))
  = [Some "csrftoken=t2"].
Proof.
  pose (w0 := fresh_world [Answer first_login; Answer second_login_with_cookie; ok_json []]).
  destruct (second_login_replaces demo_platform (JStr "a") (JStr "pw") (JStr "a") (JStr "pw")
              w0 second_login_with_cookie [ok_json []])
    as [Huserid [Hjar _]]; [reflexivity | reflexivity | reflexivity |].
  split; [exact Huserid |]. split; [exact Hjar |]. reflexivity.
Defined.

(** C10, as stated, fails.  An instance signed in as u1 logs in again and
    is answered 200 with the body null, which has no userid field.  The
    login does not return the 200 envelope: it throws; the userid is not
    made absent: it stays u1; and the gated call that follows goes
    through. *)
Lemma login_null_body_keeps_identity :
  let w := signed_in [Answer login_null_body; ok_json [("speakers", JArr [])]] in
  let run := login (JStr "a") (JStr "pw") w in
  res_status login_null_body = 200 /\
  Js.get_opt (res_data login_null_body) "userid" = JUndefined /\
  fst run = Thrown (OtterAIException
                      "Login failed: Cannot read properties of null (reading 'userid')") /\
  userid (client (snd run)) = JStr "u1" /\
  fst (call demo_platform GetSpeakers (snd run))
  = Returned {| status := 200; data := JObj [("speakers", JArr [])] |}.
Proof. vm_compute. repeat split. Qed.

(** C10, amended.  A login answered with 200 whose body is neither null
    nor undefined (an object, or any other value) and has no userid to
    read returns the 200 envelope and leaves the instance with an
    undefined userid: after it, and after any run of methods that is not
    a login, every identity-gated method still throws 'userid is
    invalid'. *)
Theorem login_without_userid_field (pf : Platform) (username password : JValue)
    (w : World) (r : Response) (rest : list Reply) :
  inbox w = Answer r :: rest ->
  res_status r = 200 ->
  Js.nullish (res_data r) = false ->
  Js.get (res_data r) "userid" = JUndefined ->
  fst (login username password w) = Returned {| status := 200; data := res_data r |} /\
  userid (client (snd (login username password w))) = JUndefined /\
  forall ops op,
    existsb is_login ops = false ->
    identity_gated op = true ->
    call pf op (snd (caller pf ops (snd (login username password w))))
    = (Thrown (OtterAIException "userid is invalid"),
       snd (caller pf ops (snd (login username password w)))).
Proof.
  intros Hinbox Hstatus Hbody Hfield.
  destruct (login_accepted username password w r rest Hinbox Hstatus Hbody)
    as [Hout [Huserid _]].
  rewrite Hfield in Huserid.
  split; [assumption |]. split; [assumption |].
  intros ops op Hops Hgated.
  apply gate_closed; [assumption |].
  destruct (caller_attaches pf ops Hops (snd (login username password w))) as [Hclient _].
  unfold _isUseridInvalid. rewrite Hclient, Huserid. reflexivity.
Qed.

Lemma login_without_userid_field_witness :
  let w := fresh_world [Answer login_without_userid; ok_json []] in
  fst (login (JStr "a") (JStr "pw") w)
  = Returned {| status := 200; data := JObj [("email", JStr "a@b.c")] |} /\
  call demo_platform GetSpeakers
       (snd (caller demo_platform [GetUser] (snd (login (JStr "a") (JStr "pw") w))))
  = (Thrown (OtterAIException "userid is invalid"),
     snd (caller demo_platform [GetUser] (snd (login (JStr "a") (JStr "pw") w)))).
Proof.
  pose (w := fresh_world [Answer login_without_userid; ok_json []]).
  destruct (login_without_userid_field demo_platform (JStr "a") (JStr "pw") w
              login_without_userid [ok_json []])
    as [Hout [_ Hgate]]; [reflexivity | reflexivity | reflexivity | reflexivity |].
  split; [exact Hout |].
  apply (Hgate [GetUser] GetSpeakers); reflexivity.
Defined.

(** On a new instance too: with a null body there is nothing to read the
    userid from; the login throws and the instance is as it was. *)
Example login_null_body_throws :
  let run := login (JStr "a") (JStr "pw") (fresh_world [Answer login_null_body]) in
  fst run = Thrown (OtterAIException
                      "Login failed: Cannot read properties of null (reading 'userid')") /\
  client (snd run) = new_client.
Proof. split; reflexivity. Qed.

(** ** Download *)

Section Download.

Variable pf : Platform.

(** A call of [downloadSpeech] returns as soon as the gate passes, the
    remote answers 200, the name prints and the write goes through. *)
Lemma download_returns (speechId name : JValue) (fileFormat : string)
    (w : World) (r : Response) (rest : list Reply) (stem : string) :
  _isUseridInvalid (client w) = false ->
  inbox w = Answer r :: rest ->
  res_status r = 200 ->
  Js.to_string (Js.or name speechId) = Some stem ->
  write_fault pf (filename_of stem fileFormat) = None ->
  fst (downloadSpeech pf speechId name fileFormat w)
  = Returned {| status := 200;
                data := JObj [("filename", JStr (filename_of stem fileFormat))] |} /\
  disk (snd (downloadSpeech pf speechId name fileFormat w))
  = (disk w ++ [(filename_of stem fileFormat, res_data r)])%list.
Proof.
  intros Hgate Hinbox Hstatus Hstem Hwrite.
  unfold downloadSpeech. run. rewrite or_default_null, Hgate, Hinbox. simpl.
  unfold Js.concat. rewrite Hstem. simpl. rewrite Hstatus. simpl.
  unfold write_file. fold (filename_of stem fileFormat). rewrite Hwrite. simpl.
  unfold _handleResponse. simpl. rewrite Hstatus. split; reflexivity.
Qed.

(** C9, amended.  Whenever [downloadSpeech] returns, the stem
    [name || speechId] (the name when it is truthy, the speech id
    otherwise) printed, a dot and the extension, "zip" when the format
    holds a comma and the format itself otherwise, make the file name; the
    bytes of the remote's answer are written under it and the 200 envelope
    reports it. *)
Theorem download_filename (speechId name : JValue) (fileFormat : string)
    (w w' : World) (env : Envelope) :
  downloadSpeech pf speechId name fileFormat w = (Returned env, w') ->
  exists stem r rest,
    inbox w = Answer r :: rest /\
    Js.to_string (Js.or name speechId) = Some stem /\
    env = {| status := 200;
             data := JObj [("filename", JStr (filename_of stem fileFormat))] |} /\
    disk w' = (disk w ++ [(filename_of stem fileFormat, res_data r)])%list.
Proof.
  unfold downloadSpeech. run. rewrite or_default_null.
  destruct (_isUseridInvalid (client w)); [discriminate |].
  destruct (inbox w) as [| [r | message] rest]; simpl; try discriminate.
  unfold convert, Js.concat.
  destruct (Js.to_string (Js.or name speechId)) as [stem |]; simpl;
    [| unfold throw; discriminate].
  destruct (res_status r =? 200) eqn:Hstatus.
  - unfold write_file. fold (filename_of stem fileFormat).
    destruct (write_fault pf (filename_of stem fileFormat)) as [[message [partial |]] |];
      simpl; try discriminate.
    unfold _handleResponse; simpl. intros Hrun. inversion Hrun; subst; clear Hrun.
    apply Z.eqb_eq in Hstatus. rewrite Hstatus.
    exists stem, r, rest. simpl. auto.
  - unfold printed, convert. destruct (Js.to_string speechId); simpl; discriminate.
Qed.

End Download.

Lemma download_filename_witness :
  let w := signed_in [Answer export_ok] in
  let run := downloadSpeech demo_platform (JStr "id1") JNull "txt,pdf" w in
  exists stem r rest,
    inbox w = Answer r :: rest /\
    Js.to_string (Js.or JNull (JStr "id1")) = Some stem /\
    {| status := 200; data := JObj [("filename", JStr "id1.zip")] |}
    = {| status := 200;
         data := JObj [("filename", JStr (filename_of stem "txt,pdf"))] |} /\
    disk (snd run) = (disk w ++ [(filename_of stem "txt,pdf", res_data r)])%list.
Proof.
  intros w run.
  apply (download_filename demo_platform (JStr "id1") JNull "txt,pdf" w (snd run)
           {| status := 200; data := JObj [("filename", JStr "id1.zip")] |}).
  reflexivity.
Defined.

(** The two named cases of C9. *)
Example download_zip_and_custom :
  fst (downloadSpeech demo_platform (JStr "id1") JNull "txt,pdf"
         (signed_in [Answer export_ok]))
  = Returned {| status := 200; data := JObj [("filename", JStr "id1.zip")] |} /\
  fst (downloadSpeech demo_platform (JStr "id1") (JStr "custom") "txt"
         (signed_in [Answer export_ok]))
  = Returned {| status := 200; data := JObj [("filename", JStr "custom.txt")] |}.
Proof. split; reflexivity. Qed.

(** C9, as stated, fails for an empty name: [name ?? speechId] keeps the
    empty string and asks for ".txt", while the code's [name || speechId]
    falls back on the speech id and writes "id1.txt". *)
Lemma download_empty_name_uses_speech_id :
  let run := downloadSpeech demo_platform (JStr "id1") (JStr "") "txt"
               (signed_in [Answer export_ok]) in
  fst run = Returned {| status := 200; data := JObj [("filename", JStr "id1.txt")] |} /\
  disk (snd run) = [("id1.txt", JStr "PK...")] /\
  spec_filename (JStr "id1") (JStr "") "txt" = Some ".txt".
Proof. vm_compute. repeat split. Qed.

(** ** Stepping through a method *)

Section Wp.

Context {A B : Type}.

Lemma wp_run (m : Eff A) (Q : Outcome A -> World -> Prop) (w w' : World)
    (out : Outcome A) :
  wp m Q w -> m w = (out, w') -> Q out w'.
Proof. unfold wp. intros HQ Hrun. rewrite Hrun in HQ. exact HQ. Qed.

Lemma wp_ret (a : A) (Q : Outcome A -> World -> Prop) (w : World) :
  Q (Returned a) w -> wp (ret a) Q w.
Proof. auto. Qed.

Lemma wp_throw (e : JsError) (Q : Outcome A -> World -> Prop) (w : World) :
  Q (Thrown e) w -> wp (throw e) Q w.
Proof. auto. Qed.

Lemma wp_bind (m : Eff A) (k : A -> Eff B) (Q : Outcome B -> World -> Prop) (w : World) :
  wp m (fun out w1 => match out with
                      | Returned a => wp (k a) Q w1
                      | Thrown e => Q (Thrown e) w1
                      end) w ->
  wp (bind m k) Q w.
Proof. unfold wp, bind. destruct (m w) as [[a | e] w1]; auto. Qed.

Lemma wp_try_catch (m : Eff A) (handler : JsError -> Eff A)
    (Q : Outcome A -> World -> Prop) (w : World) :
  wp m (fun out w1 => match out with
                      | Returned a => Q (Returned a) w1
                      | Thrown e => wp (handler e) Q w1
                      end) w ->
  wp (try_catch m handler) Q w.
Proof. unfold wp, try_catch. destruct (m w) as [[a | e] w1]; auto. Qed.

Lemma wp_convert (result : option A) (message : string)
    (Q : Outcome A -> World -> Prop) (w : World) :
  match result with
  | Some a => Q (Returned a) w
  | None => Q (Thrown (TypeError message)) w
  end ->
  wp (convert result message) Q w.
Proof. destruct result; auto. Qed.

(** A computation that leaves the world alone. *)
Lemma wp_pure (m : Eff A) (Q : Outcome A -> World -> Prop) (w : World) :
  snd (m w) = w -> (forall out, fst (m w) = out -> Q out w) -> wp m Q w.
Proof. unfold wp. intros Hpure HQ. rewrite Hpure. auto. Qed.

End Wp.

Lemma wp_rethrow {A} (what : string) (error : JsError)
    (Q : Outcome A -> World -> Prop) (w : World) :
  Q (Thrown (OtterAIException (what ++ " failed: " ++ err_message error))) w ->
  wp (rethrow what error) Q w.
Proof. auto. Qed.

Lemma wp_prop (v : JValue) (k : string) (Q : Outcome JValue -> World -> Prop) (w : World) :
  (if Js.nullish v
   then forall message, Q (Thrown (TypeError message)) w
   else Q (Returned (Js.get v k)) w) ->
  wp (prop v k) Q w.
Proof. unfold wp, prop. destruct (Js.nullish v); simpl; auto. Qed.

Lemma wp_printed (v : JValue) (Q : Outcome string -> World -> Prop) (w : World) :
  match Js.to_string v with
  | Some text => Q (Returned text) w
  | None => Q (Thrown (TypeError not_primitive_message)) w
  end ->
  wp (printed v) Q w.
Proof. apply wp_convert. Qed.

Lemma wp_read_client (Q : Outcome Client -> World -> Prop) (w : World) :
  Q (Returned (client w)) w -> wp read_client Q w.
Proof. auto. Qed.

Lemma wp_require_userid (Q : Outcome JValue -> World -> Prop) (w : World) :
  (if _isUseridInvalid (client w)
   then Q (Thrown (OtterAIException "userid is invalid")) w
   else Q (Returned (userid (client w))) w) ->
  wp require_userid Q w.
Proof.
  unfold wp, require_userid, bind, read_client.
  destruct (_isUseridInvalid (client w)); auto.
Qed.

Lemma wp_console_log (line : string) (Q : Outcome unit -> World -> Prop) (w : World) :
  Q (Returned tt)
    {| client := client w; wire := wire w; inbox := inbox w;
       console := console w ++ [line]; disk := disk w |} ->
  wp (console_log line) Q w.
Proof. auto. Qed.

Lemma wp_exchange (req : Request) (Q : Outcome Response -> World -> Prop) (w : World) :
  (forall reply, Q (outcome_of reply) (after_exchange w req reply)) ->
  wp (exchange req) Q w.
Proof.
  intros HQ. unfold wp, exchange.
  destruct (inbox w) as [| [r | message] rest] eqn:Hinbox; simpl.
  - specialize (HQ (Failure timeout_message)).
    unfold after_exchange in HQ. rewrite Hinbox in HQ. exact HQ.
  - specialize (HQ (Answer r)).
    unfold after_exchange in HQ. rewrite Hinbox in HQ. exact HQ.
  - specialize (HQ (Failure message)).
    unfold after_exchange in HQ. rewrite Hinbox in HQ. exact HQ.
Qed.

Lemma wp_session_call (method : Method) (url : string)
    (params headers : list (string * JValue)) (auth : option (JValue * JValue))
    (body : Body) (response_type : option string)
    (Q : Outcome Response -> World -> Prop) (w : World) :
  (forall reply,
      Q (outcome_of reply)
        (after_exchange w
           (session_request (client w) method url params headers auth body response_type)
           reply)) ->
  wp (session_call method url params headers auth body response_type) Q w.
Proof.
  intros HQ. unfold session_call. apply wp_bind, wp_read_client.
  apply wp_exchange. exact HQ.
Qed.

Lemma wp_write_file (pf : Platform) (filename : string) (contents : JValue)
    (Q : Outcome unit -> World -> Prop) (w : World) :
  match write_fault pf filename with
  | Some (message, None) => Q (Thrown (SystemError message)) w
  | Some (message, Some partial) =>
      Q (Thrown (SystemError message))
        {| client := client w; wire := wire w; inbox := inbox w;
           console := console w; disk := disk w ++ [(filename, partial)] |}
  | None => Q (Returned tt)
              {| client := client w; wire := wire w; inbox := inbox w;
                 console := console w; disk := disk w ++ [(filename, contents)] |}
  end ->
  wp (write_file pf filename contents) Q w.
Proof.
  unfold wp, write_file.
  destruct (write_fault pf filename) as [[message [partial |]] |]; auto.
Qed.

(** One step of symbolic execution. *)
Ltac wp_step :=
  lazymatch goal with
  | |- wp (ret _) _ _ => apply wp_ret
  | |- wp (throw _) _ _ => apply wp_throw
  | |- wp (rethrow _ _) _ _ => apply wp_rethrow
  | |- wp (bind _ _) _ _ => apply wp_bind
  | |- wp (try_catch _ _) _ _ => apply wp_try_catch
  | |- wp (convert _ _) _ _ => apply wp_convert
  | |- wp (printed _) _ _ => apply wp_printed
  | |- wp (prop _ _) _ _ => apply wp_prop
  | |- wp read_client _ _ => apply wp_read_client
  | |- wp require_userid _ _ => apply wp_require_userid
  | |- wp (console_log _) _ _ => apply wp_console_log
  | |- wp (write_file _ _ _) _ _ => apply wp_write_file
  | |- wp (append_all _ _) _ _ => apply wp_pure; [apply append_all_pure | intros ? ?]
  | |- wp (session_get _ _) _ _ => unfold session_get
  | |- wp (session_call _ _ _ _ _ _ _) _ _ => apply wp_session_call; intros [?r | ?message]; cbn [outcome_of]
  | |- wp (exchange _) _ _ => apply wp_exchange; intros [?r | ?message]; cbn [outcome_of]
  | |- wp (if ?b then _ else _) _ _ => destruct b eqn:?
  | |- wp (match ?x with _ => _ end) _ _ => destruct x eqn:?
  | |- if ?b then _ else _ => destruct b eqn:?
  | |- match ?x with _ => _ end => destruct x eqn:?
  | |- forall _, _ => intro
  end.

Lemma since_spec (w w' : World) (P : list (Request * Reply) -> Prop) :
  (exists new, wire w' = (wire w ++ new)%list /\ P new) -> P (exchanges_since w w').
Proof. intros [new [Hwire HP]]. rewrite (exchanges_since_app _ _ _ Hwire). exact HP. Qed.

(** The wire of a world reached by exchanges, as an extension of the
    wire the run started from. *)
Ltac wire_eq :=
  cbn [wire after_exchange];
  first [ symmetry; apply app_nil_r | rewrite <- ?app_assoc; reflexivity ].

Ltac wp_steps := repeat (cbn beta iota delta [outcome_of]; wp_step).

(** ** Upload *)

(** [form_fields] computes: it leaves the world alone. *)
Lemma form_fields_pure (paramsData : JValue) (w : World) :
  snd (form_fields paramsData w) = w.
Proof.
  unfold form_fields, bind, prop, printed, convert.
  destruct (Js.nullish paramsData); [reflexivity |]. unfold ret at 1.
  destruct (Js.to_string (Js.get paramsData "success_action_status")); [| reflexivity].
  unfold ret at 1. destruct (Js.own_props paramsData); reflexivity.
Qed.

Section Upload.

Variable pf : Platform.

(** C5.  In any run of [uploadSpeech], once the preflight OPTIONS request
    is answered with a status other than 200, the method returns the
    envelope of that answer and the run consists of exactly two exchanges,
    the parameter fetch and the preflight: no POST to the object store, no
    finish-upload call. *)
Theorem preflight_rejection_ends_upload (fileName : string) (contentType : JValue)
    (w w' : World) (out : Outcome Envelope) (req : Request) (r : Response) :
  uploadSpeech pf fileName contentType w = (out, w') ->
  In (req, Answer r) (exchanges_since w w') ->
  req_method req = OPTIONS ->
  res_status r <> 200 ->
  out = Returned {| status := res_status r; data := res_data r |} /\
  (exists first, exchanges_since w w' = [first; (req, Answer r)]) /\
  Forall (fun x => req_method (fst x) <> POST /\
                   req_url (fst x) <> API_BASE_URL ++ "finish_speech_upload")
         (exchanges_since w w').
Proof.
  intros Hrun. revert req r.
  apply since_spec. revert Hrun.
  apply (wp_run _ (fun out w' =>
    exists new, wire w' = (wire w ++ new)%list /\
      forall req r, In (req, Answer r) new -> req_method req = OPTIONS ->
        res_status r <> 200 ->
        out = Returned {| status := res_status r; data := res_data r |} /\
        (exists first, new = [first; (req, Answer r)]) /\
        Forall (fun x => req_method (fst x) <> POST /\
                         req_url (fst x) <> API_BASE_URL ++ "finish_speech_upload")
               new)).
  unfold uploadSpeech. cbv zeta.
  wp_steps.
  all: try (apply wp_pure; [apply form_fields_pure | intros ? ?]).
  all: wp_steps.
  all: eexists; (split; [wire_eq |]); intros req rr Hin Hmethod Hstatus; simpl in Hin.
  all: repeat (destruct Hin as [Hin | Hin];
               [inversion Hin; subst; clear Hin; simpl in Hmethod; try discriminate Hmethod |]).
  all: try contradiction.
  all: try match goal with
           | H : negb (res_status ?r =? 200) = false |- _ =>
               apply negb_false_iff, Z.eqb_eq in H; contradiction
           end.
  unfold _handleResponse; simpl.
  split; [reflexivity |]. split; [eexists; reflexivity |].
  repeat constructor; simpl; discriminate.
Qed.

Lemma form_fields_well_formed (paramsData : JValue) (w : World)
    (fields : list (string * JValue)) :
  fst (form_fields paramsData w) = Returned fields -> well_formed_fields fields.
Proof.
  unfold form_fields, bind, prop, printed, convert.
  destruct (Js.nullish paramsData); [discriminate |]. unfold ret at 1.
  destruct (Js.to_string (Js.get paramsData "success_action_status")) as [text |];
    [| discriminate].
  unfold ret at 1. destruct (Js.own_props paramsData) as [props |]; [| discriminate].
  simpl. intros Hfields. inversion Hfields as [Heq]; clear Hfields Heq.
  set (props' := Obj.delete (Obj.set props "success_action_status" (JStr text))
                            "form_action").
  assert (Obj.get props' "success_action_status" = Some (JStr text)) as Hget.
  { unfold props'. rewrite get_delete_other by discriminate. apply get_set_same. }
  repeat split.
  - exists text. apply in_map_iff. exists "success_action_status".
    rewrite Hget. split; [reflexivity |].
    apply keys_in, get_in. congruence.
  - intros v Hin. apply in_map_iff in Hin. destruct Hin as [key [Hpair _]].
    inversion Hpair; subst. rewrite Hget. eauto.
  - intros v Hin. apply in_map_iff in Hin. destruct Hin as [key [Hpair Hkey]].
    inversion Hpair; subst. apply keys_in in Hkey.
    exact (delete_not_in _ _ Hkey).
Qed.

(** C7.  Whatever step 1 returned, a multipart form that [uploadSpeech]
    puts on the wire has a [success_action_status] field, every field of
    that name holds a string, and no field is named [form_action]. *)
Theorem upload_form_is_well_formed (fileName : string) (contentType : JValue)
    (w w' : World) (out : Outcome Envelope) (req : Request) (reply : Reply)
    (fields : list (string * JValue)) (file : FilePart) :
  uploadSpeech pf fileName contentType w = (out, w') ->
  In (req, reply) (exchanges_since w w') ->
  req_body req = FormBody fields file ->
  well_formed_fields fields.
Proof.
  intros Hrun. revert req reply fields file.
  apply since_spec. revert Hrun.
  apply (wp_run _ (fun out w' =>
    exists new, wire w' = (wire w ++ new)%list /\
      forall req reply fields file, In (req, reply) new ->
        req_body req = FormBody fields file -> well_formed_fields fields)).
  unfold uploadSpeech. cbv zeta.
  wp_steps.
  all: try (apply wp_pure; [apply form_fields_pure | intros ? ?]).
  all: wp_steps.
  all: eexists; (split; [wire_eq |]); intros req reply fields file Hin Hbody; simpl in Hin.
  all: repeat (destruct Hin as [Hin | Hin];
               [inversion Hin; subst; clear Hin; simpl in Hbody; try discriminate Hbody |]).
  all: try contradiction.
  all: inversion Hbody; subst; eapply form_fields_well_formed; eassumption.
Qed.

End Upload.

Lemma preflight_rejection_ends_upload_witness :
  let w := signed_in [Answer upload_params; Answer preflight_denied] in
  let run := uploadSpeech demo_platform "talk.mp4" (JStr "audio/mp4") w in
  fst run = Returned {| status := 403; data := JStr "Forbidden" |} /\
  (exists first,
      exchanges_since w (snd run)
      = [first;
         (session_request (client w) OPTIONS (S3_BASE_URL ++ "speech-upload-prod") []
            preflight_headers None NoBody None,
          Answer preflight_denied)]) /\
  Forall (fun x => req_method (fst x) <> POST /\
                   req_url (fst x) <> API_BASE_URL ++ "finish_speech_upload")
         (exchanges_since w (snd run)).
Proof.
  intros w run.
  apply (preflight_rejection_ends_upload demo_platform "talk.mp4" (JStr "audio/mp4")
           w (snd run) (fst run)
           (session_request (client w) OPTIONS (S3_BASE_URL ++ "speech-upload-prod") []
              preflight_headers None NoBody None)
           preflight_denied).
  - reflexivity.
  - right. left. reflexivity.
  - reflexivity.
  - simpl. lia.
Defined.

Lemma upload_form_is_well_formed_witness :
  well_formed_fields [("key", JStr "uploads/k"); ("policy", JStr "p0");
                      ("success_action_status", JStr "201")].
Proof.
  pose (w := signed_in [Answer upload_params; Answer preflight_ok; Answer stored; ok_json []]).
  pose (run := uploadSpeech demo_platform "talk.mp4" (JStr "audio/mp4") w).
  apply (upload_form_is_well_formed demo_platform "talk.mp4" (JStr "audio/mp4")
           w (snd run) (fst run)
           {| req_session := false; req_method := POST;
              req_url := S3_BASE_URL ++ "speech-upload-prod"; req_params := [];
              req_headers := form_headers; req_cookie := None; req_auth := None;
              req_body := FormBody [("key", JStr "uploads/k"); ("policy", JStr "p0");
                                    ("success_action_status", JStr "201")]
                            {| file_source := "talk.mp4"; file_name := "talk.mp4";
                               file_content_type := JStr "audio/mp4" |};
              req_response_type := None |}
           (Answer stored)
           _
           {| file_source := "talk.mp4"; file_name := "talk.mp4";
              file_content_type := JStr "audio/mp4" |}).
  - reflexivity.
  - right. right. left. reflexivity.
  - reflexivity.
Defined.

(** ** Statuses other than success *)

(** C2, as stated, fails: on a 404 [downloadSpeech] throws, and on a 500
    from [getSpeeches] so does [getAllSpeeches]; neither returns the
    envelope. *)
Lemma download_and_get_all_throw_on_error_status :
  fst (downloadSpeech demo_platform (JStr "id1") JNull "txt"
         (signed_in [Answer not_found]))
  = Thrown (OtterAIException
              "Download speech failed: Got response status 404 when attempting to download id1") /\
  fst (getAllSpeeches (JNum 0) (JStr "owned") 1000 (signed_in [Answer server_error]))
  = Thrown (OtterAIException
              "Get all speeches failed: Failed to get speeches: 500").
Proof. split; reflexivity. Qed.

Section Statuses.

Variable pf : Platform.

Lemma single_call_passes_status (op : Op) (w : World) (r : Response) (rest : list Reply) :
  single_call op = true ->
  (identity_gated op = true -> _isUseridInvalid (client w) = false) ->
  inbox w = Answer r :: rest ->
  res_status r <> 200 ->
  fst (call pf op w) = Returned {| status := res_status r; data := res_data r |}.
Proof.
  intros Hsingle Hgate Hinbox Hstatus. apply Z.eqb_neq in Hstatus.
  destruct op; simpl in Hsingle; try discriminate; simpl in Hgate;
    try (specialize (Hgate eq_refl));
    run; rewrite ?Hgate, Hinbox; simpl; rewrite ?Hstatus; reflexivity.
Qed.

Lemma upload_passes_status (fileName : string) (contentType : JValue)
    (w w' : World) (out : Outcome Envelope) (req : Request) (r : Response) :
  uploadSpeech pf fileName contentType w = (out, w') ->
  In (req, Answer r) (exchanges_since w w') ->
  is_2xx (res_status r) = false ->
  out = Returned {| status := res_status r; data := res_data r |}.
Proof.
  intros Hrun. revert req r.
  apply since_spec. revert Hrun.
  apply (wp_run _ (fun out w' =>
    exists new, wire w' = (wire w ++ new)%list /\
      forall req r, In (req, Answer r) new -> is_2xx (res_status r) = false ->
        out = Returned {| status := res_status r; data := res_data r |})).
  unfold uploadSpeech. cbv zeta.
  wp_steps.
  all: try (apply wp_pure; [apply form_fields_pure | intros ? ?]).
  all: wp_steps.
  all: eexists; (split; [wire_eq |]); intros req rr Hin Hcode; simpl in Hin.
  all: repeat match goal with
              | H : negb (res_status ?r =? _) = false |- _ =>
                  apply negb_false_iff, Z.eqb_eq in H
              end.
  all: repeat (destruct Hin as [Hin | Hin];
               [inversion Hin; subst; clear Hin;
                try (exfalso; unfold is_2xx in Hcode; lia);
                try reflexivity |]).
  all: try contradiction.
Qed.

Lemma download_throws_on_status (speechId name : JValue) (fileFormat : string)
    (w : World) (r : Response) (rest : list Reply) :
  _isUseridInvalid (client w) = false ->
  inbox w = Answer r :: rest ->
  res_status r <> 200 ->
  fst (downloadSpeech pf speechId name fileFormat w)
  = Thrown (OtterAIException
              ("Download speech failed: "
               ++ match Js.to_string (Js.or name speechId), Js.to_string speechId with
                  | Some _, Some id =>
                      "Got response status " ++ Str.of_Z (res_status r)
                      ++ " when attempting to download " ++ id
                  | _, _ => not_primitive_message
                  end)).
Proof.
  intros Hgate Hinbox Hstatus. apply Z.eqb_neq in Hstatus.
  unfold downloadSpeech. run. rewrite or_default_null, Hgate, Hinbox. simpl.
  unfold Js.concat, convert.
  destruct (Js.to_string (Js.or name speechId)); simpl; [| reflexivity].
  rewrite Hstatus. unfold printed, convert.
  destruct (Js.to_string speechId); reflexivity.
Qed.

Lemma get_all_throws_on_status (folder source : JValue) (maxSpeeches : Z)
    (w : World) (r : Response) (rest : list Reply) (source_text folder_text : string) :
  _isUseridInvalid (client w) = false ->
  Js.to_string source = Some source_text ->
  Js.to_string folder = Some folder_text ->
  inbox w = Answer r :: rest ->
  res_status r <> 200 ->
  fst (getAllSpeeches folder source maxSpeeches w)
  = Thrown (OtterAIException
              ("Get all speeches failed: Failed to get speeches: "
               ++ Str.of_Z (res_status r))).
Proof.
  intros Hgate Hsource Hfolder Hinbox Hstatus. apply Z.eqb_neq in Hstatus.
  destruct (default_printable source (JStr "owned") _ "owned" Hsource eq_refl)
    as [source_shown Hsource'].
  destruct (default_printable folder (JNum 0) _ "0" Hfolder eq_refl)
    as [folder_shown Hfolder'].
  unfold getAllSpeeches, printed, convert. cbv zeta. rewrite Hsource', Hfolder'.
  unfold console_log. run. rewrite Hgate. simpl. rewrite Hgate, Hinbox. simpl.
  rewrite Hstatus. reflexivity.
Qed.

End Statuses.

(** ** Aggregation over the sources *)

Lemma truthy_not_nullish (v : JValue) : Js.truthy v = true -> Js.nullish v = false.
Proof. destruct v; simpl; congruence. Qed.

(** An addition that went through had a printable right-hand side. *)
Lemma plus_printable (total count sum : JValue) :
  Js.plus total count = Some sum -> exists text, Js.to_string count = Some text.
Proof.
  unfold Js.plus. destruct (Js.to_primitive total); [| discriminate].
  destruct count; simpl; try (intros _; eexists; reflexivity).
  - destruct b; intros _; eexists; reflexivity.
  - match goal with |- context [option_map JStr ?x] => destruct x end;
      [intros _; eexists; reflexivity | discriminate].
  - destruct (Obj.has props "toString"); [discriminate | intros _; eexists; reflexivity].
Qed.

(** The default of [folder] is applied at every level: giving it in
    advance changes nothing. *)
Lemma getAllSpeeches_default (folder source : JValue) (maxSpeeches : Z) :
  getAllSpeeches (Js.default folder (JNum 0)) source maxSpeeches
  = getAllSpeeches folder source maxSpeeches.
Proof.
  unfold getAllSpeeches, getSpeeches. cbv zeta. rewrite !default_idem. reflexivity.
Qed.

Lemma collect_source_default (folder : JValue) (maxPerSource : Z) :
  collect_source (Js.default folder (JNum 0)) maxPerSource
  = collect_source folder maxPerSource.
Proof.
  unfold collect_source, getAllSpeeches, getSpeeches. cbv zeta.
  rewrite !default_idem. reflexivity.
Qed.

(** One turn never throws, and leaves [tally_after] of its fetch. *)
Lemma collect_source_run (folder : JValue) (maxPerSource : Z)
    (allSpeeches : list (string * JValue)) (source : string) (w : World) :
  fst (collect_source folder maxPerSource allSpeeches source w)
  = Returned (tally_after allSpeeches source
                (fst (fetch_of folder maxPerSource source w))).
Proof.
  unfold collect_source, fetch_of. cbv zeta.
  set (w0 := snd (console_log ("Getting all " ++ source ++ " speeches...") w)).
  unfold bind at 1.
  change (console_log ("Getting all " ++ source ++ " speeches...") w)
    with (Returned tt, w0).
  cbv iota beta. unfold try_catch at 1. unfold bind at 1.
  destruct (getAllSpeeches folder (JStr source) maxPerSource w0)
    as [[result | error] w1]; cbn [fst tally_after].
  - destruct (Js.truthy (Js.get_opt (data result) "speeches")) eqn:Htruthy;
      [| reflexivity].
    unfold try_catch at 1. unfold bind at 1. unfold prop.
    rewrite (truthy_not_nullish _ Htruthy). unfold ret at 1. unfold bind at 1.
    cbv zeta.
    destruct (Js.plus (Js.get (JObj (Obj.set allSpeeches source
                                       (Js.get_opt (data result) "speeches"))) "total")
                      (Js.get (Js.get_opt (data result) "speeches") "length"))
      as [total |] eqn:Hplus; cbn [convert].
    + destruct (plus_printable _ _ _ Hplus) as [text Htext].
      unfold ret at 1. unfold try_catch, bind, printed. rewrite Htext. reflexivity.
    + reflexivity.
  - reflexivity.
Qed.

(** The closing [return] computes: its outcome does not depend on the
    world. *)
Lemma aggregate_result_fst (allSpeeches : list (string * JValue)) (w w0 : World) :
  fst (aggregate_result allSpeeches w) = fst (aggregate_result allSpeeches w0).
Proof.
  unfold aggregate_result, bind, convert, prop. cbv zeta.
  destruct (Js.spread (Js.get (JObj allSpeeches) "owned")); [| reflexivity].
  unfold ret at 1. unfold ret at 5.
  destruct (Js.spread (Js.get (JObj allSpeeches) "shared")); [| reflexivity].
  unfold ret at 1. unfold ret at 4.
  destruct (Js.nullish (Js.get (JObj allSpeeches) "owned")); [reflexivity |].
  unfold ret at 1. unfold ret at 3.
  destruct (Js.nullish (Js.get (JObj allSpeeches) "shared")); reflexivity.
Qed.

(** The aggregate call, past the gate: two turns, then the closing. *)
Lemma aggregate_run (folder : JValue) (maxPerSource : Z) (w : World) :
  _isUseridInvalid (client w) = false ->
  fst (getAllSpeechesFromAllSources folder maxPerSource w)
  = closing (tally_after
               (tally_after no_speeches "owned" (owned_fetch folder maxPerSource w))
               "shared" (shared_fetch folder maxPerSource w)).
Proof.
  intros Hgate.
  unfold getAllSpeechesFromAllSources, owned_fetch, shared_fetch. cbv zeta.
  rewrite collect_source_default.
  unfold bind at 1. unfold require_userid, bind at 1, read_client. rewrite Hgate.
  cbv beta iota. unfold ret at 1. cbv iota beta.
  unfold try_catch, bind at 1. cbn [for_each]. unfold bind at 1.
  pose proof (collect_source_run folder maxPerSource no_speeches "owned" w) as Hfirst.
  destruct (collect_source folder maxPerSource no_speeches "owned" w)
    as [out1 w1] eqn:Hrun1.
  cbn [fst snd] in Hfirst |- *. subst out1. unfold bind at 1.
  set (tally1 := tally_after no_speeches "owned"
                   (fst (fetch_of folder maxPerSource "owned" w))).
  pose proof (collect_source_run folder maxPerSource tally1 "shared" w1) as Hsecond.
  destruct (collect_source folder maxPerSource tally1 "shared" w1)
    as [out2 w2] eqn:Hrun2.
  cbn [fst snd] in Hsecond. subst out2. unfold ret at 1. cbv iota beta.
  set (tally2 := tally_after tally1 "shared" (fst (fetch_of folder maxPerSource "shared" w1))).
  unfold closing. rewrite (aggregate_result_fst tally2 (fresh_world []) w2).
  destruct (aggregate_result tally2 w2) as [[envelope | error] w3]; reflexivity.
Qed.

Lemma chars_length (s : string) : List.length (Str.chars s) = String.length s.
Proof.
  unfold Str.chars. rewrite length_map.
  induction s as [| c rest IH]; simpl; congruence.
Qed.

(** A string has one code unit per code point, and one more per
    surrogate pair. *)
Lemma code_points_length (s : string) :
  (List.length (Str.code_points s) + Str.surrogate_pairs s)%nat = String.length s.
Proof.
  enough (forall s,
             (List.length (Str.code_points s) + Str.surrogate_pairs s)%nat
             = String.length s /\
             forall c,
               (List.length (Str.code_points (String c s))
                + Str.surrogate_pairs (String c s))%nat
               = String.length (String c s)) as Hboth by apply Hboth.
  clear s. induction s as [| d rest [IHrest IHcons]].
  - split; [reflexivity | intros c; reflexivity].
  - split; [apply IHcons |]. intros c.
    specialize (IHcons d).
    change (Str.code_points (String c (String d rest)))
      with (if Str.is_high_surrogate c && Str.is_low_surrogate d
            then String c (String d EmptyString) :: Str.code_points rest
            else String c EmptyString :: Str.code_points (String d rest)).
    change (Str.surrogate_pairs (String c (String d rest)))
      with (if Str.is_high_surrogate c && Str.is_low_surrogate d
            then S (Str.surrogate_pairs rest)
            else Str.surrogate_pairs (String d rest)).
    change (String.length (String c (String d rest)))
      with (S (String.length (String d rest))).
    destruct (Str.is_high_surrogate c && Str.is_low_surrogate d).
    + change (String.length (String d rest)) with (S (String.length rest)).
      cbn [List.length]. lia.
    + cbn [List.length]. lia.
Qed.

(** What spreads has a numeric length: the number of items spread, and
    one more for each surrogate pair of a string. *)
Lemma spread_length (v : JValue) (items : list JValue) :
  Js.spread v = Some items ->
  Js.get v "length" = JNum (Z.of_nat (List.length items + Js.astral v)).
Proof.
  destruct v; simpl; try discriminate; intros Hitems; inversion Hitems; subst.
  - rewrite length_map, code_points_length. reflexivity.
  - rewrite Nat.add_0_r. reflexivity.
Qed.

(** The tally after the owned turn. *)
Lemma tally_owned (fetch : Outcome Envelope) :
  exists o t,
    tally_after no_speeches "owned" fetch
    = [("owned", o); ("shared", JArr []); ("total", t)] /\
    ((o = JArr [] /\ t = JNum 0) \/
     Js.plus (JNum 0) (Js.get o "length") = Some t).
Proof.
  destruct fetch as [result | error]; simpl.
  - destruct (Js.truthy (Js.get_opt (data result) "speeches")).
    + destruct (Js.plus (JNum 0) (Js.get (Js.get_opt (data result) "speeches") "length"))
        as [total |] eqn:Hplus.
      * do 2 eexists. split; [reflexivity | right; exact Hplus].
      * do 2 eexists. split; [reflexivity | left; auto].
    + do 2 eexists. split; [reflexivity | left; auto].
  - do 2 eexists. split; [reflexivity | left; auto].
Qed.

(** The tally after the shared turn. *)
Lemma tally_shared (o1 t1 : JValue) (fetch : Outcome Envelope) :
  exists s t,
    tally_after [("owned", o1); ("shared", JArr []); ("total", t1)] "shared" fetch
    = [("owned", o1); ("shared", s); ("total", t)] /\
    ((s = JArr [] /\ t = t1) \/
     Js.plus t1 (Js.get s "length") = Some t).
Proof.
  destruct fetch as [result | error]; simpl.
  - destruct (Js.truthy (Js.get_opt (data result) "speeches")).
    + destruct (Js.plus t1 (Js.get (Js.get_opt (data result) "speeches") "length"))
        as [total |] eqn:Hplus.
      * do 2 eexists. split; [reflexivity | right; exact Hplus].
      * do 2 eexists. split; [reflexivity | left; auto].
    + do 2 eexists. split; [reflexivity | left; auto].
  - do 2 eexists. split; [reflexivity | left; auto].
Qed.

(** Every envelope the aggregate call returns, spelled out. *)
Lemma aggregate_shape (folder : JValue) (maxPerSource : Z) (w : World) (env : Envelope) :
  fst (getAllSpeechesFromAllSources folder maxPerSource w) = Returned env ->
  exists o s owned shared,
    Js.spread o = Some owned /\ Js.spread s = Some shared /\
    let owned_count := JNum (Z.of_nat (List.length owned + Js.astral o)) in
    let shared_count := JNum (Z.of_nat (List.length shared + Js.astral s)) in
    let total := JNum (Z.of_nat (List.length owned + Js.astral o)
                       + Z.of_nat (List.length shared + Js.astral s)) in
    env = {| status := 200;
             data := JObj [("status", JStr "OK");
                           ("speeches_by_source",
                            JObj [("owned", o); ("shared", s); ("total", total)]);
                           ("all_speeches", JArr (owned ++ shared)%list);
                           ("summary",
                            JObj [("owned_count", owned_count);
                                  ("shared_count", shared_count);
                                  ("total_count", total)])] |}.
Proof.
  intros Hrun.
  destruct (_isUseridInvalid (client w)) eqn:Hgate.
  { pose proof (gate_closed demo_platform
                  (GetAllSpeechesFromAllSources folder maxPerSource) w eq_refl Hgate) as Hthrow.
    simpl in Hthrow. rewrite Hthrow in Hrun. discriminate. }
  pose proof (aggregate_run folder maxPerSource w Hgate) as Hclose.
  rewrite Hrun in Hclose.
  destruct (tally_owned (owned_fetch folder maxPerSource w)) as [o [t1 [Htally1 Hfirst]]].
  rewrite Htally1 in Hclose.
  destruct (tally_shared o t1 (shared_fetch folder maxPerSource w)) as [s [t2 [Htally2 Hsecond]]].
  rewrite Htally2 in Hclose.
  unfold closing, aggregate_result, bind, convert, prop in Hclose.
  cbv zeta in Hclose. simpl in Hclose.
  destruct (Js.spread o) as [owned |] eqn:Hspread_o; [| discriminate].
  simpl in Hclose.
  destruct (Js.spread s) as [shared |] eqn:Hspread_s; [| discriminate].
  simpl in Hclose.
  assert (Js.nullish o = false) as Ho by (destruct o; simpl in *; congruence).
  assert (Js.nullish s = false) as Hs by (destruct s; simpl in *; congruence).
  rewrite Ho in Hclose. simpl in Hclose. rewrite Hs in Hclose. simpl in Hclose.
  inversion Hclose; subst env; clear Hclose.
  exists o, s, owned, shared.
  pose proof (spread_length _ _ Hspread_o) as Hlen_o.
  pose proof (spread_length _ _ Hspread_s) as Hlen_s.
  assert (t1 = JNum (Z.of_nat (List.length owned + Js.astral o))) as Ht1.
  { destruct Hfirst as [[Hnil Hzero] | Hplus].
    - subst o. simpl in Hspread_o. inversion Hspread_o; subst. reflexivity.
    - rewrite Hlen_o in Hplus. unfold Js.plus in Hplus. simpl in Hplus.
      inversion Hplus. reflexivity. }
  assert (t2 = JNum (Z.of_nat (List.length owned + Js.astral o)
                     + Z.of_nat (List.length shared + Js.astral s))) as Ht2.
  { subst t1. destruct Hsecond as [[Hnil Hsame] | Hplus].
    - subst s. simpl in Hspread_s. inversion Hspread_s; subst. simpl.
      rewrite Z.add_0_r. reflexivity.
    - rewrite Hlen_s in Hplus. unfold Js.plus in Hplus. simpl in Hplus.
      inversion Hplus. reflexivity. }
  subst t2. cbv zeta. rewrite Hlen_o, Hlen_s. auto.
Qed.

(** C4, as stated, fails.  The owned source answers with a string of two
    code units that are one code point (a surrogate pair) as its speeches:
    all_speeches holds one item, while owned_count and total_count say 2. *)
Lemma aggregate_counts_astral_string :
  let w := signed_in [ok_json [("speeches", JStr astral_sample)]; no_speech] in
  String.length astral_sample = 2%nat /\
  fst (getAllSpeechesFromAllSources (JNum 0) 500 w)
  = Returned
      {| status := 200;
         data := JObj [("status", JStr "OK");
                       ("speeches_by_source",
                        JObj [("owned", JStr astral_sample); ("shared", JArr []);
                              ("total", JNum 2)]);
                       ("all_speeches", JArr [JStr astral_sample]);
                       ("summary",
                        JObj [("owned_count", JNum 2); ("shared_count", JNum 0);
                              ("total_count", JNum 2)])] |}.
Proof. split; vm_compute; reflexivity. Qed.

(** C4, amended.  In every envelope [getAllSpeechesFromAllSources]
    returns, the owned and the shared entry of speeches_by_source are
    lists (they spread into items [owned] and [shared]; for arrays, the
    arrays themselves), all_speeches is [owned] followed by [shared],
    owned_count and shared_count are the [length] of the two entries and
    total_count is their sum.  The [length] of an array is the number of
    its items, that of a string the number of its code units: the length
    of all_speeches is owned_count + shared_count less the surrogate pairs
    of string entries, hence owned_count + shared_count when both entries
    are arrays. *)
Theorem aggregate_counts (folder : JValue) (maxPerSource : Z) (w w' : World)
    (env : Envelope) :
  getAllSpeechesFromAllSources folder maxPerSource w = (Returned env, w') ->
  let owned_entry := Js.get (Js.get (data env) "speeches_by_source") "owned" in
  let shared_entry := Js.get (Js.get (data env) "speeches_by_source") "shared" in
  exists owned shared,
    Js.spread owned_entry = Some owned /\
    Js.spread shared_entry = Some shared /\
    let owned_count := Z.of_nat (List.length owned + Js.astral owned_entry) in
    let shared_count := Z.of_nat (List.length shared + Js.astral shared_entry) in
    let pairs := Z.of_nat (Js.astral owned_entry + Js.astral shared_entry) in
    Js.get (data env) "all_speeches" = JArr (owned ++ shared) /\
    Js.get (Js.get (data env) "all_speeches") "length"
    = JNum (owned_count + shared_count - pairs) /\
    Js.get (Js.get (data env) "summary") "owned_count" = JNum owned_count /\
    Js.get (Js.get (data env) "summary") "shared_count" = JNum shared_count /\
    Js.get (Js.get (data env) "summary") "total_count" = JNum (owned_count + shared_count) /\
    (forall a b, owned_entry = JArr a -> shared_entry = JArr b ->
                 owned = a /\ shared = b /\ pairs = 0).
Proof.
  intros Hrun.
  destruct (aggregate_shape folder maxPerSource w env) as
    [o [s [owned [shared [Hspread_o [Hspread_s Henv]]]]]];
    [rewrite Hrun; reflexivity |].
  cbv zeta in Henv. subst env. cbn [data]. simpl.
  exists owned, shared.
  split; [assumption |]. split; [assumption |].
  split; [reflexivity |].
  split; [rewrite length_app; f_equal; lia |].
  split; [reflexivity |]. split; [reflexivity |]. split; [f_equal; lia |].
  intros a b Ha Hb. subst o s. simpl in Hspread_o, Hspread_s.
  inversion Hspread_o; inversion Hspread_s. auto.
Qed.

Lemma aggregate_counts_witness :
  let w := signed_in [two_speeches; one_speech] in
  let env :=
    {| status := 200;
       data := JObj [("status", JStr "OK");
                     ("speeches_by_source",
                      JObj [("owned", JArr [JObj [("otid", JStr "s1")];
                                            JObj [("otid", JStr "s2")]]);
                            ("shared", JArr [JObj [("otid", JStr "s3")]]);
                            ("total", JNum 3)]);
                     ("all_speeches", JArr [JObj [("otid", JStr "s1")];
                                            JObj [("otid", JStr "s2")];
                                            JObj [("otid", JStr "s3")]]);
                     ("summary",
                      JObj [("owned_count", JNum 2); ("shared_count", JNum 1);
                            ("total_count", JNum 3)])] |} in
  fst (getAllSpeechesFromAllSources (JNum 0) 500 w) = Returned env /\
  exists owned shared,
    Js.get (data env) "all_speeches" = JArr (owned ++ shared) /\
    Js.get (Js.get (data env) "all_speeches") "length"
    = JNum (Z.of_nat (List.length owned) + Z.of_nat (List.length shared)) /\
    Js.get (Js.get (data env) "summary") "total_count"
    = JNum (Z.of_nat (List.length owned) + Z.of_nat (List.length shared)).
Proof.
  intros w env. split; [reflexivity |].
  destruct (aggregate_counts (JNum 0) 500 w
              (snd (getAllSpeechesFromAllSources (JNum 0) 500 w)) env eq_refl)
    as [owned [shared [Hspread_o [Hspread_s [Hall [Hlength [_ [_ [Htotal _]]]]]]]]].
  exists owned, shared. split; [exact Hall |].
  simpl in Hspread_o, Hspread_s. inversion Hspread_o; inversion Hspread_s; subst.
  split; reflexivity.
Defined.





(** C2, amended.  A status other than 200 is handed back as the envelope
    { status, data } by the eleven one-call methods (login, getUser,
    getSpeakers, getSpeeches, getSpeech, querySpeech, moveToTrashBin,
    createSpeaker, getNotificationSettings, listGroups, getFolders), and a
    status outside 2xx by [uploadSpeech] at whichever of its steps receives
    it.  [downloadSpeech] on a status other than 200, and [getAllSpeeches]
    on a status other than 200 from its [getSpeeches], throw the domain
    error instead. *)
Theorem error_statuses (pf : Platform) :
  (forall op w r rest,
      single_call op = true ->
      (identity_gated op = true -> _isUseridInvalid (client w) = false) ->
      inbox w = Answer r :: rest ->
      res_status r <> 200 ->
      fst (call pf op w) = Returned {| status := res_status r; data := res_data r |}) /\
  (forall fileName contentType w w' out req r,
      uploadSpeech pf fileName contentType w = (out, w') ->
      In (req, Answer r) (exchanges_since w w') ->
      is_2xx (res_status r) = false ->
      out = Returned {| status := res_status r; data := res_data r |}) /\
  (forall speechId name fileFormat w r rest,
      _isUseridInvalid (client w) = false ->
      inbox w = Answer r :: rest ->
      res_status r <> 200 ->
      exists message,
        fst (downloadSpeech pf speechId name fileFormat w)
        = Thrown (OtterAIException ("Download speech failed: " ++ message))) /\
  (forall folder source maxSpeeches w r rest source_text folder_text,
      _isUseridInvalid (client w) = false ->
      Js.to_string source = Some source_text ->
      Js.to_string folder = Some folder_text ->
      inbox w = Answer r :: rest ->
      res_status r <> 200 ->
      fst (getAllSpeeches folder source maxSpeeches w)
      = Thrown (OtterAIException
                  ("Get all speeches failed: Failed to get speeches: "
                   ++ Str.of_Z (res_status r)))).
Proof.
  split; [| split; [| split]].
  - intros. apply single_call_passes_status with (rest := rest); assumption.
  - intros. eapply upload_passes_status; eassumption.
  - intros speechId name fileFormat w r rest Hgate Hinbox Hstatus.
    eexists. apply (download_throws_on_status pf _ _ _ _ _ _ Hgate Hinbox Hstatus).
  - intros. eapply get_all_throws_on_status; eassumption.
Qed.

Lemma error_statuses_witness :
  fst (call demo_platform (GetSpeech (JStr "id1")) (signed_in [Answer not_found]))
  = Returned {| status := 404; data := JObj [("message", JStr "no such speech")] |} /\
  fst (uploadSpeech demo_platform "talk.mp4" (JStr "audio/mp4")
         (signed_in [Answer upload_params; Answer preflight_ok; Answer server_error]))
  = Returned {| status := 500; data := JStr "oops" |} /\
  fst (getAllSpeeches (JNum 0) (JStr "owned") 1000 (signed_in [Answer server_error]))
  = Thrown (OtterAIException "Get all speeches failed: Failed to get speeches: 500").
Proof.
  destruct (error_statuses demo_platform) as [Hsingle [Hupload [_ Hall]]].
  split; [| split].
  - apply (Hsingle (GetSpeech (JStr "id1")) (signed_in [Answer not_found]) not_found []);
      [reflexivity | reflexivity | reflexivity | simpl; lia].
  - pose (w := signed_in [Answer upload_params; Answer preflight_ok; Answer server_error]).
    pose (run := uploadSpeech demo_platform "talk.mp4" (JStr "audio/mp4") w).
    apply (Hupload "talk.mp4" (JStr "audio/mp4") w (snd run) (fst run)
             {| req_session := false; req_method := POST;
                req_url := S3_BASE_URL ++ "speech-upload-prod"; req_params := [];
                req_headers := form_headers; req_cookie := None; req_auth := None;
                req_body := FormBody [("key", JStr "uploads/k"); ("policy", JStr "p0");
                                      ("success_action_status", JStr "201")]
                              {| file_source := "talk.mp4"; file_name := "talk.mp4";
                                 file_content_type := JStr "audio/mp4" |};
                req_response_type := None |}
             server_error).
    + reflexivity.
    + right. right. left. reflexivity.
    + reflexivity.
  - apply (Hall (JNum 0) (JStr "owned") 1000 (signed_in [Answer server_error])
             server_error [] "owned" "0"); try reflexivity. simpl; lia.
Defined.

(** Past the edge of C6: an owned source whose speeches are not a list
    cannot be spread into all_speeches; the call then throws, with a
    failing shared fetch as with an empty one. *)
Example aggregate_with_odd_owned :
  fst (getAllSpeechesFromAllSources (JNum 0) 500
         (signed_in [odd_speeches; Answer server_error]))
  = Thrown (OtterAIException
              "Get all speeches from all sources failed: allSpeeches.owned is not iterable") /\
  fst (getAllSpeechesFromAllSources (JNum 0) 500 (signed_in [odd_speeches; no_speech]))
  = fst (getAllSpeechesFromAllSources (JNum 0) 500
           (signed_in [odd_speeches; Answer server_error])).
Proof. split; reflexivity. Qed.

(** * Further properties of the client *)

(** ** Errors *)

Lemma wp_try_rethrow {A} (m : Eff A) (what : string) (w : World) :
  wp (try_catch m (rethrow what)) (fun out _ => domain_only out) w.
Proof.
  unfold wp, try_catch, rethrow, throw, domain_only.
  destruct (m w) as [[a | e] w1]; simpl; intros e' He'; inversion He'; reflexivity.
Qed.

Lemma domain_only_exception {A} (message : string) :
  @domain_only A (Thrown (OtterAIException message)).
Proof. intros e He. inversion He. reflexivity. Qed.

(** X1.  Whatever a method of the client throws, it throws as an
    [OtterAIException]: TypeErrors, transport failures and file-system
    errors never reach the caller as such. *)
Theorem only_domain_errors (pf : Platform) (op : Op) (w : World) (e : JsError) :
  fst (call pf op w) = Thrown e -> err_name e = "OtterAIException".
Proof.
  revert e. change (wp (call pf op) (fun out _ => domain_only out) w).
  destruct op; simpl;
    cbv [login getUser getSpeakers getSpeeches getAllSpeeches
         getAllSpeechesFromAllSources getSpeech querySpeech uploadSpeech
         downloadSpeech moveToTrashBin createSpeaker getNotificationSettings
         listGroups getFolders speechStart stopSpeech];
    cbv zeta;
    repeat first [apply wp_try_rethrow | wp_step];
    try apply domain_only_exception.
Qed.

Lemma only_domain_errors_witness :
  err_name (OtterAIException
              "Upload speech failed: Cannot read properties of null (reading 'data')")
  = "OtterAIException".
Proof.
  apply (only_domain_errors demo_platform (UploadSpeech "talk.mp4" (JStr "audio/mp4"))
           (signed_in [Answer {| res_status := 200; res_set_cookie := None;
                                 res_data := JNull |}])).
  reflexivity.
Defined.

(** X2.  When the transport fails (or the remote stays silent past the
    timeout), a one-call method throws the domain error that names it,
    [<label> failed: <message>], and the instance is as it was. *)
Theorem transport_failure_is_wrapped (pf : Platform) (op : Op) (w : World)
    (message : string) :
  single_call op = true ->
  (identity_gated op = true -> _isUseridInvalid (client w) = false) ->
  (exists rest, inbox w = Failure message :: rest) \/
  (inbox w = [] /\ message = timeout_message) ->
  fst (call pf op w)
  = Thrown (OtterAIException (failure_label op ++ " failed: " ++ message)) /\
  client (snd (call pf op w)) = client w.
Proof.
  intros Hsingle Hgate Hreply.
  destruct op; simpl in Hsingle; try discriminate; simpl in Hgate;
    try (specialize (Hgate eq_refl));
    run; rewrite ?Hgate;
    (destruct Hreply as [[rest Hinbox] | [Hinbox Hmessage]];
     rewrite Hinbox; [| subst message]; simpl; split; reflexivity).
Qed.

Lemma transport_failure_is_wrapped_witness :
  fst (call demo_platform (GetSpeech (JStr "id1"))
         (signed_in [Failure "connect ECONNREFUSED"]))
  = Thrown (OtterAIException "Get speech failed: connect ECONNREFUSED") /\
  client (snd (call demo_platform (GetSpeech (JStr "id1"))
                 (signed_in [Failure "connect ECONNREFUSED"])))
  = client (signed_in [Failure "connect ECONNREFUSED"]).
Proof.
  apply (transport_failure_is_wrapped demo_platform (GetSpeech (JStr "id1"))
           (signed_in [Failure "connect ECONNREFUSED"]) "connect ECONNREFUSED").
  - reflexivity.
  - reflexivity.
  - left. exists []. reflexivity.
Defined.

(** ** What goes on the wire *)

(** X3.  Only [login] changes the instance.  Every other method leaves userid,
    cookie store and Cookie header as they were, and each request it sends
    through the session carries that Cookie header; the upload's direct
    POST to the object store carries none. *)
Theorem instance_changes_only_on_login (pf : Platform) (op : Op) (w : World) :
  is_login op = false ->
  client (snd (call pf op w)) = client w /\
  Forall (fun x => req_cookie (fst x)
                   = if req_session (fst x) then session_cookie (client w) else None)
         (exchanges_since w (snd (call pf op w))).
Proof.
  intros Hop. destruct (call_attaches pf op Hop w) as [Hclient [new [Hwire Hnew]]].
  split; [assumption |].
  rewrite (exchanges_since_app _ _ _ Hwire). exact Hnew.
Qed.

Lemma instance_changes_only_on_login_witness :
  let w := signed_in [Answer upload_params; Answer preflight_ok; Answer stored; ok_json []] in
  let run := call demo_platform (UploadSpeech "talk.mp4" (JStr "audio/mp4")) w in
  client (snd run) = client w /\
  map (fun x => req_cookie (fst x)) (exchanges_since w (snd run))
  = [Some "csrftoken=tok"; Some "csrftoken=tok"; None; Some "csrftoken=tok"].
Proof.
  intros w run.
  destruct (instance_changes_only_on_login demo_platform
              (UploadSpeech "talk.mp4" (JStr "audio/mp4")) w eq_refl) as [Hclient _].
  split; [exact Hclient | reflexivity].
Defined.

Section Emits.

Context {A B : Type}.
Variable c : Client.
Variable P : Request * Reply -> Prop.

Lemma emits_ret (a : A) : emits c P (ret a).
Proof.
  intros w Hc; split; [assumption |].
  exists []; rewrite app_nil_r; split; [reflexivity | constructor].
Qed.

Lemma emits_throw (e : JsError) : emits c P (@throw A e).
Proof.
  intros w Hc; split; [assumption |].
  exists []; rewrite app_nil_r; split; [reflexivity | constructor].
Qed.

Lemma emits_bind (m : Eff A) (k : A -> Eff B) :
  emits c P m -> (forall a, emits c P (k a)) -> emits c P (bind m k).
Proof.
  intros Hm Hk w Hc. unfold bind.
  destruct (Hm w Hc) as [Hclient [new [Hwire Hnew]]].
  destruct (m w) as [[a | e] w1]; simpl in *.
  - destruct (Hk a w1 Hclient) as [Hclient' [new' [Hwire' Hnew']]].
    split; [assumption |].
    exists (new ++ new')%list. rewrite Hwire', Hwire, app_assoc. split; [reflexivity |].
    apply Forall_app; split; assumption.
  - split; [assumption |]. exists new; auto.
Qed.

Lemma emits_try_catch (m : Eff A) (handler : JsError -> Eff A) :
  emits c P m -> (forall e, emits c P (handler e)) -> emits c P (try_catch m handler).
Proof.
  intros Hm Hh w Hc. unfold try_catch.
  destruct (Hm w Hc) as [Hclient [new [Hwire Hnew]]].
  destruct (m w) as [[a | e] w1]; simpl in *.
  - split; [assumption |]. exists new; auto.
  - destruct (Hh e w1 Hclient) as [Hclient' [new' [Hwire' Hnew']]].
    split; [assumption |].
    exists (new ++ new')%list. rewrite Hwire', Hwire, app_assoc. split; [reflexivity |].
    apply Forall_app; split; assumption.
Qed.

Lemma emits_convert (result : option A) (message : string) :
  emits c P (convert result message).
Proof. destruct result; [apply emits_ret | apply emits_throw]. Qed.

(** Reading the instance hands over [c] itself. *)
Lemma emits_read_client (k : Client -> Eff B) :
  emits c P (k c) -> emits c P (bind read_client k).
Proof.
  intros Hk w Hc. unfold bind, read_client. rewrite Hc. apply Hk. assumption.
Qed.

(** Past the gate, the userid handed over is the instance's. *)
Lemma emits_require_userid (k : JValue -> Eff B) :
  emits c P (k (userid c)) -> emits c P (bind require_userid k).
Proof.
  intros Hk w Hc. unfold bind at 1. unfold require_userid, bind, read_client.
  rewrite Hc. destruct (_isUseridInvalid c).
  - unfold throw. simpl. split; [assumption |].
    exists []. rewrite app_nil_r. split; [reflexivity | constructor].
  - apply Hk. assumption.
Qed.

End Emits.

Section EmitsEffects.

Variable c : Client.
Variable P : Request * Reply -> Prop.

Lemma emits_console_log (line : string) : emits c P (console_log line).
Proof.
  intros w Hc; split; [assumption |].
  exists []; simpl; rewrite app_nil_r; split; [reflexivity | constructor].
Qed.

Lemma emits_write_file (pf : Platform) (filename : string) (contents : JValue) :
  emits c P (write_file pf filename contents).
Proof.
  intros w Hc; unfold write_file.
  destruct (write_fault pf filename) as [[message [partial |]] |]; simpl;
    (split; [assumption |]);
    exists []; rewrite app_nil_r; (split; [reflexivity | constructor]).
Qed.

Lemma emits_append_all (pf : Platform) (fields : list (string * JValue)) :
  emits c P (append_all pf fields).
Proof.
  intros w Hc. rewrite append_all_pure. split; [assumption |].
  exists []. rewrite app_nil_r. split; [reflexivity | constructor].
Qed.

Lemma emits_prop (v : JValue) (k : string) : emits c P (prop v k).
Proof. unfold prop. destruct (Js.nullish v); [apply emits_throw | apply emits_ret]. Qed.

Lemma emits_printed (v : JValue) : emits c P (printed v).
Proof. apply emits_convert. Qed.

Lemma emits_rethrow {A} (what : string) (error : JsError) :
  emits c P (@rethrow A what error).
Proof. apply emits_throw. Qed.

Lemma emits_exchange (req : Request) :
  (forall reply, P (req, reply)) -> emits c P (exchange req).
Proof.
  intros HP w Hc. unfold exchange.
  destruct (inbox w) as [| [r | message] rest]; simpl;
    (split; [assumption |]); eexists; (split; [reflexivity |]);
    repeat constructor; apply HP.
Qed.

Lemma emits_session_call (method : Method) (url : string)
    (params headers : list (string * JValue)) (auth : option (JValue * JValue))
    (body : Body) (response_type : option string) :
  (forall reply,
      P (session_request c method url params headers auth body response_type, reply)) ->
  emits c P (session_call method url params headers auth body response_type).
Proof.
  intros HP. unfold session_call. apply emits_read_client.
  apply emits_exchange. exact HP.
Qed.

Lemma emits_for_each {S X} (body : S -> X -> Eff S) (xs : list X) :
  (forall s x, emits c P (body s x)) -> forall s, emits c P (for_each body xs s).
Proof.
  intros Hbody. induction xs as [| x rest IH]; intros s; simpl.
  - apply emits_ret.
  - apply emits_bind; [apply Hbody | assumption].
Qed.

End EmitsEffects.

Ltac emits_step :=
  lazymatch goal with
  | |- emits _ _ (ret _) => apply emits_ret
  | |- emits _ _ (throw _) => apply emits_throw
  | |- emits _ _ (rethrow _ _) => apply emits_rethrow
  | |- emits _ _ (rethrow _) => intro
  | |- emits _ _ (convert _ _) => apply emits_convert
  | |- emits _ _ (printed _) => apply emits_printed
  | |- emits _ _ (prop _ _) => apply emits_prop
  | |- emits _ _ (console_log _) => apply emits_console_log
  | |- emits _ _ (write_file _ _ _) => apply emits_write_file
  | |- emits _ _ (append_all _ _) => apply emits_append_all
  | |- emits _ _ (session_get _ _) => unfold session_get
  | |- emits _ _ (session_call _ _ _ _ _ _ _) => apply emits_session_call
  | |- emits _ _ (exchange _) => apply emits_exchange
  | |- emits _ _ (for_each _ _ _) => apply emits_for_each
  | |- emits _ _ (bind require_userid _) => apply emits_require_userid
  | |- emits _ _ (bind read_client _) => apply emits_read_client
  | |- emits _ _ (bind _ _) => apply emits_bind
  | |- emits _ _ (try_catch _ _) => apply emits_try_catch
  | |- emits _ _ (if ?b then _ else _) => destruct b
  | |- emits _ _ (match ?x with _ => _ end) => destruct x
  | |- forall _, _ => intro
  end.

Section NamesUser.

Variable pf : Platform.
Variable c : Client.

Local Ltac names_tac :=
  repeat emits_step; unfold names_user, session_request; cbn; auto 10.

Lemma getSpeeches_names_user folder pageSize source :
  emits c (names_user (userid c)) (getSpeeches folder pageSize source).
Proof. unfold getSpeeches. names_tac. Qed.

Lemma getAllSpeeches_names_user folder source maxSpeeches :
  emits c (names_user (userid c)) (getAllSpeeches folder source maxSpeeches).
Proof.
  unfold getAllSpeeches. cbv zeta.
  repeat first [apply getSpeeches_names_user | emits_step].
Qed.

Lemma collect_source_names_user folder maxPerSource allSpeeches source :
  emits c (names_user (userid c)) (collect_source folder maxPerSource allSpeeches source).
Proof.
  unfold collect_source. cbv zeta.
  repeat first [apply getAllSpeeches_names_user | emits_step].
Qed.

Lemma call_names_user (op : Op) :
  identity_gated op = true ->
  emits c (names_user (userid c)) (call pf op).
Proof.
  intros Hgated. destruct op; simpl in Hgated; try discriminate; simpl;
    cbv [getSpeakers getAllSpeechesFromAllSources aggregate_result form_fields
         getSpeech uploadSpeech downloadSpeech moveToTrashBin createSpeaker
         listGroups getFolders];
    cbv zeta;
    repeat first [apply getSpeeches_names_user | apply getAllSpeeches_names_user
                 | apply collect_source_names_user | emits_step];
    unfold names_user, session_request; cbn; auto 10.
Qed.

End NamesUser.

(** X4.  Every request an identity-gated method sends to the service carries
    the instance's userid among its query parameters; the only requests
    without it are those to the object store. *)
Theorem gated_requests_name_the_user (pf : Platform) (op : Op) (w : World) :
  identity_gated op = true ->
  Forall (names_user (userid (client w))) (exchanges_since w (snd (call pf op w))).
Proof.
  intros Hgated.
  destruct (call_names_user pf (client w) op Hgated w eq_refl) as [_ [new [Hwire Hnew]]].
  rewrite (exchanges_since_app _ _ _ Hwire). exact Hnew.
Qed.

Lemma gated_requests_name_the_user_witness :
  let w := signed_in [Answer upload_params; Answer preflight_ok; Answer stored; ok_json []] in
  Forall (names_user (JStr "u1"))
         (exchanges_since w (snd (call demo_platform
                                    (UploadSpeech "talk.mp4" (JStr "audio/mp4")) w))).
Proof.
  intros w.
  apply (gated_requests_name_the_user demo_platform
           (UploadSpeech "talk.mp4" (JStr "audio/mp4")) w).
  reflexivity.
Defined.

(** X5.  [downloadSpeech], [moveToTrashBin] and [createSpeaker] send exactly one
    request, a POST whose x-csrftoken header is the csrftoken cookie of the
    store, or undefined when the store has none: a missing token does not
    hold the call back. *)
Theorem csrf_token_travels (pf : Platform) (op : Op) (w : World) :
  sends_csrf op = true ->
  _isUseridInvalid (client w) = false ->
  exists req reply,
    exchanges_since w (snd (call pf op w)) = [(req, reply)] /\
    req_method req = POST /\
    In ("x-csrftoken", csrftoken (client w)) (req_headers req).
Proof.
  intros Hop Hgate.
  apply (since_spec w _ (fun new => exists req reply,
           new = [(req, reply)] /\ req_method req = POST /\
           In ("x-csrftoken", csrftoken (client w)) (req_headers req))).
  change (wp (call pf op)
            (fun _ w' => exists new, wire w' = (wire w ++ new)%list /\
               exists req reply, new = [(req, reply)] /\ req_method req = POST /\
                 In ("x-csrftoken", csrftoken (client w)) (req_headers req)) w).
  destruct op; simpl in Hop; try discriminate; simpl;
    cbv [downloadSpeech moveToTrashBin createSpeaker]; cbv zeta;
    wp_steps; try congruence;
    (eexists; split; [wire_eq |]); do 2 eexists;
    (split; [reflexivity |]); (split; [reflexivity | simpl; auto]).
Qed.

Lemma csrf_token_travels_witness :
  let w := fresh_world [Answer first_login; ok_json []] in
  let w1 := snd (login (JStr "a") (JStr "pw") w) in
  exists req reply,
    exchanges_since w1 (snd (call demo_platform (MoveToTrashBin (JStr "id1")) w1))
    = [(req, reply)] /\
    req_method req = POST /\
    In ("x-csrftoken", JUndefined) (req_headers req).
Proof.
  intros w w1.
  apply (csrf_token_travels demo_platform (MoveToTrashBin (JStr "id1")) w1);
    reflexivity.
Defined.

(** ** One page of speeches *)

(** X6.  [getAllSpeeches] sends at most one request, and that request asks the
    speeches endpoint for a page of min(maxSpeeches, 200) items of the
    folder and the source given, 0 and 'owned' standing in for an
    undefined one. *)
Theorem get_all_speeches_asks_one_page (folder source : JValue) (maxSpeeches : Z)
    (w : World) :
  let new := exchanges_since w (snd (getAllSpeeches folder source maxSpeeches w)) in
  let asked := speeches_request (client w) (Js.default folder (JNum 0))
                                (Js.default source (JStr "owned")) maxSpeeches in
  new = [] \/ exists reply, new = [(asked, reply)].
Proof.
  cbv zeta.
  apply (since_spec w _ (fun new => new = [] \/
           exists reply,
             new = [(speeches_request (client w) (Js.default folder (JNum 0))
                                      (Js.default source (JStr "owned")) maxSpeeches,
                     reply)])).
  change (wp (getAllSpeeches folder source maxSpeeches)
            (fun _ w' => exists new, wire w' = (wire w ++ new)%list /\
               (new = [] \/
                exists reply,
                  new = [(speeches_request (client w) (Js.default folder (JNum 0))
                                           (Js.default source (JStr "owned")) maxSpeeches,
                          reply)]))
            w).
  unfold getAllSpeeches, getSpeeches. cbv zeta. rewrite !default_idem.
  wp_steps.
  all: eexists; (split; [cbn [wire after_exchange];
                          first [ symmetry; apply app_nil_r
                                | rewrite <- ?app_assoc; reflexivity ] |]).
  all: try (left; reflexivity).
  all: try (right; eexists; reflexivity).
Qed.

(** Called without folder and source, [getAllSpeeches] asks for folder 0
    of the owned speeches. *)
Example get_all_speeches_defaults :
  let w := signed_in [no_speech] in
  map (fun x => req_params (fst x))
      (exchanges_since w (snd (getAllSpeeches JUndefined JUndefined 1000 w)))
  = [[("userid", JStr "u1"); ("folder", JNum 0); ("page_size", JNum 200);
      ("source", JStr "owned")]].
Proof. reflexivity. Qed.

(** X7.  On a 200 answer whose speeches are a list, [getAllSpeeches] returns
    the list, its length as total_count, and a note that warns of a
    possible cut exactly when the length equals the page size asked for. *)
Theorem get_all_speeches_notes_full_page (folder source : JValue) (maxSpeeches : Z)
    (w : World) (r : Response) (rest : list Reply) (items : list JValue)
    (source_text folder_text : string) :
  _isUseridInvalid (client w) = false ->
  Js.to_string source = Some source_text ->
  Js.to_string folder = Some folder_text ->
  inbox w = Answer r :: rest ->
  res_status r = 200 ->
  Js.get_opt (res_data r) "speeches" = JArr items ->
  fst (getAllSpeeches folder source maxSpeeches w)
  = Returned
      {| status := 200;
         data := JObj [("status", JStr "OK");
                       ("speeches", JArr items);
                       ("total_count", JNum (Z.of_nat (List.length items)));
                       ("note",
                        JStr (if Z.of_nat (List.length items) =? Z.min maxSpeeches 200
                              then "Max page size reached - there may be more speeches"
                              else "All available speeches retrieved"))] |}.
Proof.
  intros Hgate Hsource Hfolder Hinbox Hstatus Hspeeches.
  assert (Js.nullish (res_data r) = false) as Hbody.
  { unfold Js.get_opt in Hspeeches. destruct (Js.nullish (res_data r));
      [discriminate | reflexivity]. }
  assert (Js.get (res_data r) "speeches" = JArr items) as Hget.
  { unfold Js.get_opt in Hspeeches. rewrite Hbody in Hspeeches. exact Hspeeches. }
  destruct (default_printable source (JStr "owned") _ "owned" Hsource eq_refl)
    as [source_shown Hsource'].
  destruct (default_printable folder (JNum 0) _ "0" Hfolder eq_refl)
    as [folder_shown Hfolder'].
  unfold getAllSpeeches, printed, convert. cbv zeta. rewrite Hsource', Hfolder'.
  unfold console_log. run. rewrite Hgate. simpl. rewrite Hgate, Hinbox. simpl.
  rewrite Hstatus. simpl. rewrite Hspeeches. simpl.
  unfold prop. rewrite Hbody. simpl. rewrite Hget. simpl.
  destruct (Z.of_nat (List.length items) =? Z.min maxSpeeches 200); reflexivity.
Qed.

Lemma get_all_speeches_notes_full_page_witness :
  fst (getAllSpeeches (JNum 0) (JStr "owned") 2 (signed_in [two_speeches]))
  = Returned
      {| status := 200;
         data := JObj [("status", JStr "OK");
                       ("speeches", JArr [JObj [("otid", JStr "s1")];
                                          JObj [("otid", JStr "s2")]]);
                       ("total_count", JNum 2);
                       ("note", JStr "Max page size reached - there may be more speeches")] |}.
Proof.
  apply (get_all_speeches_notes_full_page (JNum 0) (JStr "owned") 2
           (signed_in [two_speeches])
           {| res_status := 200; res_set_cookie := None;
              res_data := JObj [("speeches", JArr [JObj [("otid", JStr "s1")];
                                                   JObj [("otid", JStr "s2")]])] |}
           [] [JObj [("otid", JStr "s1")]; JObj [("otid", JStr "s2")]] "owned" "0");
    reflexivity.
Defined.

(** X8.  A 200 answer is not enough for [getAllSpeeches]: when its body has no
    speeches (none at all, or null, an empty string, 0, false), the call
    throws, naming the status 200. *)
Theorem get_all_speeches_needs_speeches (folder source : JValue) (maxSpeeches : Z)
    (w : World) (r : Response) (rest : list Reply) (source_text folder_text : string) :
  _isUseridInvalid (client w) = false ->
  Js.to_string source = Some source_text ->
  Js.to_string folder = Some folder_text ->
  inbox w = Answer r :: rest ->
  res_status r = 200 ->
  Js.truthy (Js.get_opt (res_data r) "speeches") = false ->
  fst (getAllSpeeches folder source maxSpeeches w)
  = Thrown (OtterAIException "Get all speeches failed: Failed to get speeches: 200").
Proof.
  intros Hgate Hsource Hfolder Hinbox Hstatus Hspeeches.
  destruct (default_printable source (JStr "owned") _ "owned" Hsource eq_refl)
    as [source_shown Hsource'].
  destruct (default_printable folder (JNum 0) _ "0" Hfolder eq_refl)
    as [folder_shown Hfolder'].
  unfold getAllSpeeches, printed, convert. cbv zeta. rewrite Hsource', Hfolder'.
  unfold console_log. run. rewrite Hgate. simpl. rewrite Hgate, Hinbox. simpl.
  rewrite Hstatus. simpl. rewrite Hspeeches. reflexivity.
Qed.

Lemma get_all_speeches_needs_speeches_witness :
  fst (getAllSpeeches (JNum 0) (JStr "owned") 1000
         (signed_in [ok_json [("speeches", JNull)]]))
  = Thrown (OtterAIException "Get all speeches failed: Failed to get speeches: 200").
Proof.
  apply (get_all_speeches_needs_speeches (JNum 0) (JStr "owned") 1000
           (signed_in [ok_json [("speeches", JNull)]])
           {| res_status := 200; res_set_cookie := None;
              res_data := JObj [("speeches", JNull)] |} [] "owned" "0");
    reflexivity.
Defined.

(** ** The upload as a sequence of steps *)

Section UploadSteps.

Variable pf : Platform.

(** X9.  An upload never sends more than its four requests, never out of
    order, and never moves past a step that was not answered with that
    step's go-ahead status (200, 200, 201): all exchanges but the last were
    answered with it. *)
Theorem upload_follows_its_steps (fileName : string) (contentType : JValue) (w : World) :
  let new := exchanges_since w (snd (uploadSpeech pf fileName contentType w)) in
  map step_of new = firstn (List.length new) upload_steps /\
  Forall2 answered_with (removelast new)
          (firstn (List.length new - 1) upload_go_ahead).
Proof.
  apply (since_spec w _ (fun new =>
           map step_of new = firstn (List.length new) upload_steps /\
           Forall2 answered_with (removelast new)
                   (firstn (List.length new - 1) upload_go_ahead))).
  change (wp (uploadSpeech pf fileName contentType)
            (fun _ w' => exists new, wire w' = (wire w ++ new)%list /\
               map step_of new = firstn (List.length new) upload_steps /\
               Forall2 answered_with (removelast new)
                       (firstn (List.length new - 1) upload_go_ahead)) w).
  unfold uploadSpeech. cbv zeta.
  wp_steps.
  all: try (apply wp_pure; [apply form_fields_pure | intros ? ?]).
  all: wp_steps.
  all: repeat match goal with
              | H : negb (res_status ?r =? _) = false |- _ =>
                  apply negb_false_iff, Z.eqb_eq in H
              end.
  all: eexists; (split; [wire_eq |]); simpl; (split; [reflexivity |]).
  all: repeat (constructor; [eexists; split; [reflexivity | assumption] |]).
  all: constructor.
Qed.

(** X10.  When the object store answers the POST with anything but 201 (a 200
    included), the upload returns that answer's envelope after exactly
    three exchanges: the finish call is not made. *)
Theorem store_rejection_ends_upload (fileName : string) (contentType : JValue)
    (w w' : World) (out : Outcome Envelope) (req : Request) (r : Response) :
  uploadSpeech pf fileName contentType w = (out, w') ->
  In (req, Answer r) (exchanges_since w w') ->
  req_method req = POST ->
  res_status r <> 201 ->
  out = Returned {| status := res_status r; data := res_data r |} /\
  (exists first second, exchanges_since w w' = [first; second; (req, Answer r)]) /\
  Forall (fun x => req_url (fst x) <> API_BASE_URL ++ "finish_speech_upload")
         (exchanges_since w w').
Proof.
  intros Hrun. revert req r.
  apply since_spec. revert Hrun.
  apply (wp_run _ (fun out w' =>
    exists new, wire w' = (wire w ++ new)%list /\
      forall req r, In (req, Answer r) new -> req_method req = POST ->
        res_status r <> 201 ->
        out = Returned {| status := res_status r; data := res_data r |} /\
        (exists first second, new = [first; second; (req, Answer r)]) /\
        Forall (fun x => req_url (fst x) <> API_BASE_URL ++ "finish_speech_upload")
               new)).
  unfold uploadSpeech. cbv zeta.
  wp_steps.
  all: try (apply wp_pure; [apply form_fields_pure | intros ? ?]).
  all: wp_steps.
  all: eexists; (split; [wire_eq |]); intros req rr Hin Hmethod Hstatus; simpl in Hin.
  all: repeat (destruct Hin as [Hin | Hin];
               [inversion Hin; subst; clear Hin; simpl in Hmethod; try discriminate Hmethod |]).
  all: try contradiction.
  all: try match goal with
           | H : negb (res_status ?r =? 201) = false |- _ =>
               apply negb_false_iff, Z.eqb_eq in H; contradiction
           end.
  unfold _handleResponse; simpl.
  split; [reflexivity |]. split; [do 2 eexists; reflexivity |].
  repeat constructor; simpl; discriminate.
Qed.

End UploadSteps.

Lemma upload_follows_its_steps_witness :
  let w := signed_in [Answer upload_params; Answer preflight_ok; Answer server_error] in
  let new := exchanges_since w
               (snd (uploadSpeech demo_platform "talk.mp4" (JStr "audio/mp4") w)) in
  map step_of new = firstn 3 upload_steps /\
  Forall2 answered_with (removelast new) [200; 200].
Proof.
  intros w new.
  apply (upload_follows_its_steps demo_platform "talk.mp4" (JStr "audio/mp4") w).
Defined.

Lemma store_rejection_ends_upload_witness :
  let w := signed_in [Answer upload_params; Answer preflight_ok; Answer preflight_ok] in
  let run := uploadSpeech demo_platform "talk.mp4" (JStr "audio/mp4") w in
  fst run = Returned {| status := 200; data := JStr "" |} /\
  List.length (exchanges_since w (snd run)) = 3%nat.
Proof.
  intros w run.
  destruct (store_rejection_ends_upload demo_platform "talk.mp4" (JStr "audio/mp4")
              w (snd run) (fst run)
              {| req_session := false; req_method := POST;
                 req_url := S3_BASE_URL ++ "speech-upload-prod"; req_params := [];
                 req_headers := form_headers; req_cookie := None; req_auth := None;
                 req_body := FormBody [("key", JStr "uploads/k"); ("policy", JStr "p0");
                                       ("success_action_status", JStr "201")]
                               {| file_source := "talk.mp4"; file_name := "talk.mp4";
                                  file_content_type := JStr "audio/mp4" |};
                 req_response_type := None |}
              preflight_ok)
    as [Hout [[first [second Hnew]] _]].
  - reflexivity.
  - right. right. left. reflexivity.
  - reflexivity.
  - simpl. lia.
  - split; [exact Hout |]. rewrite Hnew. reflexivity.
Defined.







(** Without that: a parameter that is an array is refused by the form,
    and the upload ends after the preflight. *)
Example upload_array_parameter_stops :
  let w := signed_in [Answer upload_params_with_array; Answer preflight_ok;
                      Answer stored; ok_json []] in
  let run := uploadSpeech demo_platform "talk.mp4" JUndefined w in
  fst run = Thrown (OtterAIException "Upload speech failed: Arrays are not supported.") /\
  map step_of (exchanges_since w (snd run)) = firstn 2 upload_steps.
Proof. split; reflexivity. Qed.

(** ** Cookies *)

Lemma map_fst_replace {V} (o : list (string * V)) (k : string) (v : V) :
  map fst (Obj.replace o k v) = map fst o.
Proof.
  induction o as [| [k' v'] rest IH]; simpl; [reflexivity |].
  destruct (String.eqb k' k); simpl; congruence.
Qed.

Lemma has_in {V} (o : list (string * V)) (k : string) :
  Obj.has o k = true <-> In k (map fst o).
Proof.
  unfold Obj.has. rewrite get_in. destruct (Obj.get o k); split; congruence.
Qed.

Lemma set_names {V} (o : list (string * V)) (k : string) (v : V) :
  map fst (Obj.set o k v)
  = if Obj.has o k then map fst o else (map fst o ++ [k])%list.
Proof.
  unfold Obj.set. destruct (Obj.has o k).
  - apply map_fst_replace.
  - rewrite map_app. reflexivity.
Qed.

Lemma set_keeps_distinct {V} (o : list (string * V)) (k : string) (v : V) :
  NoDup (map fst o) -> NoDup (map fst (Obj.set o k v)).
Proof.
  intros Hnodup. rewrite set_names. destruct (Obj.has o k) eqn:Hhas; [assumption |].
  apply NoDup_app.
  - assumption.
  - repeat constructor. intros [].
  - intros x Hin [Hx | []]. subst x.
    apply has_in in Hin. congruence.
Qed.

(** X12.  The cookie store that [_extractCookies] builds binds each name once,
    and never the name [__proto__]. *)
Theorem extracted_cookies_are_distinct (r : Response) :
  NoDup (map fst (_extractCookies r)) /\
  ~ In "__proto__" (map fst (_extractCookies r)).
Proof.
  unfold _extractCookies. destruct (res_set_cookie r) as [lines |];
    [| split; [constructor | intros []]].
  set (step := fun (jar : list (string * string)) (cookie : string) => _).
  assert (forall jar,
             NoDup (map fst jar) /\ ~ In "__proto__" (map fst jar) ->
             NoDup (map fst (fold_left step lines jar)) /\
             ~ In "__proto__" (map fst (fold_left step lines jar))) as Hfold.
  { induction lines as [| line rest IH]; intros jar Hjar; simpl; [assumption |].
    apply IH. unfold step.
    destruct (Str.split "=" (hd EmptyString (Str.split ";" line)))
      as [| name [| value others]]; try assumption.
    destruct (negb (Str.is_empty name) && negb (Str.is_empty value)); [| assumption].
    unfold cookie_assign.
    destruct (String.eqb_spec (Str.trim name) "__proto__") as [Heq | Hneq];
      [assumption |].
    destruct Hjar as [Hnodup Hproto]. split.
    - apply set_keeps_distinct. assumption.
    - rewrite set_names. destruct (Obj.has jar (Str.trim name)); [assumption |].
      rewrite in_app_iff. intros [Hin | [Hin | []]]; [contradiction | congruence]. }
  apply Hfold. split; [constructor | intros []].
Qed.

Lemma lacks_app (c : ascii) (a b : string) :
  lacks c (a ++ b) = lacks c a && lacks c b.
Proof.
  induction a as [| c' rest IH]; simpl; [reflexivity |].
  rewrite IH. apply andb_assoc.
Qed.

Lemma split_lacks (sep : ascii) (a : string) :
  lacks sep a = true -> Str.split sep a = [a].
Proof.
  induction a as [| c rest IH]; simpl; [reflexivity |].
  intros Hlacks. apply andb_true_iff in Hlacks. destruct Hlacks as [Hc Hrest].
  apply negb_true_iff in Hc. rewrite Hc, (IH Hrest). reflexivity.
Qed.

Lemma split_at_sep (sep : ascii) (a b : string) :
  lacks sep a = true ->
  Str.split sep (a ++ String sep b) = a :: Str.split sep b.
Proof.
  induction a as [| c rest IH]; simpl.
  - rewrite Ascii.eqb_refl. reflexivity.
  - intros Hlacks. apply andb_true_iff in Hlacks. destruct Hlacks as [Hc Hrest].
    apply negb_true_iff in Hc. rewrite Hc, (IH Hrest). reflexivity.
Qed.

Lemma append_empty_r (a : string) : a ++ "" = a.
Proof. induction a as [| x rest IH]; simpl; congruence. Qed.

Lemma append_assoc (a b c : string) : (a ++ b) ++ c = a ++ (b ++ c).
Proof. induction a as [| x rest IH]; simpl; congruence. Qed.

(** The name=value part of a well-formed line, as the parsing finds it. *)
Lemma line_parts (l : CookieLine) :
  well_formed_line l ->
  Str.split "=" (hd EmptyString (Str.split ";" (line_text l)))
  = [line_name l; line_value l].
Proof.
  intros [[_ [Hn_semi [Hn_eq _]]] [[_ [Hv_semi [Hv_eq _]]] [Hattrs _]]].
  assert (hd EmptyString (Str.split ";" (line_text l))
          = line_name l ++ "=" ++ line_value l) as Hhead.
  { unfold line_text.
    assert (lacks ";" (line_name l ++ "=" ++ line_value l) = true) as Hlacks.
    { rewrite !lacks_app, Hn_semi, Hv_semi. reflexivity. }
    destruct Hattrs as [Hnone | [rest Hsome]].
    - rewrite Hnone, append_empty_r.
      rewrite (split_lacks _ _ Hlacks). reflexivity.
    - rewrite Hsome.
      replace (line_name l ++ "=" ++ line_value l ++ String ";" rest)
        with ((line_name l ++ "=" ++ line_value l) ++ String ";" rest)
        by (rewrite !append_assoc; reflexivity).
      rewrite (split_at_sep _ _ _ Hlacks). reflexivity. }
  rewrite Hhead.
  change (line_name l ++ "=" ++ line_value l)
    with (line_name l ++ String "=" (line_value l)).
  rewrite (split_at_sep _ _ _ Hn_eq), (split_lacks _ _ Hv_eq). reflexivity.
Qed.

Lemma set_fresh {V} (o : list (string * V)) (k : string) (v : V) :
  ~ In k (map fst o) -> Obj.set o k v = (o ++ [(k, v)])%list.
Proof.
  intros Hfresh. unfold Obj.set.
  destruct (Obj.has o k) eqn:Hhas; [| reflexivity].
  apply has_in in Hhas. contradiction.
Qed.

(** Parsing well-formed lines with distinct names appends one pair per
    line, in order. *)
Lemma extract_lines (lines : list CookieLine) (jar : list (string * string)) :
  Forall well_formed_line lines ->
  NoDup (map line_name lines) ->
  (forall l, In l lines -> ~ In (line_name l) (map fst jar)) ->
  fold_left
    (fun jar cookie =>
       let nameValue := hd EmptyString (Str.split ";" cookie) in
       match Str.split "=" nameValue with
       | name :: value :: _ =>
           if negb (Str.is_empty name) && negb (Str.is_empty value)
           then cookie_assign jar (Str.trim name) (Str.trim value)
           else jar
       | _ => jar
       end)
    (map line_text lines) jar
  = (jar ++ map line_pair lines)%list.
Proof.
  revert jar. induction lines as [| l rest IH]; intros jar Hlines Hnodup Hfresh; simpl.
  - rewrite app_nil_r. reflexivity.
  - inversion Hlines as [| ? ? Hl Hrest]; subst.
    inversion Hnodup as [| ? ? Hhead Htail]; subst.
    rewrite (line_parts l Hl).
    destruct Hl as [[Hn_empty [_ [_ Hn_trim]]] [[Hv_empty [_ [_ Hv_trim]]] [_ [Hproto _]]]].
    rewrite Hn_empty, Hv_empty, Hn_trim, Hv_trim. simpl.
    unfold cookie_assign.
    destruct (String.eqb_spec (line_name l) "__proto__"); [contradiction |].
    rewrite (set_fresh _ _ _ (Hfresh l (or_introl eq_refl))).
    rewrite IH; [rewrite <- app_assoc; reflexivity | assumption | assumption |].
    intros l' Hl'. rewrite map_app, in_app_iff. simpl.
    intros [Hin | [Heq | []]].
    + exact (Hfresh l' (or_intror Hl') Hin).
    + apply Hhead. rewrite Heq. apply in_map. assumption.
Qed.

Lemma index_keys_plain (ks : list string) :
  Forall (fun k => Obj.array_index k = None) ks -> Obj.index_keys ks = [].
Proof.
  induction 1 as [| k ks Hk Hks IH]; simpl; [reflexivity |].
  rewrite Hk. exact IH.
Qed.

Lemma named_keys_plain (ks : list string) :
  Forall (fun k => Obj.array_index k = None) ks -> Obj.named_keys ks = ks.
Proof.
  induction 1 as [| k ks Hk Hks IH]; simpl; [reflexivity |].
  rewrite Hk. f_equal. exact IH.
Qed.

Lemma flat_map_agree {X Y} (f g : X -> list Y) (l : list X) :
  (forall x, In x l -> f x = g x) -> flat_map f l = flat_map g l.
Proof.
  induction l as [| x rest IH]; simpl; intros Hagree; [reflexivity |].
  rewrite (Hagree x (or_introl eq_refl)), IH; [reflexivity |].
  intros y Hy. apply Hagree. now right.
Qed.

(** With distinct names none of which is an array index, [Object.entries]
    lists the pairs as they were inserted. *)
Lemma entries_plain {V} (o : list (string * V)) :
  NoDup (map fst o) ->
  Forall (fun k => Obj.array_index k = None) (map fst o) ->
  Obj.entries o = o.
Proof.
  intros Hnodup Hplain. unfold Obj.entries, Obj.keys.
  rewrite (index_keys_plain _ Hplain), (named_keys_plain _ Hplain). simpl. clear Hplain.
  induction o as [| [k v] rest IH]; simpl; [reflexivity |].
  rewrite String.eqb_refl. simpl. f_equal.
  inversion Hnodup as [| ? ? Hhead Htail]; subst.
  rewrite <- (IH Htail) at 2.
  apply flat_map_agree. intros k' Hk'.
  destruct (String.eqb_spec k k'); [subst; contradiction | reflexivity].
Qed.

(** X13.  Set-Cookie lines of the usual shape come back out as they went
    in: for lines name=value with optional attributes after ';', names
    and values plain and names distinct, the store holds one pair per line
    in order, and the Cookie header is the pairs joined by '; '. *)
Theorem cookies_round_trip (r : Response) (lines : list CookieLine) :
  res_set_cookie r = Some (map line_text lines) ->
  Forall well_formed_line lines ->
  NoDup (map line_name lines) ->
  _extractCookies r = map line_pair lines /\
  cookie_string (_extractCookies r)
  = Str.join "; " (map (fun l => line_name l ++ "=" ++ line_value l) lines).
Proof.
  intros Hheader Hlines Hnodup.
  assert (_extractCookies r = map line_pair lines) as Hjar.
  { unfold _extractCookies. rewrite Hheader.
    apply (extract_lines lines [] Hlines Hnodup).
    intros l _ []. }
  split; [assumption |].
  rewrite Hjar. unfold cookie_string. rewrite entries_plain.
  - rewrite map_map. reflexivity.
  - rewrite map_map. exact Hnodup.
  - rewrite map_map. rewrite Forall_map.
    eapply Forall_impl; [| exact Hlines].
    intros l [_ [_ [_ [_ Hindex]]]]. exact Hindex.
Qed.

(** A login takes exactly one reply off the inbox, however it ends. *)
Lemma login_consumes_one (username password : JValue) (w : World) :
  inbox (snd (login username password w)) = tl (inbox w).
Proof.
  unfold login, _setCookieHeader, prop. run.
  destruct (inbox w) as [| [r | message] rest]; simpl; try reflexivity.
  destruct (res_status r =? 200); simpl; [| reflexivity].
  destruct (Js.nullish (res_data r)); simpl; [reflexivity |].
  destruct (0 <? Z.of_nat (List.length (Obj.keys (_extractCookies r)))); reflexivity.
Qed.

(** X14.  After a login answered 200 whose body carries a truthy userid,
    the next single-request method passes the gate: it returns the
    envelope of the reply, sends exactly one request, with the Cookie
    header the login left, and a gated method names the userid of the
    login's answer. *)
Theorem login_opens_the_gate (pf : Platform) (username password : JValue) (op : Op)
    (w : World) (r r' : Response) (rest : list Reply) :
  inbox w = Answer r :: Answer r' :: rest ->
  res_status r = 200 ->
  Js.nullish (res_data r) = false ->
  Js.truthy (Js.get (res_data r) "userid") = true ->
  single_call op = true ->
  is_login op = false ->
  let w1 := snd (login username password w) in
  fst (call pf op w1) = Returned {| status := res_status r'; data := res_data r' |} /\
  exists req,
    exchanges_since w1 (snd (call pf op w1)) = [(req, Answer r')] /\
    req_cookie req = session_cookie (client w1) /\
    (identity_gated op = true ->
     In ("userid", Js.get (res_data r) "userid") (req_params req)).
Proof.
  intros Hinbox Hstatus Hbody Huserid Hsingle Hlogin w1.
  destruct (login_accepted username password w r (Answer r' :: rest)
              Hinbox Hstatus Hbody) as [_ [Hid _]].
  fold w1 in Hid.
  assert (inbox w1 = Answer r' :: rest) as Hinbox1.
  { unfold w1. rewrite login_consumes_one, Hinbox. reflexivity. }
  assert (_isUseridInvalid (client w1) = false) as Hgate.
  { unfold _isUseridInvalid. rewrite Hid, Huserid. reflexivity. }
  destruct op; simpl in Hsingle, Hlogin; try discriminate; simpl;
    run; rewrite ?Hgate, Hinbox1; simpl;
    (split; [reflexivity |]); eexists;
    (split; [apply exchanges_since_app; reflexivity |]);
    (split; [reflexivity |]); intros Hgated; try discriminate Hgated;
    simpl; rewrite <- Hid; auto.
Qed.

(** ** Files *)

Section KeepsDisk.

Context {A B : Type}.






End KeepsDisk.










(** A write that fails once the file is open: the download throws, and
    the file is there, empty. *)
Example download_write_fails_midway :
  let w := signed_in [Answer export_ok] in
  let run := downloadSpeech full_disk_platform (JStr "id1") JUndefined "txt" w in
  fst run = Thrown (OtterAIException
                      "Download speech failed: ENOSPC: no space left on device, write") /\
  disk (snd run) = [("id1.txt", JStr EmptyString)].
Proof. split; reflexivity. Qed.

(** ** The requests of the aggregate call *)

Lemma wp_mono {A} (m : Eff A) (R Q : Outcome A -> World -> Prop) (w : World) :
  wp m R w -> (forall out w', R out w' -> Q out w') -> wp m Q w.
Proof. unfold wp. auto. Qed.

Lemma getAllSpeeches_page (folder source : JValue) (maxSpeeches : Z) (w : World) :
  wp (getAllSpeeches folder source maxSpeeches)
     (fun _ w' => asks_one_page w (Js.default folder (JNum 0))
                                (Js.default source (JStr "owned")) maxSpeeches w') w.
Proof.
  unfold getAllSpeeches, getSpeeches. cbv zeta. rewrite !default_idem.
  wp_steps.
  all: split; [reflexivity |].
  all: eexists; (split; [cbn [wire after_exchange];
                          first [ symmetry; apply app_nil_r
                                | rewrite <- ?app_assoc; reflexivity ] |]).
  all: try (left; reflexivity).
  all: try (right; eexists; reflexivity).
Qed.

Lemma collect_source_page (folder : JValue) (maxPerSource : Z)
    (allSpeeches : list (string * JValue)) (source : string) (w : World) :
  wp (collect_source folder maxPerSource allSpeeches source)
     (fun _ w' => asks_one_page w (Js.default folder (JNum 0)) (JStr source) maxPerSource w') w.
Proof.
  unfold collect_source. cbv zeta.
  apply wp_bind, wp_console_log. cbn beta iota.
  apply wp_try_catch, wp_bind.
  eapply wp_mono; [apply getAllSpeeches_page |].
  intros out w1 [Hclient [part [Hwire Hpart]]]. cbn [client wire] in Hclient, Hwire.
  cbn [Js.default] in Hpart.
  assert (forall w2, client w2 = client w1 -> wire w2 = wire w1 ->
                     asks_one_page w (Js.default folder (JNum 0)) (JStr source) maxPerSource w2) as Hdone.
  { intros w2 Hc Hw. split; [congruence |]. exists part. split; [congruence | assumption]. }
  destruct out as [result | error]; wp_steps; apply Hdone; reflexivity.
Qed.

Lemma aggregate_result_pure (allSpeeches : list (string * JValue)) (w : World) :
  snd (aggregate_result allSpeeches w) = w.
Proof.
  unfold aggregate_result, bind, convert, prop. cbv zeta.
  destruct (Js.spread (Js.get (JObj allSpeeches) "owned")); [| reflexivity].
  unfold ret at 1.
  destruct (Js.spread (Js.get (JObj allSpeeches) "shared")); [| reflexivity].
  unfold ret at 1.
  destruct (Js.nullish (Js.get (JObj allSpeeches) "owned")); [reflexivity |].
  unfold ret at 1.
  destruct (Js.nullish (Js.get (JObj allSpeeches) "shared")); reflexivity.
Qed.

(** X16.  The aggregate call sends at most two requests, first the owned
    page, then the shared page, each the one request of [getAllSpeeches]
    for that source and for the folder given (0 standing in for an
    undefined one); a source whose fetch sends nothing contributes none. *)
Theorem aggregate_asks_owned_then_shared (folder : JValue) (maxPerSource : Z) (w : World) :
  exists owned_part shared_part,
    exchanges_since w (snd (getAllSpeechesFromAllSources folder maxPerSource w))
    = (owned_part ++ shared_part)%list /\
    one_page (client w) (Js.default folder (JNum 0)) (JStr "owned") maxPerSource owned_part /\
    one_page (client w) (Js.default folder (JNum 0)) (JStr "shared") maxPerSource shared_part.
Proof.
  apply (since_spec w _ (fun new => exists owned_part shared_part,
           new = (owned_part ++ shared_part)%list /\
           one_page (client w) (Js.default folder (JNum 0)) (JStr "owned") maxPerSource owned_part /\
           one_page (client w) (Js.default folder (JNum 0)) (JStr "shared") maxPerSource shared_part)).
  change (wp (getAllSpeechesFromAllSources folder maxPerSource)
            (fun _ w' => exists new, wire w' = (wire w ++ new)%list /\
               exists owned_part shared_part,
                 new = (owned_part ++ shared_part)%list /\
                 one_page (client w) (Js.default folder (JNum 0)) (JStr "owned") maxPerSource owned_part /\
                 one_page (client w) (Js.default folder (JNum 0)) (JStr "shared") maxPerSource shared_part) w).
  unfold getAllSpeechesFromAllSources. cbv zeta. rewrite collect_source_default.
  apply wp_bind, wp_require_userid.
  destruct (_isUseridInvalid (client w)).
  { exists []. rewrite app_nil_r. split; [reflexivity |].
    exists [], []. repeat split; left; reflexivity. }
  apply wp_try_catch, wp_bind. cbn [for_each]. apply wp_bind.
  eapply wp_mono; [apply collect_source_page |].
  intros out1 w1 [Hclient1 [part1 [Hwire1 Hpart1]]].
  assert (forall w2, client w2 = client w1 ->
                     (exists part2, wire w2 = (wire w1 ++ part2)%list /\
                        one_page (client w) (Js.default folder (JNum 0)) (JStr "shared") maxPerSource part2) ->
                     exists new, wire w2 = (wire w ++ new)%list /\
                       exists owned_part shared_part,
                         new = (owned_part ++ shared_part)%list /\
                         one_page (client w) (Js.default folder (JNum 0)) (JStr "owned") maxPerSource owned_part /\
                         one_page (client w) (Js.default folder (JNum 0)) (JStr "shared") maxPerSource shared_part)
    as Hdone.
  { intros w2 _ [part2 [Hwire2 Hpart2]]. exists (part1 ++ part2)%list.
    rewrite Hwire2, Hwire1, app_assoc. split; [reflexivity |].
    exists part1, part2. auto. }
  destruct out1 as [tally1 | error1].
  - apply wp_bind. eapply wp_mono; [apply collect_source_page |].
    intros out2 w2 [Hclient2 [part2 [Hwire2 Hpart2]]].
    rewrite Hclient1 in Hpart2.
    assert (exists part, wire w2 = (wire w1 ++ part)%list /\
              one_page (client w) (Js.default folder (JNum 0)) (JStr "shared") maxPerSource part) as Hshared
      by eauto.
    destruct out2 as [tally2 | error2].
    + apply wp_ret.
      apply wp_pure; [apply aggregate_result_pure |].
      intros out Hout. destruct out; [| apply wp_rethrow];
        apply Hdone; (congruence || assumption).
    + apply wp_rethrow. apply Hdone; (congruence || assumption).
  - apply wp_rethrow. apply Hdone; [reflexivity |].
    exists []. rewrite app_nil_r. split; [reflexivity | left; reflexivity].
Qed.

Lemma cookies_round_trip_witness :
  let r := {| res_status := 200;
              res_set_cookie := Some ["sid=abc; Path=/; HttpOnly"; "csrftoken=tok"];
              res_data := JNull |} in
  _extractCookies r = [("sid", "abc"); ("csrftoken", "tok")] /\
  cookie_string (_extractCookies r) = "sid=abc; csrftoken=tok".
Proof.
  intros r.
  apply (cookies_round_trip r two_cookie_lines).
  - reflexivity.
  - apply Forall_cons; [| apply Forall_cons; [| apply Forall_nil]];
      unfold well_formed_line, plain; simpl; repeat split; try discriminate.
    + right. eexists. reflexivity.
    + left. reflexivity.
  - simpl. repeat constructor; simpl; intuition discriminate.
Defined.

Lemma login_opens_the_gate_witness :
  let w := fresh_world [Answer first_login; ok_json [("speech", JObj [])]] in
  let w1 := snd (login (JStr "bob") (JStr "secret") w) in
  let run := call demo_platform (GetSpeech (JStr "s1")) w1 in
  fst run = Returned {| status := 200; data := JObj [("speech", JObj [])] |} /\
  map (fun x => (req_cookie (fst x), Obj.get (req_params (fst x)) "userid"))
      (exchanges_since w1 (snd run))
  = [(Some "sid=abc", Some (JStr "u1"))].
Proof.
  intros w w1 run.
  destruct (login_opens_the_gate demo_platform (JStr "bob") (JStr "secret")
              (GetSpeech (JStr "s1")) w first_login
              {| res_status := 200; res_set_cookie := None;
                 res_data := JObj [("speech", JObj [])] |} [])
    as [Hout _]; try reflexivity.
  split; [exact Hout | reflexivity].
Defined.


(** * Properties of the HTTP front *)

Local Open Scope srv_scope.

Lemma get_delete_same {V} (o : list (string * V)) (k : string) :
  Obj.get (Obj.delete o k) k = None.
Proof.
  induction o as [| [k' v'] rest IH]; simpl; [reflexivity |].
  destruct (String.eqb_spec k' k); simpl; [assumption |].
  destruct (String.eqb_spec k' k); [contradiction | assumption].
Qed.

Lemma delete_absent {V} (o : list (string * V)) (k : string) :
  ~ In k (map fst o) -> Obj.delete o k = o.
Proof.
  induction o as [| [k' v'] rest IH]; simpl; intros Habsent; [reflexivity |].
  destruct (String.eqb_spec k' k); simpl.
  - exfalso. apply Habsent. now left.
  - f_equal. apply IH. intros Hin. apply Habsent. now right.
Qed.

Lemma sweep_loop (now : Z) (entries : list (string * Session)) (s : Server) :
  let body := fun entry : string * Session =>
                let (sessionId, sessionData) := entry in
                if expired now sessionData then
                  store <- read_sessions ;;
                  write_sessions (Obj.delete store sessionId) ;;
                  srv_log ("Cleaned up expired session: " ++ sessionId)
                else srv_ret tt in
  fst (srv_for_each body entries s) = Returned tt /\
  sessions (snd (srv_for_each body entries s)) = swept now entries (sessions s) /\
  heap (snd (srv_for_each body entries s)) = heap s /\
  remote_wire (snd (srv_for_each body entries s)) = remote_wire s.
Proof.
  intros body. revert s.
  induction entries as [| [sessionId sessionData] rest IH]; intros s; simpl.
  - auto.
  - unfold srv_bind at 1. unfold body at 1.
    destruct (expired now sessionData); simpl.
    + destruct (IH (snd (srv_log ("Cleaned up expired session: " ++ sessionId)
                           (with_sessions s (Obj.delete (sessions s) sessionId)))))
        as [Hout [Hstore [Hheap Hwire]]].
      simpl in *. auto.
    + apply IH.
Qed.

Lemma swept_filter (now : Z) (entries store : list (string * Session)) :
  swept now entries store
  = filter (fun e => negb (existsb (fun e' => String.eqb (fst e') (fst e)
                                              && expired now (snd e')) entries))
           store.
Proof.
  revert store. induction entries as [| [sessionId sessionData] rest IH];
    intros store; simpl.
  - induction store as [| e store' IHs]; simpl; congruence.
  - rewrite IH. destruct (expired now sessionData); simpl.
    + unfold Obj.delete.
      induction store as [| e store' IHs]; simpl; [reflexivity |].
      rewrite andb_true_r, (String.eqb_sym sessionId (fst e)).
      destruct (String.eqb (fst e) sessionId); simpl; [assumption |].
      destruct (existsb _ rest); simpl; congruence.
    + apply filter_ext. intros e. rewrite andb_false_r. reflexivity.
Qed.

Lemma swept_own (now : Z) (store : list (string * Session)) :
  NoDup (map fst store) ->
  swept now store store = filter (fun e => negb (expired now (snd e))) store.
Proof.
  intros Hdistinct. rewrite swept_filter.
  apply filter_ext_in. intros [k d] Hin. f_equal. simpl.
  destruct (expired now d) eqn:Hexp.
  - apply existsb_exists. exists (k, d). simpl.
    now rewrite String.eqb_refl, Hexp.
  - destruct (existsb _ store) eqn:Hex; [| reflexivity].
    apply existsb_exists in Hex. destruct Hex as [[k' d'] [Hin' Hboth]].
    simpl in Hboth. apply andb_true_iff in Hboth. destruct Hboth as [Hk Hd].
    apply String.eqb_eq in Hk. subst k'.
    assert (d' = d) as ->; [| congruence].
    clear Hexp Hd. induction store as [| [k0 d0] rest IH]; [contradiction |].
    simpl in Hdistinct. inversion Hdistinct as [| ? ? Hfresh Hrest]; subst.
    destruct Hin as [Hin | Hin], Hin' as [Hin' | Hin'].
    + congruence.
    + inversion Hin; subst. exfalso. apply Hfresh.
      apply (in_map fst) in Hin'. exact Hin'.
    + inversion Hin'; subst. exfalso. apply Hfresh.
      apply (in_map fst) in Hin. exact Hin.
    + now apply IH.
Qed.

(** X17.  The hourly sweep removes exactly the sessions that are older than the
    timeout at the one clock reading it takes: the others stay, with their
    data and in their order; instances and the remote side are left alone. *)
Theorem sweep_keeps_the_live_sessions (rt : Runtime) (s : Server) :
  NoDup (map fst (sessions s)) ->
  let now := now_at rt (readings s) in
  let s' := snd (cleanupExpiredSessions rt s) in
  fst (cleanupExpiredSessions rt s) = Returned tt /\
  sessions s' = filter (fun e => negb (expired now (snd e))) (sessions s) /\
  heap s' = heap s /\ remote_wire s' = remote_wire s.
Proof.
  intros Hdistinct now s'. subst s'.
  pose (s0 := snd (Date_now rt s)).
  destruct (sweep_loop now (sessions s) s0) as [Hout [Hstore [Hheap Hwire]]].
  change (cleanupExpiredSessions rt s)
    with (srv_for_each
            (fun entry : string * Session =>
               let (sessionId, sessionData) := entry in
               if expired now sessionData then
                 store <- read_sessions ;;
                 write_sessions (Obj.delete store sessionId) ;;
                 srv_log ("Cleaned up expired session: " ++ sessionId)
               else srv_ret tt)
            (sessions s) s0).
  repeat split; try assumption.
  rewrite Hstore. now apply swept_own.
Qed.

(** ** Session lookups *)

Ltac srv_unfold :=
  cbv [srv_bind srv_try srv_ret srv_throw read_sessions write_sessions Date_now
       random_token srv_log srv_error with_sessions instance_userid new_OtterAI
       srv_convert srv_printed srv_prop] in *;
  cbn [fst snd sessions heap readings draws remote_wire remote_inbox stdout stderr
       files] in *.

Lemma lookup_unknown (rt : Runtime) (sessionId : string) (s : Server) :
  Obj.get (sessions s) sessionId = None ->
  getOtterInstance rt sessionId s
  = (Thrown (session_error "Session not found or expired. Please login again."), s).
Proof.
  intros Hget. unfold getOtterInstance. srv_unfold. now rewrite Hget.
Qed.

Lemma lookup_expired (rt : Runtime) (sessionId : string) (s : Server) (d : Session) :
  Obj.get (sessions s) sessionId = Some d ->
  expired (now_at rt (readings s)) d = true ->
  fst (getOtterInstance rt sessionId s)
  = Thrown (session_error "Session expired. Please login again.") /\
  sessions (snd (getOtterInstance rt sessionId s)) = Obj.delete (sessions s) sessionId /\
  heap (snd (getOtterInstance rt sessionId s)) = heap s /\
  remote_wire (snd (getOtterInstance rt sessionId s)) = remote_wire s.
Proof.
  intros Hget Hexp. unfold getOtterInstance. srv_unfold.
  rewrite Hget. cbn. rewrite Hexp. cbn. auto.
Qed.

Lemma lookup_live (rt : Runtime) (sessionId : string) (s : Server) (d : Session) :
  Obj.get (sessions s) sessionId = Some d ->
  expired (now_at rt (readings s)) d = false ->
  getOtterInstance rt sessionId s
  = (Returned (otter d),
     {| sessions := Obj.set (sessions s) sessionId
                      {| otter := otter d; timestamp := now_at rt (S (readings s));
                         userId := userId d; username := username d |};
        heap := heap s; readings := S (S (readings s)); draws := draws s;
        remote_wire := remote_wire s; remote_inbox := remote_inbox s;
        stdout := stdout s; stderr := stderr s; files := files s |}).
Proof.
  intros Hget Hexp. unfold getOtterInstance. srv_unfold.
  rewrite Hget. cbn. rewrite Hexp. reflexivity.
Qed.

(** X18.  A lookup that finds a live session moves its deadline: the timeout
    then counts from that lookup, not from the login.  A second lookup
    succeeds whenever it comes within the timeout of the first, however
    old the session is. *)
Theorem live_session_slides (rt : Runtime) (sessionId : string) (s : Server) (d : Session) :
  Obj.get (sessions s) sessionId = Some d ->
  expired (now_at rt (readings s)) d = false ->
  now_at rt (2 + readings s) - now_at rt (1 + readings s) <= SESSION_TIMEOUT ->
  let first := getOtterInstance rt sessionId s in
  fst first = Returned (otter d) /\
  option_map timestamp (Obj.get (sessions (snd first)) sessionId)
  = Some (now_at rt (1 + readings s)) /\
  fst (getOtterInstance rt sessionId (snd first)) = Returned (otter d).
Proof.
  intros Hget Hexp Hsoon first. subst first.
  rewrite (lookup_live rt sessionId s d Hget Hexp). cbn [fst snd].
  split; [reflexivity |]. split.
  - cbn [sessions]. now rewrite get_set_same.
  - rewrite (lookup_live rt sessionId _
               {| otter := otter d; timestamp := now_at rt (S (readings s));
                  userId := userId d; username := username d |}).
    + reflexivity.
    + cbn [sessions]. apply get_set_same.
    + unfold expired. cbn [readings timestamp]. apply Z.ltb_ge. exact Hsoon.
Qed.

(** X19.  A lookup that finds its session expired removes it: it reports
    'Session expired' once, and every later lookup of that id reports
    'Session not found', whatever the clock says then. *)
Theorem expired_session_is_forgotten
    (rt : Runtime) (sessionId : string) (s : Server) (d : Session) :
  Obj.get (sessions s) sessionId = Some d ->
  expired (now_at rt (readings s)) d = true ->
  let first := getOtterInstance rt sessionId s in
  fst first = Thrown (session_error "Session expired. Please login again.") /\
  forall rt' : Runtime,
    fst (getOtterInstance rt' sessionId (snd first))
    = Thrown (session_error "Session not found or expired. Please login again.").
Proof.
  intros Hget Hexp first. subst first.
  destruct (lookup_expired rt sessionId s d Hget Hexp) as [Hout [Hstore _]].
  split; [exact Hout |]. intros rt'.
  rewrite lookup_unknown; [reflexivity |].
  rewrite Hstore. apply get_delete_same.
Qed.

(** ** The handlers *)

Ltac srv_case :=
  match goal with
  | |- context [match header_given ?h with _ => _ end] => destruct (header_given h) eqn:?
  | |- context [match Obj.get ?o ?k with _ => _ end] => destruct (Obj.get o k) eqn:?
  | |- context [if expired ?n ?d then _ else _] => destruct (expired n d) eqn:?
  | |- context [if Str.is_empty ?x then _ else _] => destruct (Str.is_empty x) eqn:?
  | |- context [getSpeech ?a ?w] => destruct (getSpeech a w) as [[? | ?] ?] eqn:?
  | |- context [login ?u ?p ?w] => destruct (login u p w) as [[? | ?] ?] eqn:?
  | |- context [getAllSpeechesFromAllSources ?f ?n ?w] =>
      destruct (getAllSpeechesFromAllSources f n w) as [[? | ?] ?] eqn:?
  end.

Ltac srv_cases := repeat (srv_unfold; cbn beta iota zeta; try srv_case).

(** X26.  The transcript endpoint reads the title, the duration, the transcript
    and the rest off the envelope [{status, data}] the client returns, not
    off its [data]: whatever Otter answered, a 200 carries the defaults. *)
Theorem transcript_answers_defaults
    (rt : Runtime) (header : option string) (speechId : string) (s : Server)
    (response : HttpResponse) :
  fst (transcript_handler rt header speechId s) = Returned response ->
  code response = 200 ->
  body response
  = JObj [("speech_id", JStr speechId); ("title", JStr "Untitled");
          ("duration", JNum 0); ("created_at", JNull);
          ("transcript_text", JStr EmptyString); ("speakers", JArr []);
          ("structured_transcript", JNull)].
Proof.
  unfold transcript_handler, getOtterInstance, on_instance.
  srv_cases.
  all: intros Hout Hcode; inversion Hout; subst; try discriminate Hcode.
  all: reflexivity.
Qed.

(** ** The list of speeches *)

Lemma srv_map_length {X Y} (f : X -> Srv Y) (items : list X) (s : Server) (ys : list Y) :
  fst (srv_map f items s) = Returned ys -> List.length ys = List.length items.
Proof.
  revert s ys. induction items as [| x rest IH]; intros s ys; simpl.
  - intros Hout. inversion Hout. reflexivity.
  - unfold srv_bind at 1. destruct (f x s) as [[y | e] s1]; [| discriminate].
    unfold srv_bind at 1.
    destruct (srv_map f rest s1) as [[ys' | e] s2] eqn:Hrest; [| discriminate].
    intros Hout. inversion Hout; subst. simpl. f_equal.
    apply (IH s1). now rewrite Hrest.
Qed.

(** The entries are made from the items one by one, and keep their id. *)
Lemma speech_entries_ids (items : list JValue) (s : Server) (entries : list JValue) :
  fst (srv_map speech_entry items s) = Returned entries ->
  Forall2 (fun item entry => Js.get entry "id" = Js.get item "id") items entries.
Proof.
  revert s entries. induction items as [| x rest IH]; intros s entries; simpl.
  - intros Hout. inversion Hout. constructor.
  - unfold srv_bind at 1, speech_entry at 1, srv_bind at 1, srv_prop.
    destruct (Js.nullish x); [discriminate |].
    cbv [srv_ret]. unfold srv_bind.
    destruct (srv_map speech_entry rest s) as [[ys | e] s1] eqn:Hrest; [| discriminate].
    intros Hout. inversion Hout; subst. constructor; [reflexivity |].
    apply (IH s). now rewrite Hrest.
Qed.

(** A string that spreads into items spreads into strings, which have no
    id: items that all have one come from an array, or from nothing. *)
Lemma items_with_id (v : JValue) (items : list JValue) :
  Js.spread v = Some items ->
  Forall (fun item => Js.get item "id" <> JUndefined) items ->
  Js.astral v = O.
Proof.
  destruct v; simpl; try discriminate; [| reflexivity].
  intros Hitems Hall. inversion Hitems; subst; clear Hitems.
  destruct s as [| c [| d rest]]; [reflexivity | reflexivity |].
  exfalso. cbn [Str.code_points] in Hall.
  destruct (Str.is_high_surrogate c && Str.is_low_surrogate d);
    inversion Hall as [| x l Hhead Htail]; subst; apply Hhead; reflexivity.
Qed.

(** X25.  Whenever the speech-ids endpoint answers 200, its total_count is
    at least the number of entries it lists, and is that number when every
    entry has an id.  (The count adds up the [length] of what each source
    gave; a source that gave a string is listed by code point, in entries
    without id, and counted by code unit.) *)
Theorem speech_ids_total_is_the_number_listed
    (rt : Runtime) (header : option string) (s : Server) (response : HttpResponse) :
  fst (speech_ids_handler rt header s) = Returned response ->
  code response = 200 ->
  exists entries total,
    body response = JObj [("total_count", JNum total); ("speech_ids", JArr entries)] /\
    Z.of_nat (List.length entries) <= total /\
    (Forall (fun entry => Js.get entry "id" <> JUndefined) entries ->
     total = Z.of_nat (List.length entries)).
Proof.
  unfold speech_ids_handler, on_instance.
  destruct (header_given header) as [sessionId |];
    [| srv_unfold; intros Hout Hcode; inversion Hout; subst; discriminate Hcode].
  unfold srv_try, srv_bind at 1.
  destruct (getOtterInstance rt sessionId s) as [[ref | e] s1];
    [| srv_unfold; intros Hout Hcode; inversion Hout; subst; discriminate Hcode].
  srv_unfold. cbn beta iota zeta.
  match goal with
  | |- context [getAllSpeechesFromAllSources ?f ?n ?w] =>
      destruct (getAllSpeechesFromAllSources f n w) as [[env | e] w1] eqn:Hrun
  end;
    [| intros Hout Hcode; inversion Hout; subst; discriminate Hcode].
  apply (f_equal fst) in Hrun. cbn [fst] in Hrun.
  destruct (aggregate_shape _ _ _ _ Hrun)
    as [o [sh [owned [shared [Hspread_o [Hspread_s Henv]]]]]].
  cbv zeta in Henv. subst env. cbn [data].
  set (total := Z.of_nat (List.length owned + Js.astral o)
                + Z.of_nat (List.length shared + Js.astral sh)) in *.
  cbn -[srv_map speech_entry total].
  match goal with
  | |- context [srv_map ?f ?l ?s0] =>
      destruct (srv_map f l s0) as [[entries | e] s2] eqn:Hmap
  end;
    [| intros Hout Hcode; inversion Hout; subst; discriminate Hcode].
  apply (f_equal fst) in Hmap. cbn [fst] in Hmap.
  pose proof (speech_entries_ids _ _ _ Hmap) as Hids.
  apply srv_map_length in Hmap. rewrite length_app in Hmap.
  intros Hout _. inversion Hout; subst. cbn [body json].
  assert (Forall (fun entry => Js.get entry "id" <> JUndefined) entries ->
          Js.astral o = O /\ Js.astral sh = O) as Hplain.
  { intros Hall.
    assert (Forall (fun item => Js.get item "id" <> JUndefined) (owned ++ shared)%list)
      as Hitems.
    { clear - Hids Hall. induction Hids as [| item entry items entries Hid Hrest IH];
        [constructor |].
      inversion Hall; subst. constructor; [congruence | auto]. }
    apply Forall_app in Hitems. destruct Hitems as [Howned Hshared].
    split; eapply items_with_id; eassumption. }
  unfold Js.or. cbn [Js.truthy].
  destruct (total =? 0) eqn:Hzero; cbn [negb].
  - exists entries, (Z.of_nat (List.length entries)).
    split; [reflexivity |]. split; [lia | reflexivity].
  - exists entries, total. split; [reflexivity |].
    split; [subst total; lia |].
    intros Hall. destruct (Hplain Hall) as [Ho Hs]. subst total.
    rewrite Ho, Hs. lia.
Qed.

Ltac srv_split :=
  match goal with
  | |- context [match header_given ?h with _ => _ end] => destruct (header_given h) eqn:?
  | |- context [getOtterInstance ?rt ?i ?s] =>
      destruct (getOtterInstance rt i s) as [[? | ?] ?] eqn:?
  | |- context [getSpeech ?a ?w] => destruct (getSpeech a w) as [[? | ?] ?] eqn:?
  | |- context [login ?u ?p ?w] => destruct (login u p w) as [[? | ?] ?] eqn:?
  | |- context [getAllSpeechesFromAllSources ?f ?n ?w] =>
      destruct (getAllSpeechesFromAllSources f n w) as [[? | ?] ?] eqn:?
  | |- context [srv_map ?f ?l ?s] => destruct (srv_map f l s) as [[? | ?] ?] eqn:?
  | |- context [match Js.to_string ?v with _ => _ end] => destruct (Js.to_string v) eqn:?
  | |- context [match Obj.get ?o ?k with _ => _ end] => destruct (Obj.get o k) eqn:?
  | |- context [match Js.get ?o ?k with _ => _ end] => destruct (Js.get o k) eqn:?
  | |- context [if ?b then _ else _] => destruct b eqn:?
  end.

Ltac srv_paths :=
  unfold generateSessionId, on_instance;
  repeat (cbv [srv_bind srv_try srv_ret srv_throw read_sessions write_sessions Date_now
               random_token srv_log srv_error with_sessions instance_userid new_OtterAI
               srv_convert srv_printed srv_prop];
          cbn [fst snd sessions heap readings draws remote_wire remote_inbox stdout
               stderr files];
          try srv_split).

Lemma try_answers (codes : list Z) (m : Srv HttpResponse)
    (handler : JsError -> Srv HttpResponse) (s : Server) :
  (forall e s1, answers codes (handler e s1)) ->
  (forall r, fst (m s) = Returned r -> In (code r) codes) ->
  answers codes (srv_try m handler s).
Proof.
  intros Hhandler Hbody. unfold srv_try.
  destruct (m s) as [[r | e] s1].
  - exists r. split; [reflexivity |]. now apply Hbody.
  - apply Hhandler.
Qed.

Ltac answered :=
  intros ? Hout; first [discriminate Hout | injection Hout as <-; cbn [code json In]; auto 6].

(** X21.  No handler lets an error escape to the error middleware: each one
    answers, whatever the request, the store and the remote side, and
    with one of its own status codes. *)
Theorem handlers_always_answer (rt : Runtime) (s : Server) :
  (forall req_body, answers [200; 400; 401; 500] (login_handler rt req_body s)) /\
  (forall header, answers [200; 401; 500] (speech_ids_handler rt header s)) /\
  (forall header speechId,
     answers [200; 400; 401; 500] (transcript_handler rt header speechId s)) /\
  (forall header req_body, answers [200; 500] (logout_handler rt header req_body s)).
Proof.
  repeat split; intros.
  - apply try_answers.
    + intros e s1. eexists. split; [reflexivity |]. simpl. auto.
    + srv_paths. all: answered.
  - apply try_answers.
    + intros e s1. eexists. split; [reflexivity |]. simpl. auto.
    + srv_paths. all: answered.
  - apply try_answers.
    + intros e s1. eexists. split; [reflexivity |]. simpl. auto.
    + srv_paths. all: answered.
  - apply try_answers.
    + intros e s1. eexists. split; [reflexivity |]. simpl. auto.
    + srv_paths. all: answered.
Qed.

(** ** Who may reach the remote service *)

Lemma lookup_refused (rt : Runtime) (header : option string) (sessionId : string)
    (s : Server) :
  header_given header = Some sessionId ->
  live rt s header = false ->
  exists e, fst (getOtterInstance rt sessionId s) = Thrown e /\
            untouched_remote s (snd (getOtterInstance rt sessionId s)).
Proof.
  unfold live, untouched_remote. intros Hheader. rewrite Hheader.
  destruct (Obj.get (sessions s) sessionId) as [d |] eqn:Hget.
  - intros Hexp. apply negb_false_iff in Hexp.
    destruct (lookup_expired rt sessionId s d Hget Hexp) as [Hout [_ [Hheap Hwire]]].
    eexists. split; [exact Hout |].
    unfold getOtterInstance in *. srv_unfold. rewrite Hget in *. cbn in *.
    rewrite Hexp in *. cbn. auto.
  - intros _. rewrite lookup_unknown by assumption. eexists. cbn. auto.
Qed.

(** X22.  The data endpoints contact Otter only on behalf of a live session: a
    request whose header names none is answered 401 or 500, and neither
    the remote side nor any instance nor the disk is touched. *)
Theorem no_session_no_call (rt : Runtime) (s : Server) (header : option string)
    (speechId : string) :
  live rt s header = false ->
  let listing := speech_ids_handler rt header s in
  let transcript := transcript_handler rt header speechId s in
  answers [401; 500] listing /\ untouched_remote s (snd listing) /\
  answers [401; 500] transcript /\ untouched_remote s (snd transcript).
Proof.
  intros Hlive. cbv zeta. unfold speech_ids_handler, transcript_handler.
  destruct (header_given header) as [sessionId |] eqn:Hheader.
  - destruct (lookup_refused rt header sessionId s Hheader Hlive)
      as [e [Hout Hsame]].
    unfold srv_try, srv_bind.
    destruct (getOtterInstance rt sessionId s) as [out s1].
    cbn [fst snd] in Hout, Hsame. subst out. unfold answers, untouched_remote in *.
    srv_unfold. cbn [code In]. intuition eauto 6.
  - unfold answers, untouched_remote. srv_unfold. cbn. intuition eauto 6.
Qed.

(** ** Logging out *)

Lemma logout_store (rt : Runtime) (header : option string) (sessionId : string)
    (req_body : JValue) (s : Server) :
  header_given header = Some sessionId ->
  sessions (snd (logout_handler rt header req_body s))
  = Obj.delete (sessions s) sessionId /\
  untouched_remote s (snd (logout_handler rt header req_body s)).
Proof.
  intros Hheader. unfold logout_handler, untouched_remote. rewrite Hheader.
  assert (Str.is_empty sessionId = false) as Hgiven.
  { unfold header_given in Hheader. destruct header as [h |]; [| discriminate].
    destruct (Str.is_empty h) eqn:Hempty; [discriminate |]. congruence. }
  srv_unfold. rewrite Hgiven.
  destruct (Obj.get (sessions s) sessionId) as [d |] eqn:Hget.
  - cbn. destruct (Js.to_string (username d)); cbn; auto.
  - cbn. split; [| auto]. symmetry. apply delete_absent.
    intros Hin. apply get_in in Hin. contradiction.
Qed.

(** X27.  Logging out with a session-id header ends that session, whatever the
    handler answers: the next listing or transcript request with the same
    header is answered 500 with 'Session not found or expired. Please
    login again.', and Otter is not contacted. *)
Theorem logout_ends_the_session (rt rt' : Runtime) (header : option string)
    (sessionId speechId : string) (req_body : JValue) (s : Server) :
  header_given header = Some sessionId ->
  let s1 := snd (logout_handler rt header req_body s) in
  let message := JStr "Session not found or expired. Please login again." in
  Obj.get (sessions s1) sessionId = None /\
  fst (speech_ids_handler rt' header s1)
  = Returned {| code := 500;
                body := JObj [("error", JStr "Failed to get speech IDs");
                              ("message", message)] |} /\
  fst (transcript_handler rt' header speechId s1)
  = Returned {| code := 500;
                body := JObj [("error", JStr "Failed to get transcript");
                              ("message", message)] |} /\
  remote_wire (snd (speech_ids_handler rt' header s1)) = remote_wire s /\
  remote_wire (snd (transcript_handler rt' header speechId s1)) = remote_wire s.
Proof.
  intros Hheader s1 message. subst s1 message.
  destruct (logout_store rt header sessionId req_body s Hheader)
    as [Hstore [Hwire _]].
  assert (Obj.get (sessions (snd (logout_handler rt header req_body s))) sessionId = None)
    as Hgone by (rewrite Hstore; apply get_delete_same).
  split; [exact Hgone |].
  unfold speech_ids_handler, transcript_handler. rewrite Hheader.
  unfold srv_try, srv_bind. rewrite (lookup_unknown rt' _ _ Hgone).
  srv_unfold. cbn. auto.
Qed.

(** ** Logging in *)


Lemma nth_put_other {X} (i j : nat) (x d : X) (l : list X) :
  i <> j -> nth j (put i x l) d = nth j l d.
Proof.
  revert i j. induction l as [| y rest IH]; intros i j Hneq.
  - destruct i, j; reflexivity.
  - destruct i, j; simpl; try reflexivity; try congruence.
    apply IH. congruence.
Qed.

Lemma put_length {X} (i : nat) (x : X) (l : list X) :
  List.length (put i x l) = List.length l.
Proof.
  revert i. induction l as [| y rest IH]; intros i; destruct i; simpl;
    try reflexivity. now rewrite IH.
Qed.


(** X24.  Only a login answered 200 changes the session store, and a login
    refused with 400 changes nothing at all: no instance is made, nothing
    is sent, nothing is logged. *)
Theorem only_accepted_logins_store_sessions
    (rt : Runtime) (req_body : JValue) (s : Server) (response : HttpResponse) :
  fst (login_handler rt req_body s) = Returned response ->
  code response <> 200 ->
  sessions (snd (login_handler rt req_body s)) = sessions s /\
  (code response = 400 -> snd (login_handler rt req_body s) = s).
Proof.
  destruct (login_handler rt req_body s) as [out s'] eqn:Hrun.
  cbn [fst snd]. intros Hout. subst out. revert Hrun.
  unfold login_handler. srv_paths.
  all: intros Hrun Hcode; inversion Hrun; subst; clear Hrun.
  all: cbn [code json sessions] in *; try congruence.
  all: split; [reflexivity | intros Hbad; try discriminate Hbad].
  all: reflexivity.
Qed.

(** ** What a request leaves alone *)

Lemma get_replace_other {V} (o : list (string * V)) (k k' : string) (v : V) :
  k' <> k -> Obj.get (Obj.replace o k v) k' = Obj.get o k'.
Proof.
  intros Hneq. induction o as [| [k0 v0] rest IH]; simpl; [reflexivity |].
  destruct (String.eqb_spec k0 k); simpl.
  - subst k0. destruct (String.eqb_spec k k'); [congruence | reflexivity].
  - destruct (String.eqb k0 k'); [reflexivity | assumption].
Qed.

Lemma get_set_other {V} (o : list (string * V)) (k k' : string) (v : V) :
  k' <> k -> Obj.get (Obj.set o k v) k' = Obj.get o k'.
Proof.
  intros Hneq. unfold Obj.set. destruct (Obj.has o k).
  - now apply get_replace_other.
  - induction o as [| [k0 v0] rest IH]; simpl.
    + destruct (String.eqb_spec k k'); [congruence | reflexivity].
    + destruct (String.eqb k0 k'); [reflexivity | assumption].
Qed.

Lemma lookup_frame (rt : Runtime) (sessionId : string) (s : Server) :
  let run := getOtterInstance rt sessionId s in
  (forall other, other <> sessionId ->
                 Obj.get (sessions (snd run)) other = Obj.get (sessions s) other) /\
  heap (snd run) = heap s /\
  (forall ref, fst run = Returned ref ->
               option_map otter (Obj.get (sessions s) sessionId) = Some ref).
Proof.
  cbv zeta. destruct (Obj.get (sessions s) sessionId) as [d |] eqn:Hget.
  - destruct (expired (now_at rt (readings s)) d) eqn:Hexp.
    + destruct (lookup_expired rt sessionId s d Hget Hexp) as [Hout [Hstore [Hheap _]]].
      rewrite Hout, Hstore, Hheap. repeat split; try discriminate.
      intros other Hneq. now apply get_delete_other.
    + rewrite (lookup_live rt sessionId s d Hget Hexp). cbn [fst snd sessions heap].
      repeat split.
      * intros other Hneq. now apply get_set_other.
      * intros ref Href. inversion Href. reflexivity.
  - rewrite (lookup_unknown rt sessionId s Hget). cbn [fst snd].
    repeat split; discriminate.
Qed.

Lemma speech_entries_state (items : list JValue) (s : Server) :
  snd (srv_map speech_entry items s) = s.
Proof.
  revert s. induction items as [| x rest IH]; intros s; simpl; [reflexivity |].
  unfold srv_bind at 1, speech_entry at 1, srv_bind at 1, srv_prop.
  destruct (Js.nullish x); [reflexivity |].
  cbv [srv_ret]. unfold srv_bind.
  specialize (IH s). destruct (srv_map speech_entry rest s) as [[ys | e] s1];
    cbn [snd] in *; assumption.
Qed.

Ltac framed Hlookup :=
  let Hstore := fresh "Hstore" in
  let Hheap := fresh "Hheap" in
  let Href := fresh "Href" in
  destruct Hlookup as [Hstore [Hheap Href]];
  cbn [fst snd] in Hstore, Hheap, Href;
  split; cbn [sessions heap];
  [ intros other Hneq; now apply Hstore
  | intros ref Hother; try rewrite Hheap; try reflexivity;
    apply nth_put_other; intros Hsame; subst ref;
    apply Hother; now apply Href ].

(** X28.  A listing, transcript or logout request changes no session but the
    one its header names, and no instance but that session's. *)
Theorem requests_touch_only_their_session
    (rt : Runtime) (header : option string) (sessionId speechId : string)
    (req_body : JValue) (s : Server) :
  header_given header = Some sessionId ->
  same_elsewhere sessionId s (snd (speech_ids_handler rt header s)) /\
  same_elsewhere sessionId s (snd (transcript_handler rt header speechId s)) /\
  same_elsewhere sessionId s (snd (logout_handler rt header req_body s)).
Proof.
  intros Hheader. split; [| split].
  - unfold speech_ids_handler. rewrite Hheader.
    pose proof (lookup_frame rt sessionId s) as Hlookup. cbv zeta in Hlookup.
    srv_paths.
    all: try match goal with
             | H : srv_map speech_entry ?l ?s0 = (_, ?s1) |- _ =>
                 let Hsame := fresh "Hsame" in
                 pose proof (speech_entries_state l s0) as Hsame;
                 rewrite H in Hsame; cbn [snd] in Hsame; subst s1
             end.
    all: cbn [fst snd sessions heap]; framed Hlookup.
  - unfold transcript_handler. rewrite Hheader.
    pose proof (lookup_frame rt sessionId s) as Hlookup. cbv zeta in Hlookup.
    srv_paths.
    all: cbn [fst snd sessions heap]; framed Hlookup.
  - destruct (logout_store rt header sessionId req_body s Hheader)
      as [Hstore [_ [_ [Hheap _]]]].
    split.
    + intros other Hneq. rewrite Hstore. now apply get_delete_other.
    + intros ref _. now rewrite Hheap.
Qed.

(** ** The store binds each id once *)

Lemma delete_keeps_distinct {V} (o : list (string * V)) (k : string) :
  NoDup (map fst o) -> NoDup (map fst (Obj.delete o k)).
Proof.
  unfold Obj.delete. induction o as [| [k' v'] rest IH]; simpl; intros Hdistinct.
  - constructor.
  - inversion Hdistinct as [| ? ? Hfresh Hrest]; subst.
    destruct (negb (k' =? k)%string); simpl; [| now apply IH].
    constructor; [| now apply IH].
    intros Hin. apply Hfresh. apply in_map_iff in Hin.
    destruct Hin as [[k0 v0] [Hfst Hin]]. apply filter_In in Hin.
    apply in_map_iff. exists (k0, v0). tauto.
Qed.

Lemma filter_keeps_distinct {V} (keep : string * V -> bool) (o : list (string * V)) :
  NoDup (map fst o) -> NoDup (map fst (filter keep o)).
Proof.
  induction o as [| [k' v'] rest IH]; simpl; intros Hdistinct.
  - constructor.
  - inversion Hdistinct as [| ? ? Hfresh Hrest]; subst.
    destruct (keep (k', v')); simpl; [| now apply IH].
    constructor; [| now apply IH].
    intros Hin. apply Hfresh. apply in_map_iff in Hin.
    destruct Hin as [[k0 v0] [Hfst Hin]]. apply filter_In in Hin.
    apply in_map_iff. exists (k0, v0). tauto.
Qed.

Lemma lookup_distinct (rt : Runtime) (sessionId : string) (s : Server) :
  NoDup (map fst (sessions s)) ->
  NoDup (map fst (sessions (snd (getOtterInstance rt sessionId s)))).
Proof.
  intros Hdistinct.
  destruct (Obj.get (sessions s) sessionId) as [d |] eqn:Hget.
  - destruct (expired (now_at rt (readings s)) d) eqn:Hexp.
    + destruct (lookup_expired rt sessionId s d Hget Hexp) as [_ [Hstore _]].
      rewrite Hstore. now apply delete_keeps_distinct.
    + rewrite (lookup_live rt sessionId s d Hget Hexp). cbn [snd sessions].
      now apply set_keeps_distinct.
  - now rewrite (lookup_unknown rt sessionId s Hget).
Qed.

(** X29.  No session id is bound twice: the sweep and every handler keep the
    ids of the store distinct (the store starts empty). *)
Theorem session_ids_stay_distinct (rt : Runtime) (s : Server) :
  NoDup (map fst (sessions s)) ->
  let kept (s' : Server) := NoDup (map fst (sessions s')) in
  kept (snd (cleanupExpiredSessions rt s)) /\
  (forall req_body, kept (snd (login_handler rt req_body s))) /\
  (forall header, kept (snd (speech_ids_handler rt header s))) /\
  (forall header speechId, kept (snd (transcript_handler rt header speechId s))) /\
  (forall header req_body, kept (snd (logout_handler rt header req_body s))).
Proof.
  intros Hdistinct kept. subst kept. cbv beta.
  split; [| split; [| split; [| split]]].
  - pose (s0 := snd (Date_now rt s)).
    destruct (sweep_loop (now_at rt (readings s)) (sessions s) s0) as [_ [Hstore _]].
    change (cleanupExpiredSessions rt s)
      with (srv_for_each
              (fun entry : string * Session =>
                 let (sessionId, sessionData) := entry in
                 if expired (now_at rt (readings s)) sessionData then
                   store <- read_sessions ;;
                   write_sessions (Obj.delete store sessionId) ;;
                   srv_log ("Cleaned up expired session: " ++ sessionId)
                 else srv_ret tt)
              (sessions s) s0).
    rewrite Hstore. cbn [s0 Date_now snd sessions]. rewrite swept_filter.
    now apply filter_keeps_distinct.
  - intros req_body. unfold login_handler. srv_paths.
    all: cbn [sessions]; try assumption.
    all: now apply set_keeps_distinct.
  - intros header. unfold speech_ids_handler.
    destruct (header_given header) as [sessionId |]; [| srv_paths; assumption].
    pose proof (lookup_distinct rt sessionId s Hdistinct) as Hlookup.
    srv_paths.
    all: try match goal with
             | H : srv_map speech_entry ?l ?s0 = (_, ?s1) |- _ =>
                 let Hsame := fresh "Hsame" in
                 pose proof (speech_entries_state l s0) as Hsame;
                 rewrite H in Hsame; cbn [snd] in Hsame; subst s1
             end.
    all: cbn [snd sessions] in *; assumption.
  - intros header speechId. unfold transcript_handler.
    destruct (header_given header) as [sessionId |]; [| srv_paths; assumption].
    pose proof (lookup_distinct rt sessionId s Hdistinct) as Hlookup.
    srv_paths.
    all: cbn [snd sessions] in *; assumption.
  - intros header req_body. unfold logout_handler. srv_paths.
    all: cbn [sessions]; try assumption.
    all: now apply delete_keeps_distinct.
Qed.

Lemma keep_alphanumeric_only (s : string) :
  all_alphanumeric (keep_alphanumeric s) = true.
Proof.
  unfold all_alphanumeric. induction s as [| c rest IH]; simpl; [reflexivity |].
  destruct (is_alphanumeric c) eqn:Hc; simpl; [| assumption].
  now rewrite Hc.
Qed.

(** X20.  A session id is 'sess_' followed by letters and digits only, whatever
    the clock, the random source and the encoder give; making one takes
    one clock reading and one random draw and changes nothing else. *)
Theorem session_ids_are_alphanumeric (rt : Runtime) (s : Server) :
  exists hash,
    fst (generateSessionId rt s) = Returned ("sess_" ++ hash) /\
    all_alphanumeric hash = true /\
    snd (generateSessionId rt s)
    = {| sessions := sessions s; heap := heap s; readings := S (readings s);
         draws := S (draws s); remote_wire := remote_wire s;
         remote_inbox := remote_inbox s; stdout := stdout s; stderr := stderr s;
         files := files s |}.
Proof.
  eexists. split; [reflexivity |]. split; [apply keep_alphanumeric_only | reflexivity].
Qed.

Lemma sweep_keeps_the_live_sessions_witness :
  let s := demo_server [] in
  NoDup (map fst (sessions s)) /\
  sessions (snd (cleanupExpiredSessions (demo_runtime 1000) s)) = [("sess_new", new_session)].
Proof.
  intros s.
  assert (NoDup (map fst (sessions s))) as Hdistinct.
  { simpl. repeat constructor; simpl; intuition discriminate. }
  split; [exact Hdistinct |].
  destruct (sweep_keeps_the_live_sessions (demo_runtime 1000) s Hdistinct)
    as [_ [Hstore _]].
  rewrite Hstore. reflexivity.
Defined.

Lemma live_session_slides_witness :
  let rt := demo_runtime 80000000 in
  let s := demo_server [] in
  let first := getOtterInstance rt "sess_new" s in
  expired (now_at rt 2) new_session = true /\
  fst first = Returned 1%nat /\
  fst (getOtterInstance rt "sess_new" (snd first)) = Returned 1%nat.
Proof.
  intros rt s first. split; [reflexivity |].
  destruct (live_session_slides rt "sess_new" s new_session) as [Hfirst [_ Hsecond]].
  - reflexivity.
  - reflexivity.
  - vm_compute. discriminate.
  - split; [exact Hfirst | exact Hsecond].
Defined.

Lemma expired_session_is_forgotten_witness :
  let rt := demo_runtime 1000 in
  let first := getOtterInstance rt "sess_old" (demo_server []) in
  fst first = Thrown (session_error "Session expired. Please login again.") /\
  fst (getOtterInstance rt "sess_old" (snd first))
  = Thrown (session_error "Session not found or expired. Please login again.").
Proof.
  intros rt first.
  destruct (expired_session_is_forgotten rt "sess_old" (demo_server []) old_session)
    as [Hfirst Hlater].
  - reflexivity.
  - reflexivity.
  - split; [exact Hfirst | exact (Hlater rt)].
Defined.

Lemma transcript_answers_defaults_witness :
  let s := demo_server [ok_json [("title", JStr "Standup");
                                 ("speech", JObj [("title", JStr "Standup")])]] in
  let run := transcript_handler (demo_runtime 1000) (Some "sess_new") "s1" s in
  exists response,
    fst run = Returned response /\ code response = 200 /\
    Js.get (body response) "title" = JStr "Untitled".
Proof.
  intros s run. eexists. split; [reflexivity |]. split; [reflexivity |].
  rewrite (transcript_answers_defaults (demo_runtime 1000) (Some "sess_new") "s1" s _
             eq_refl eq_refl).
  reflexivity.
Defined.

Lemma speech_ids_total_is_the_number_listed_witness :
  let s := demo_server [two_speeches; one_speech] in
  let run := speech_ids_handler (demo_runtime 1000) (Some "sess_new") s in
  exists response entries total,
    fst run = Returned response /\ code response = 200 /\
    body response = JObj [("total_count", JNum total); ("speech_ids", JArr entries)] /\
    Z.of_nat (List.length entries) <= total.
Proof.
  intros s run.
  assert (exists response, fst run = Returned response /\ code response = 200)
    as [response [Hout Hcode]].
  { vm_compute. eexists. split; reflexivity. }
  destruct (speech_ids_total_is_the_number_listed (demo_runtime 1000) (Some "sess_new") s
              response Hout Hcode) as [entries [total [Hbody [Hle _]]]].
  exists response, entries, total. auto.
Defined.

(** A source that gives a string: one character outside the Basic
    Multilingual Plane is listed once, without id, and counted twice. *)
Example speech_ids_counts_code_units :
  let s := demo_server [ok_json [("speeches", JStr astral_sample)]; no_speech] in
  option_map body
    (match fst (speech_ids_handler (demo_runtime 1000) (Some "sess_new") s) with
     | Returned response => Some response
     | Thrown _ => None
     end)
  = Some (JObj [("total_count", JNum 2);
                ("speech_ids",
                 JArr [JObj [("id", JUndefined); ("title", JStr "Untitled");
                             ("created_at", JNull); ("duration", JNum 0);
                             ("source", JStr "owned")]])]).
Proof. vm_compute. reflexivity. Qed.

Lemma no_session_no_call_witness :
  let s := demo_server [two_speeches; one_speech] in
  live (demo_runtime 1000) s (Some "sess_old") = false /\
  remote_wire (snd (speech_ids_handler (demo_runtime 1000) (Some "sess_old") s)) = [] /\
  remote_wire (snd (transcript_handler (demo_runtime 1000) (Some "sess_old") "s1" s)) = [].
Proof.
  intros s. split; [reflexivity |].
  destruct (no_session_no_call (demo_runtime 1000) s (Some "sess_old") "s1" eq_refl)
    as [_ [[Hlisting _] [_ [Htranscript _]]]].
  split; [exact Hlisting | exact Htranscript].
Defined.

Lemma logout_ends_the_session_witness :
  let rt := demo_runtime 1000 in
  let s1 := snd (logout_handler rt (Some "sess_new") (JObj []) (demo_server [two_speeches])) in
  Obj.get (sessions s1) "sess_new" = None /\
  remote_wire (snd (speech_ids_handler rt (Some "sess_new") s1)) = [].
Proof.
  intros rt s1.
  destruct (logout_ends_the_session rt rt (Some "sess_new") "sess_new" "s1" (JObj [])
              (demo_server [two_speeches]) eq_refl)
    as [Hgone [_ [_ [Hwire _]]]].
  split; [exact Hgone | exact Hwire].
Defined.


Lemma only_accepted_logins_store_sessions_witness :
  let s := demo_server [Answer unauthorized] in
  let run := login_handler (demo_runtime 1000) credentials s in
  option_map code (match fst run with Returned r => Some r | Thrown _ => None end)
  = Some 401 /\
  sessions (snd run) = sessions s.
Proof.
  intros s run. split; [reflexivity |].
  refine (proj1 (only_accepted_logins_store_sessions (demo_runtime 1000) credentials s _
                   eq_refl _)).
  vm_compute. discriminate.
Defined.

Lemma requests_touch_only_their_session_witness :
  let s := demo_server [two_speeches; one_speech] in
  let s' := snd (speech_ids_handler (demo_runtime 1000) (Some "sess_new") s) in
  Obj.get (sessions s') "sess_old" = Some old_session /\
  nth 0 (heap s') new_client = client (signed_in []).
Proof.
  intros s s'.
  destruct (requests_touch_only_their_session (demo_runtime 1000) (Some "sess_new")
              "sess_new" "s1" (JObj []) s eq_refl) as [[Hstore Hheap] _].
  split.
  - apply (Hstore "sess_old"). discriminate.
  - apply (Hheap 0%nat). discriminate.
Defined.

Lemma session_ids_stay_distinct_witness :
  let s := demo_server [Answer first_login] in
  NoDup (map fst (sessions (snd (login_handler (demo_runtime 1000) credentials s)))).
Proof.
  intros s.
  refine (proj1 (proj2 (session_ids_stay_distinct (demo_runtime 1000) s _)) credentials).
  simpl. repeat constructor; simpl; intuition discriminate.
Defined.
